(** * Early MMU set-up of the PowerPC 8xx: a shallow embedding

    The development follows [arch/powerpc/mm/nohash/8xx.c]: the two block
    translation functions, the installer of one 512 KB or 8 MB entry, the
    three-loop range mapper, the initial RAM mapping and the memory limit.

    [unsigned long] and [phys_addr_t] are 32-bit on this family; they are
    integers in [Z] whose arithmetic is reduced modulo [2^32] wherever the C
    code computes. *)

From Stdlib Require Import ZArith Lia Bool List.
From stdpp Require Import base option list gmap.

Local Open Scope Z_scope.

(** ** Machine words *)

Definition u32 (z : Z) : Z := z mod 2 ^ 32.

Definition is_ulong (z : Z) : Prop := 0 <= z < 2 ^ 32.

Definition SZ_4K : Z := 0x1000.
Definition SZ_512K : Z := 0x80000.
Definition SZ_8M : Z := 0x800000.
Definition SZ_32M : Z := 0x2000000.

Definition EINVAL : Z := 22.
Definition ENOMEM : Z := 12.

(** Modelled from the spec: the alignment macros of the kernel, which the
    file uses and does not define.  [ALIGN] is the ceiling to a multiple of
    the power of two [a] ("8 MB-ceiling"), [ALIGN_DOWN] the floor, and
    [IS_ALIGNED] the test; all three are computed on 32-bit words, so the
    ceiling wraps to 0 at the top of the address space. *)
Definition ALIGN (x a : Z) : Z := Z.land (u32 (x + (a - 1))) (Z.lnot (a - 1)).
Definition ALIGN_DOWN (x a : Z) : Z := Z.land x (Z.lnot (a - 1)).
Definition IS_ALIGNED (x a : Z) : bool := Z.land x (a - 1) =? 0.

(** ** The platform

    Constants, linker symbols and configuration switches that the file reads
    and that are declared elsewhere in the kernel. *)

(** The kernel's page-size indices; [psize] is an [int] in the C code and
    the installer rejects every index but two of them. *)
Inductive mmu_psize : Type :=
  | MMU_PAGE_4K
  | MMU_PAGE_16K
  | MMU_PAGE_512K
  | MMU_PAGE_8M
  | MMU_PAGE_OTHER (idx : Z).

Class Platform : Type := {
  PAGE_OFFSET : Z;
  PAGE_SHIFT : Z;
  PGDIR_SHIFT : Z;
  FIX_IMMR_SIZE : Z;
  PHYS_IMMR_BASE : Z;
  VIRT_IMMR_BASE : Z;
  sizeof_pte_basic_t : Z;
  _PAGE_PRESENT : Z;
  PAGE_KERNEL : Z;
  PAGE_KERNEL_TEXT : Z;
  PAGE_KERNEL_NCG : Z;
  PAGE_KERNEL_ROX : Z;
  _etext : Z;
  _sinittext : Z;
  _einittext : Z;
  strict_kernel_rwx_enabled : bool;
  debug_pagealloc_enabled_or_kfence : bool;
  CONFIG_PIN_TLB_DATA : bool
}.

(** ** Page-table entries and the boot state *)

Record pte : Type := MkPte {
  pte_pfn : Z;
  pte_prot : Z;
  pte_huge : bool
}.

Definition pte_zero : pte := MkPte 0 0 false.

(** What the file does to the outside: each call of the installer with its
    return code, the range handed to the lookaside-buffer flush, the limit
    handed to the early allocator and the pinning request. *)
Inductive event : Type :=
  | EvMap (va pa prot : Z) (psize : mmu_psize) (new : bool) (ret : Z)
  | EvFlush (start stop : Z)
  | EvSetLimit (limit : Z)
  | EvPin (top : Z) (data : bool).

(** The two static variables of the file, the page tables, the early
    allocator, and the log: [trace] holds the events in the order they
    happen, and [ram_seen] holds, for each event of [trace] and in the same
    order, the value [block_mapped_ram] has at the time the event happens. *)
Record mm_state : Type := MkState {
  block_mapped_ram : Z;
  immr_is_mapped : bool;
  pgdir : gmap Z Z;
  ptmem : gmap Z pte;
  memblock : list Z;
  memblock_reqs : list (Z * Z);
  slab_available : bool;
  trace : list event;
  ram_seen : list Z
}.

Definition set_block_mapped_ram (x : Z) (s : mm_state) : mm_state :=
  MkState x (immr_is_mapped s) (pgdir s) (ptmem s) (memblock s)
          (memblock_reqs s) (slab_available s) (trace s) (ram_seen s).

Definition set_immr_is_mapped (b : bool) (s : mm_state) : mm_state :=
  MkState (block_mapped_ram s) b (pgdir s) (ptmem s) (memblock s)
          (memblock_reqs s) (slab_available s) (trace s) (ram_seen s).

Definition set_pgdir (d : gmap Z Z) (s : mm_state) : mm_state :=
  MkState (block_mapped_ram s) (immr_is_mapped s) d (ptmem s) (memblock s)
          (memblock_reqs s) (slab_available s) (trace s) (ram_seen s).

Definition set_ptmem (m : gmap Z pte) (s : mm_state) : mm_state :=
  MkState (block_mapped_ram s) (immr_is_mapped s) (pgdir s) m (memblock s)
          (memblock_reqs s) (slab_available s) (trace s) (ram_seen s).

Definition set_memblock (l : list Z) (r : list (Z * Z)) (s : mm_state) : mm_state :=
  MkState (block_mapped_ram s) (immr_is_mapped s) (pgdir s) (ptmem s) l
          r (slab_available s) (trace s) (ram_seen s).

Definition emit (e : event) (s : mm_state) : mm_state :=
  MkState (block_mapped_ram s) (immr_is_mapped s) (pgdir s) (ptmem s)
          (memblock s) (memblock_reqs s) (slab_available s) (trace s ++ [e])
          (ram_seen s ++ [block_mapped_ram s]).

Section Mmu8xx.

Context {P : Platform}.

Definition IMMR_SIZE : Z := u32 (Z.shiftl FIX_IMMR_SIZE PAGE_SHIFT).

(** Modelled from the spec: the linear map of the kernel, "the
    corresponding physical offset": [__pa] subtracts [PAGE_OFFSET] and
    [__va] adds it, on words. *)
Definition __pa (x : Z) : Z := u32 (x - PAGE_OFFSET).
Definition __va (x : Z) : Z := u32 (x + PAGE_OFFSET).

(** ** AddressTranslator *)

Definition v_block_mapped (s : mm_state) (va : Z) : Z :=
  let p := PHYS_IMMR_BASE in
  if (VIRT_IMMR_BASE <=? va) && (va <? u32 (VIRT_IMMR_BASE + IMMR_SIZE)) then
    u32 (u32 (p + va) - VIRT_IMMR_BASE)
  else if (PAGE_OFFSET <=? va) && (va <? u32 (PAGE_OFFSET + block_mapped_ram s)) then
    __pa va
  else 0.

Definition p_block_mapped (s : mm_state) (pa : Z) : Z :=
  let p := PHYS_IMMR_BASE in
  if (p <=? pa) && (pa <? u32 (p + IMMR_SIZE)) then
    u32 (u32 (VIRT_IMMR_BASE + pa) - p)
  else if pa <? block_mapped_ram s then
    __va pa
  else 0.

(** The windows as the two functions test them. *)
Definition in_virt_immr (va : Z) : bool :=
  (VIRT_IMMR_BASE <=? va) && (va <? u32 (VIRT_IMMR_BASE + IMMR_SIZE)).
Definition in_virt_ram (s : mm_state) (va : Z) : bool :=
  (PAGE_OFFSET <=? va) && (va <? u32 (PAGE_OFFSET + block_mapped_ram s)).
Definition in_phys_immr (pa : Z) : bool :=
  (PHYS_IMMR_BASE <=? pa) && (pa <? u32 (PHYS_IMMR_BASE + IMMR_SIZE)).
Definition in_phys_ram (s : mm_state) (pa : Z) : bool :=
  pa <? block_mapped_ram s.

(** The address-space layout the port is built on: every constant is a word,
    neither window wraps around the top of the address space, and the RAM
    window and the register window are disjoint, virtually and physically. *)
Record layout_ok (s : mm_state) : Prop := {
  lo_page_offset : is_ulong PAGE_OFFSET;
  lo_phys_immr : is_ulong PHYS_IMMR_BASE;
  lo_virt_immr : is_ulong VIRT_IMMR_BASE;
  lo_top : is_ulong (block_mapped_ram s);
  lo_virt_immr_end : VIRT_IMMR_BASE + IMMR_SIZE < 2 ^ 32;
  lo_phys_immr_end : PHYS_IMMR_BASE + IMMR_SIZE < 2 ^ 32;
  lo_virt_ram_end : PAGE_OFFSET + block_mapped_ram s < 2 ^ 32;
  lo_virt_disjoint :
    PAGE_OFFSET + block_mapped_ram s <= VIRT_IMMR_BASE \/
    VIRT_IMMR_BASE + IMMR_SIZE <= PAGE_OFFSET;
  lo_phys_disjoint : block_mapped_ram s <= PHYS_IMMR_BASE
}.

(** ** WindowLimiter *)

(** [BUG_ON] stops the boot; the other outcome is the state after the call. *)
Inductive outcome (A : Type) : Type :=
  | Bug
  | Done (a : A).
#[global] Arguments Bug {A}.
#[global] Arguments Done {A} a.

(** Modelled from the spec: [memblock_set_current_limit], of the early
    allocator, records the limit it is given. *)
Definition memblock_set_current_limit (limit : Z) (s : mm_state) : mm_state :=
  emit (EvSetLimit limit) s.

Definition u64 (z : Z) : Z := z mod 2 ^ 64.

Definition setup_initial_memory_limit
    (first_memblock_base first_memblock_size : Z) (s : mm_state) : outcome mm_state :=
  if negb (first_memblock_base =? 0) then Bug
  else Done (memblock_set_current_limit
               (u32 (Z.min (u64 first_memblock_size) (u64 SZ_32M))) s).

(** ** The mapping-entry table and the early allocator

    Pointers are addresses in [Z]; [0] is [NULL]. *)

(** Modelled from the spec: the early allocator, [allocate(size, alignment)
    -> block | none].  Its answers to the coming requests are the list
    [memblock] ([0], or no answer left, is [NULL]); every request is
    recorded with its size and alignment. *)
Definition memblock_alloc (size align : Z) (s : mm_state) : Z * mm_state :=
  let reqs := memblock_reqs s ++ [(size, align)] in
  match memblock s with
  | [] => (0, set_memblock [] reqs s)
  | a :: rest => (a, set_memblock rest reqs s)
  end.

(** Modelled from the spec: the directory of the kernel address space.  A
    slot is named by its index, [pmdp + 1] is the next index, and an empty
    slot reads as the zero sentinel; populating a slot registers the
    sub-table's address in it. *)
Definition pmd_off_k (va : Z) : Z := Z.shiftr va PGDIR_SHIFT.

Definition pmd_val (s : mm_state) (pmdp : Z) : Z := default 0 (pgdir s !! pmdp).

Definition hpd_val (s : mm_state) (pmdp : Z) : Z := pmd_val s pmdp.

Definition pmd_populate_kernel (pmdp ptep : Z) (s : mm_state) : mm_state :=
  set_pgdir (<[pmdp := ptep]> (pgdir s)) s.

Definition PAGE_SHIFT_8M : Z := 23.

Definition hugepd_populate_kernel (hpdp ptep pshift : Z) (s : mm_state) : mm_state :=
  set_pgdir (<[hpdp := ptep]> (pgdir s)) s.

(** Modelled from the spec: the look-up of the entry addressed by [va] in
    the sub-table a slot registers, for small entries ([pte_offset_kernel])
    and for the shared sub-table of an 8 MB entry ([hugepte_offset]); an
    empty slot has no entry ([NULL]). *)
Definition pte_index (va : Z) : Z :=
  Z.land (Z.shiftr va PAGE_SHIFT) (Z.ones (PGDIR_SHIFT - PAGE_SHIFT)).

Definition pte_offset_kernel (s : mm_state) (pmdp va : Z) : Z :=
  let t := pmd_val s pmdp in
  if t =? 0 then 0 else t + pte_index va * sizeof_pte_basic_t.

Definition hugepte_offset (hpd va pdshift : Z) : Z :=
  if hpd =? 0 then 0
  else hpd + Z.shiftr (Z.land va (Z.ones pdshift)) PAGE_SHIFT * sizeof_pte_basic_t.

(** Modelled from the spec: "Small via direct entry allocation".  The
    sub-table of an empty slot is taken from the early allocator; the result
    is [NULL] when the allocator has nothing left. *)
Definition early_pte_alloc_kernel (pmdp va : Z) (s : mm_state) : Z * mm_state :=
  if pmd_val s pmdp =? 0 then
    let '(ptep, s1) := memblock_alloc SZ_4K SZ_4K s in
    if ptep =? 0 then (0, s1)
    else
      let s2 := pmd_populate_kernel pmdp ptep s1 in
      (pte_offset_kernel s2 pmdp va, s2)
  else (pte_offset_kernel s pmdp va, s).

(** Modelled from the spec: the entry primitives.  An entry holds a frame
    number and protection bits, is present when the protection carries the
    present bit, and [set_huge_pte_at] writes the single entry at [ptep]. *)
Definition read_pte (s : mm_state) (ptep : Z) : pte := default pte_zero (ptmem s !! ptep).

Definition pte_present (e : pte) : bool := negb (Z.land (pte_prot e) _PAGE_PRESENT =? 0).

Definition pfn_pte (pfn prot : Z) : pte := MkPte pfn prot false.

Definition pte_mkhuge (e : pte) : pte := MkPte (pte_pfn e) (pte_prot e) true.

Definition mmu_psize_to_shift (psize : mmu_psize) : Z :=
  match psize with
  | MMU_PAGE_4K => 12
  | MMU_PAGE_16K => 14
  | MMU_PAGE_512K => 19
  | MMU_PAGE_8M => 23
  | MMU_PAGE_OTHER _ => 0
  end.

(** [1UL << mmu_psize_to_shift(psize)], the size of an entry in bytes. *)
Definition psize_bytes (psize : mmu_psize) : Z :=
  u32 (Z.shiftl 1 (mmu_psize_to_shift psize)).

Definition set_huge_pte_at (va ptep : Z) (e : pte) (sz : Z) (s : mm_state) : mm_state :=
  set_ptmem (<[ptep := e]> (ptmem s)) s.

Definition is_512K (psize : mmu_psize) : bool :=
  match psize with MMU_PAGE_512K => true | _ => false end.

Definition is_8M (psize : mmu_psize) : bool :=
  match psize with MMU_PAGE_8M => true | _ => false end.

(** ** HugeEntryAllocator *)

Definition early_hugepd_alloc_kernel (pmdp va : Z) (s : mm_state) : Z * mm_state :=
  if hpd_val s pmdp =? 0 then
    let '(ptep, s1) := memblock_alloc sizeof_pte_basic_t SZ_4K s in
    if ptep =? 0 then (0, s1)
    else
      let s2 := hugepd_populate_kernel pmdp ptep PAGE_SHIFT_8M s1 in
      let s3 := hugepd_populate_kernel (pmdp + 1) ptep PAGE_SHIFT_8M s2 in
      (hugepte_offset (hpd_val s3 pmdp) va PGDIR_SHIFT, s3)
  else (hugepte_offset (hpd_val s pmdp) va PGDIR_SHIFT, s).

(** ** PageInstaller *)

(** The body of [__early_map_kernel_hugepage]; [WARN_ON] is its condition
    (the diagnostic it prints is not part of the state). *)
Definition early_map_body (va pa prot : Z) (psize : mmu_psize) (new : bool)
    (s : mm_state) : Z * mm_state :=
  let pmdp := pmd_off_k va in
  if negb (is_512K psize) && negb (is_8M psize) then (- EINVAL, s)
  else if new && slab_available s then (- EINVAL, s)
  else
    let '(ptep, s1) :=
      if new then
        if is_512K psize then early_pte_alloc_kernel pmdp va s
        else early_hugepd_alloc_kernel pmdp va s
      else
        if is_512K psize then (pte_offset_kernel s pmdp va, s)
        else (hugepte_offset (hpd_val s pmdp) va PGDIR_SHIFT, s) in
    if ptep =? 0 then (- ENOMEM, s1)
    else if new && (pte_present (read_pte s1 ptep) && negb (prot =? 0)) then (- EINVAL, s1)
    else
      (0, set_huge_pte_at va ptep
            (pte_mkhuge (pfn_pte (Z.shiftr pa PAGE_SHIFT) prot))
            (psize_bytes psize) s1).

(** The call as the trace sees it: arguments and return code. *)
Definition __early_map_kernel_hugepage (va pa prot : Z) (psize : mmu_psize)
    (new : bool) (s : mm_state) : Z * mm_state :=
  let '(ret, s') := early_map_body va pa prot psize new s in
  (ret, emit (EvMap va pa prot psize new ret) s').

Definition mmu_mapin_immr (s : mm_state) : mm_state :=
  if immr_is_mapped s then s
  else
    let s1 := set_immr_is_mapped true s in
    snd (__early_map_kernel_hugepage VIRT_IMMR_BASE PHYS_IMMR_BASE
           PAGE_KERNEL_NCG MMU_PAGE_512K true s1).

(** ** RangeMapper *)

(** One [for] loop of [mmu_mapin_ram_chunk]: while [p < bound p], [p < top]
    and no error, install one entry of size [step] and advance [p] and [v].
    The recursion is on [fuel]; [None] is a loop that has not finished
    within it. *)
Fixpoint map_loop (fuel : nat) (bound : Z -> Z) (step : Z) (psize : mmu_psize)
    (top prot : Z) (new : bool) (p v err : Z) (s : mm_state)
    : option (Z * Z * Z * mm_state) :=
  if (p <? bound p) && (p <? top) && (err =? 0) then
    match fuel with
    | O => None
    | S fuel' =>
        let '(err', s') := __early_map_kernel_hugepage v p prot psize new s in
        map_loop fuel' bound step psize top prot new
                 (u32 (p + step)) (u32 (v + step)) err' s'
    end
  else Some (p, v, err, s).

(** No loop over 32-bit addresses in steps of 512 KB or more has more than
    [2^32 / 2^19] iterations. *)
Definition loop_fuel : nat := Z.to_nat 8193.

(** Modelled from the spec: the invalidation of the lookaside buffer over a
    virtual range, recorded with the range it is given. *)
Definition flush_tlb_kernel_range (start stop : Z) (s : mm_state) : mm_state :=
  emit (EvFlush start stop) s.

(** The [WARN_ON] on the alignment of [offset] and [top] prints and goes on:
    it changes neither the state nor the control flow and is left out. *)
Definition mmu_mapin_ram_chunk (offset top prot : Z) (new : bool) (s : mm_state)
    : option (Z * mm_state) :=
  let v := u32 (PAGE_OFFSET + offset) in
  let p := offset in
  let err := 0 in
  '(p, v, err, s) ←
    map_loop loop_fuel (fun p => ALIGN p SZ_8M) SZ_512K MMU_PAGE_512K
             top prot new p v err s;
  '(p, v, err, s) ←
    map_loop loop_fuel (fun _ => ALIGN_DOWN top SZ_8M) SZ_8M MMU_PAGE_8M
             top prot new p v err s;
  '(p, v, err, s) ←
    map_loop loop_fuel (fun _ => ALIGN_DOWN top SZ_512K) SZ_512K MMU_PAGE_512K
             top prot new p v err s;
  let s := if new then s
           else flush_tlb_kernel_range (u32 (PAGE_OFFSET + v)) (u32 (PAGE_OFFSET + top)) s in
  Some (err, s).

(** ** BootMapper *)

(** [WARN_ON(top < einittext8)] prints and goes on, and is left out;
    [base] is not used by the C function either. *)

Definition mmu_mapin_ram (base top : Z) (s : mm_state) : option (Z * mm_state) :=
  let etext8 := ALIGN (__pa _etext) SZ_8M in
  let sinittext := __pa _sinittext in
  let strict_boundary := strict_kernel_rwx_enabled || debug_pagealloc_enabled_or_kfence in
  let boundary := if strict_boundary then sinittext else etext8 in
  let einittext8 := ALIGN (__pa _einittext) SZ_8M in
  let s := mmu_mapin_immr s in
  '(_, s) ← mmu_mapin_ram_chunk 0 boundary PAGE_KERNEL_TEXT true s;
  '(top, s) ←
    (if debug_pagealloc_enabled_or_kfence then Some (boundary, s)
     else
       '(_, s) ← mmu_mapin_ram_chunk boundary einittext8 PAGE_KERNEL_TEXT true s;
       '(_, s) ← mmu_mapin_ram_chunk einittext8 top PAGE_KERNEL true s;
       Some (top, s));
  let s := if SZ_32M <? top then memblock_set_current_limit top s else s in
  let s := set_block_mapped_ram top s in
  Some (top, s).

(** ** ProtectionManager *)

(** Modelled from the spec: the pinning primitive, recorded with its
    arguments. *)
Definition mmu_pin_tlb (top : Z) (data : bool) (s : mm_state) : mm_state :=
  emit (EvPin top data) s.

Definition mmu_mark_initmem_nx (s : mm_state) : option (Z * mm_state) :=
  let etext8 := ALIGN (__pa _etext) SZ_8M in
  let sinittext := __pa _sinittext in
  let boundary := if strict_kernel_rwx_enabled then sinittext else etext8 in
  let einittext8 := ALIGN (__pa _einittext) SZ_8M in
  '(err, s) ←
    (if negb debug_pagealloc_enabled_or_kfence
     then mmu_mapin_ram_chunk boundary einittext8 PAGE_KERNEL false s
     else Some (0, s));
  Some (err, mmu_pin_tlb (block_mapped_ram s) false s).

Definition mmu_mark_rodata_ro (s : mm_state) : option (Z * mm_state) :=
  let sinittext := __pa _sinittext in
  '(err, s) ← mmu_mapin_ram_chunk 0 sinittext PAGE_KERNEL_ROX false s;
  let s := if CONFIG_PIN_TLB_DATA then mmu_pin_tlb (block_mapped_ram s) true s else s in
  Some (err, s).

End Mmu8xx.

(** ** A concrete board and boot state

    An MPC8xx with 4 KB pages and the kernel at [0xC0000000]: the values the
    examples are evaluated on. *)
#[export] Instance mpc8xx : Platform := {|
  PAGE_OFFSET := 0xC0000000;
  PAGE_SHIFT := 12;
  PGDIR_SHIFT := 22;
  FIX_IMMR_SIZE := 128;
  PHYS_IMMR_BASE := 0xFF000000;
  VIRT_IMMR_BASE := 0xFFF00000;
  sizeof_pte_basic_t := 4;
  _PAGE_PRESENT := 0x0001;
  PAGE_KERNEL := 0x01F1;
  PAGE_KERNEL_TEXT := 0x01F5;
  PAGE_KERNEL_NCG := 0x01F3;
  PAGE_KERNEL_ROX := 0x0905;
  _etext := 0xC0600000;
  _sinittext := 0xC0800000;
  _einittext := 0xC0880000;
  strict_kernel_rwx_enabled := false;
  debug_pagealloc_enabled_or_kfence := false;
  CONFIG_PIN_TLB_DATA := false
|}.

(** The state at the start of the boot: nothing mapped, the slab allocator
    not up, and an early allocator that hands out the pages below
    [0xC1FF0000] one after the other. *)
Definition early_pages (n : nat) : list Z :=
  map (fun i => 0xC1FF0000 - Z.of_nat i * SZ_4K) (seq 0 n).

Definition boot_state : mm_state :=
  MkState 0 false ∅ ∅ (early_pages 64) [] false [] [].

(** ** Chunks and tilings

    What the range mapper is specified by: the entries it installs, read off
    the trace, and what it means for them to tile a range. *)

Record chunk : Type := MkChunk {
  c_va : Z;
  c_pa : Z;
  c_size : Z
}.

(** The entry an installer call has installed: none when the call failed. *)
Definition installed (e : event) : option chunk :=
  match e with
  | EvMap va pa _ psize _ ret =>
      if ret =? 0 then Some (MkChunk va pa (psize_bytes psize)) else None
  | _ => None
  end.

Definition chunks_of (evs : list event) : list chunk := omap installed evs.

(** [tiles start cs lo hi]: the first chunk starts at [lo], each chunk
    starts where the one before it ends, and the last one ends at [hi]. *)
Fixpoint tiles (start : chunk -> Z) (cs : list chunk) (lo hi : Z) : Prop :=
  match cs with
  | [] => lo = hi
  | c :: rest => start c = lo /\ tiles start rest (lo + c_size c) hi
  end.

Definition covers (start : chunk -> Z) (c : chunk) (x : Z) : Prop :=
  start c <= x < start c + c_size c.

(** An installer call of the range mapper is legal when its size is 512 KB,
    or 8 MB with the physical start and end of the chunk multiples of 8 MB
    (and the virtual ones too, when [PAGE_OFFSET] is a multiple of 8 MB);
    the other events of a call are the flush of the re-protect mode. *)
Definition legal_chunk (page_offset : Z) (e : event) : Prop :=
  match e with
  | EvMap va pa _ psize _ _ =>
      (psize = MMU_PAGE_512K /\ psize_bytes psize = SZ_512K) \/
      (psize = MMU_PAGE_8M /\ psize_bytes psize = SZ_8M /\
       pa mod SZ_8M = 0 /\ (pa + SZ_8M) mod SZ_8M = 0 /\
       (page_offset mod SZ_8M = 0 ->
        va mod SZ_8M = 0 /\ (va + SZ_8M) mod SZ_8M = 0))
  | EvFlush _ _ => True
  | _ => False
  end.

(** The runs of one loop of the range mapper, as a relation: from [p], [v]
    and [err], the installer calls made, and the values at the exit. *)
Inductive loop_run (bound : Z -> Z) (step : Z) (psize : mmu_psize)
    (top prot : Z) (new : bool) : Z -> Z -> Z -> list event -> Z -> Z -> Z -> Prop :=
  | run_exit p v err :
      (p <? bound p) && (p <? top) && (err =? 0) = false ->
      loop_run bound step psize top prot new p v err [] p v err
  | run_iter p v err ret evs p' v' err' :
      (p <? bound p) && (p <? top) && (err =? 0) = true ->
      loop_run bound step psize top prot new
               (u32 (p + step)) (u32 (v + step)) ret evs p' v' err' ->
      loop_run bound step psize top prot new
               p v err (EvMap v p prot psize new ret :: evs) p' v' err'.

(** What a call of the installer leaves alone. *)
Definition same_boot_vars (s s' : mm_state) : Prop :=
  block_mapped_ram s' = block_mapped_ram s /\
  immr_is_mapped s' = immr_is_mapped s /\
  slab_available s' = slab_available s.

(** The flush a call of the range mapper ends with, in re-protect mode. *)
Definition flush_events {P : Platform} (new : bool) (v top : Z) : list event :=
  if new then [] else [EvFlush (u32 (PAGE_OFFSET + v)) (u32 (PAGE_OFFSET + top))].

(** The virtual address [w] follows the physical address [q]. *)
Definition follows {P : Platform} (q w : Z) : Prop :=
  is_ulong q /\ w = u32 (PAGE_OFFSET + q).

(** A chunk of the range mapper inside the physical range from [lo] to
    [hi]: its virtual address is the linear image of the physical one and
    its size one of the two legal sizes. *)
Definition chunk_within {P : Platform} (lo hi : Z) (c : chunk) : Prop :=
  c_va c = u32 (PAGE_OFFSET + c_pa c) /\
  (c_size c = SZ_512K \/ c_size c = SZ_8M) /\
  lo <= c_pa c /\ c_pa c + c_size c <= hi.

(** [n] chunks of [step] bytes, one after the other from [lo], at the
    virtual addresses [f] gives them. *)
Fixpoint run_chunks (f : Z -> Z) (step lo : Z) (n : nat) : list chunk :=
  match n with
  | O => []
  | S n' => MkChunk (f lo) lo step :: run_chunks f step (lo + step) n'
  end.

(** An event of a call of the range mapper that only installs entries of
    size [psize]. *)
Definition only_psize (psize : mmu_psize) (e : event) : Prop :=
  match e with
  | EvMap _ _ _ ps _ _ => ps = psize
  | EvFlush _ _ => True
  | _ => False
  end.

(** An installer call whose chunk lies inside the physical range below
    [top]. *)
Definition call_below (top : Z) (e : event) : Prop :=
  match e with
  | EvMap _ pa _ psize _ _ => 0 <= pa /\ pa + psize_bytes psize <= top
  | _ => True
  end.

(** What a run shows to the outside: the return code and the trace. *)
Definition run_trace (r : option (Z * mm_state)) : option (Z * list event) :=
  '(ret, s) ← r; Some (ret, trace s).

(** The boot state of the concrete board after the range from 8 MB to
    16 MB has been mapped as kernel text. *)
Definition mapped_8M_state : mm_state :=
  match mmu_mapin_ram_chunk 0x800000 0x1000000 PAGE_KERNEL_TEXT true boot_state with
  | Some (_, s) => s
  | None => boot_state
  end.

(** ** Entries of the table, as the installer finds them *)

Definition PAGE_SIZE {P : Platform} : Z := Z.shiftl 1 PAGE_SHIFT.

(** The entry of [va] for the size [psize], by the look-up of the
    re-protect mode; [0] when there is none. *)
Definition entry_at {P : Platform} (s : mm_state) (va : Z) (psize : mmu_psize) : Z :=
  if is_512K psize then pte_offset_kernel s (pmd_off_k va) va
  else hugepte_offset (hpd_val s (pmd_off_k va)) va PGDIR_SHIFT.

Definition present_entry {P : Platform} (s : mm_state) (va : Z) (psize : mmu_psize) : Prop :=
  (psize = MMU_PAGE_512K \/ psize = MMU_PAGE_8M) /\
  entry_at s va psize <> 0 /\
  pte_present (read_pte s (entry_at s va psize)) = true.

(** The boot state of the concrete board after one 512 KB entry has been
    installed at the start of RAM. *)
Definition installed_512K_state : mm_state :=
  (__early_map_kernel_hugepage 0xC0000000 0 PAGE_KERNEL MMU_PAGE_512K true boot_state).2.

(** The boot state of the concrete board once 32 MB of RAM are recorded as
    block-mapped. *)
Definition mapped_32M_state : mm_state := set_block_mapped_ram 0x2000000 boot_state.

(** ** The installer, step by step *)

(** The first half of the installer: the entry of [va] is looked up, and in
    new mode the sub-table is allocated when the slot is empty. *)
Definition locate_entry {P : Platform} (va : Z) (psize : mmu_psize) (new : bool)
    (s : mm_state) : Z * mm_state :=
  let pmdp := pmd_off_k va in
  if new then
    if is_512K psize then early_pte_alloc_kernel pmdp va s
    else early_hugepd_alloc_kernel pmdp va s
  else
    if is_512K psize then (pte_offset_kernel s pmdp va, s)
    else (hugepte_offset (hpd_val s pmdp) va PGDIR_SHIFT, s).

(** The return codes of the installer calls of a trace, in order. *)
Definition rets (evs : list event) : list Z :=
  omap (fun e => match e with EvMap _ _ _ _ _ ret => Some ret | _ => None end) evs.

(** The installer calls of a trace, without their return codes. *)
Definition calls (evs : list event) : list (Z * Z * mmu_psize) :=
  omap (fun e => match e with
                 | EvMap va pa _ psize _ _ => Some (va, pa, psize)
                 | _ => None
                 end) evs.

(** What the directory and the allocator look like from one state to a
    later one when nothing has been allocated in between. *)
Definition same_tables (s s' : mm_state) : Prop :=
  pgdir s' = pgdir s /\ memblock s' = memblock s /\ memblock_reqs s' = memblock_reqs s.

(** Slots that are populated stay populated. *)
Definition slots_kept (s s' : mm_state) : Prop :=
  forall slot, pmd_val s slot <> 0 -> pmd_val s' slot <> 0.

(** The early allocator has been asked at most once per event of the
    trace between two states. *)
Definition requests_bounded (s s' : mm_state) : Prop :=
  (length (memblock_reqs s') + length (trace s) <=
   length (memblock_reqs s) + length (trace s'))%nat.

(** The return codes a call of the range mapper that returns [err] has
    seen after its zeros: none when it succeeds, [err] itself otherwise. *)
Definition tail_code (err : Z) : list Z := if err =? 0 then [] else [err].

(** ** The plan of the range mapper

    Where the three loops stop, and the chunks they install, as functions
    of [offset] and [top] alone. *)

(** The end of the head of 512 KB chunks: the next multiple of 8 MB, or
    [top] when it comes first; [offset] itself when the ceiling does not
    lie above it (it is a multiple of 8 MB, or the ceiling has wrapped). *)
Definition head_end (offset top : Z) : Z :=
  if offset <? ALIGN offset SZ_8M then Z.min (ALIGN offset SZ_8M) top else offset.

(** The end of the run of 8 MB chunks. *)
Definition mid_end (offset top : Z) : Z :=
  Z.max (head_end offset top) (ALIGN_DOWN top SZ_8M).

Definition chunk_plan {P : Platform} (offset top : Z) : list chunk :=
  let f := fun pa => u32 (PAGE_OFFSET + pa) in
  let p1 := head_end offset top in
  let p2 := mid_end offset top in
  run_chunks f SZ_512K offset (Z.to_nat ((p1 - offset) / SZ_512K)) ++
  run_chunks f SZ_8M p1 (Z.to_nat ((p2 - p1) / SZ_8M)) ++
  run_chunks f SZ_512K p2 (Z.to_nat ((top - p2) / SZ_512K)).

(** A chunk of [step] bytes inside the physical range from [lo] to [hi],
    at the virtual address that follows its physical address. *)
Definition run_chunk {P : Platform} (step lo hi : Z) (c : chunk) : Prop :=
  c_va c = u32 (PAGE_OFFSET + c_pa c) /\ c_size c = step /\
  lo <= c_pa c /\ c_pa c + step <= hi.

(** The 8 MB block of [pa] is not inside the range from [offset] to [top]:
    no 8 MB chunk could have been used at [pa]. *)
Definition no_room_for_8M (offset top pa : Z) : Prop :=
  ALIGN_DOWN pa SZ_8M < offset \/ top < ALIGN_DOWN pa SZ_8M + SZ_8M.

(** ** The segments of the initial mapping *)

(** The boundary [mmu_mapin_ram] computes between the text mapped first and
    the init text, and the 8 MB ceiling of the end of the init text. *)
Definition ram_boundary {P : Platform} : Z :=
  if strict_kernel_rwx_enabled || debug_pagealloc_enabled_or_kfence
  then __pa _sinittext else ALIGN (__pa _etext) SZ_8M.

Definition einittext8 {P : Platform} : Z := ALIGN (__pa _einittext) SZ_8M.

(** The boundary [mmu_mark_initmem_nx] starts from. *)
Definition nx_boundary {P : Platform} : Z :=
  if strict_kernel_rwx_enabled then __pa _sinittext else ALIGN (__pa _etext) SZ_8M.

(** ** Pointers

    Addresses of sub-tables are not negative: those the directory holds,
    and those the early allocator will answer; an entry has a size that is
    not negative either. *)
Definition ptrs_ok {P : Platform} (s : mm_state) : Prop :=
  0 <= sizeof_pte_basic_t /\
  (forall slot, 0 <= pmd_val s slot) /\
  Forall (fun a => 0 <= a) (memblock s).

(** The slot of the address of an installer call is populated in [s]. *)
Definition call_slot_populated {P : Platform} (s : mm_state) (e : event) : Prop :=
  match e with
  | EvMap va _ _ _ _ _ => pmd_val s (pmd_off_k va) <> 0
  | _ => True
  end.

(** ** The board after the boot *)

(** The boot state of the concrete board after [mmu_mapin_ram] has mapped
    its 32 MB of RAM. *)
Definition booted_state : mm_state :=
  match mmu_mapin_ram 0 0x2000000 boot_state with
  | Some (_, s) => s
  | None => boot_state
  end.

(** The same board with strict kernel protection switched on, and its
    state after the same boot. *)
Definition mpc8xx_strict : Platform := {|
  PAGE_OFFSET := 0xC0000000;
  PAGE_SHIFT := 12;
  PGDIR_SHIFT := 22;
  FIX_IMMR_SIZE := 128;
  PHYS_IMMR_BASE := 0xFF000000;
  VIRT_IMMR_BASE := 0xFFF00000;
  sizeof_pte_basic_t := 4;
  _PAGE_PRESENT := 0x0001;
  PAGE_KERNEL := 0x01F1;
  PAGE_KERNEL_TEXT := 0x01F5;
  PAGE_KERNEL_NCG := 0x01F3;
  PAGE_KERNEL_ROX := 0x0905;
  _etext := 0xC0600000;
  _sinittext := 0xC0800000;
  _einittext := 0xC0880000;
  strict_kernel_rwx_enabled := true;
  debug_pagealloc_enabled_or_kfence := false;
  CONFIG_PIN_TLB_DATA := false
|}.

Definition booted_strict_state : mm_state :=
  match @mmu_mapin_ram mpc8xx_strict 0 0x2000000 boot_state with
  | Some (_, s) => s
  | None => boot_state
  end.

(** ** What the events have seen *)

(** From [s] to [s'] the log has grown by events that have all seen the
    [block_mapped_ram] of [s], which [s'] still has: the variable has not
    been written in between. *)
Definition seen_unchanged (s s' : mm_state) : Prop :=
  block_mapped_ram s' = block_mapped_ram s /\
  exists evs,
    trace s' = trace s ++ evs /\
    ram_seen s' = ram_seen s ++ repeat (block_mapped_ram s) (length evs).

(** ** Proof automation *)

Definition two32 : 2 ^ 32 = 4294967296 := eq_refl.
Definition two64 : 2 ^ 64 = 18446744073709551616 := eq_refl.

Ltac word_consts :=
  unfold is_ulong, u32, u64, SZ_4K, SZ_512K, SZ_8M, SZ_32M in *;
  rewrite ?two32, ?two64 in *.

Ltac word_lia := word_consts; Z.div_mod_to_equations; lia.

Ltac split_tests :=
  repeat match goal with
  | |- context [?a <=? ?b] => destruct (Z.leb_spec a b)
  | |- context [?a <? ?b] => destruct (Z.ltb_spec a b)
  | H : context [?a <=? ?b] |- _ => destruct (Z.leb_spec a b)
  | H : context [?a <? ?b] |- _ => destruct (Z.ltb_spec a b)
  end; simpl in *.

Ltac by_compute :=
  vm_compute; repeat split; try reflexivity; try (intro; discriminate).

(** * Properties *)

Section Properties.

Context {P : Platform}.

(** ** Words and alignment *)

Lemma u32_range z : is_ulong (u32 z).
Proof. word_lia. Qed.

Lemma u32_small z : is_ulong z -> u32 z = z.
Proof. word_lia. Qed.

Lemma IMMR_SIZE_range : is_ulong IMMR_SIZE.
Proof. apply u32_range. Qed.

(** Clearing the low [k] bits is rounding down to a multiple of [2^k]. *)
Lemma land_lnot_ones x k : 0 <= k -> Z.land x (Z.lnot (Z.ones k)) = 2 ^ k * (x / 2 ^ k).
Proof.
  intros Hk. rewrite <- Z.ldiff_land, Z.ldiff_ones_r by assumption.
  rewrite Z.shiftl_mul_pow2, Z.shiftr_div_pow2 by assumption. ring.
Qed.

Lemma ALIGN_DOWN_8M x : ALIGN_DOWN x SZ_8M = 8388608 * (x / 8388608).
Proof. apply (land_lnot_ones x 23). lia. Qed.

Lemma ALIGN_DOWN_512K x : ALIGN_DOWN x SZ_512K = 524288 * (x / 524288).
Proof. apply (land_lnot_ones x 19). lia. Qed.

Lemma ALIGN_8M x : ALIGN x SZ_8M = 8388608 * (((x + 8388607) mod 4294967296) / 8388608).
Proof. apply (land_lnot_ones (u32 (x + (SZ_8M - 1))) 23). lia. Qed.

Lemma IS_ALIGNED_512K x : IS_ALIGNED x SZ_512K = true <-> x mod 524288 = 0.
Proof.
  unfold IS_ALIGNED. change (SZ_512K - 1) with (Z.ones 19).
  rewrite Z.land_ones by lia. change (2 ^ 19) with 524288. apply Z.eqb_eq.
Qed.

(** ** Address translation *)

(** C4. On a layout whose windows do not wrap and do not overlap, the two
    translations are inverses of each other on the mapped windows: a
    physical address of the register window or of the mapped RAM goes to a
    virtual address that comes back to it, and a virtual address of either
    mapped window likewise; in both directions the register window is
    tested first, so an address inside it is translated by its offset in
    that window whatever the RAM window is. *)
Theorem block_mapped_round_trip (s : mm_state) :
  layout_ok s ->
  (forall pa, is_ulong pa -> in_phys_immr pa || in_phys_ram s pa = true ->
     v_block_mapped s (p_block_mapped s pa) = pa) /\
  (forall va, is_ulong va -> in_virt_immr va || in_virt_ram s va = true ->
     p_block_mapped s (v_block_mapped s va) = va) /\
  (forall s' va, in_virt_immr va = true ->
     v_block_mapped s' va = u32 (u32 (PHYS_IMMR_BASE + va) - VIRT_IMMR_BASE)) /\
  (forall s' pa, in_phys_immr pa = true ->
     p_block_mapped s' pa = u32 (u32 (VIRT_IMMR_BASE + pa) - PHYS_IMMR_BASE)).
Proof.
  intros [Hpo Hpi Hvi Htop Hve Hpe Hre Hvd Hpd].
  pose proof IMMR_SIZE_range as Hsz.
  repeat split.
  - intros pa Hpa Hin. revert Hin.
    unfold in_phys_immr, in_phys_ram, v_block_mapped, p_block_mapped, __pa, __va.
    generalize dependent IMMR_SIZE. intros sz. intros.
    word_consts. split_tests; try discriminate; Z.div_mod_to_equations; lia.
  - intros va Hva Hin. revert Hin.
    unfold in_virt_immr, in_virt_ram, v_block_mapped, p_block_mapped, __pa, __va.
    generalize dependent IMMR_SIZE. intros sz. intros.
    word_consts. split_tests; try discriminate; Z.div_mod_to_equations; lia.
  - intros s' va Hin. unfold v_block_mapped. unfold in_virt_immr in Hin.
    now rewrite Hin.
  - intros s' pa Hin. unfold p_block_mapped. unfold in_phys_immr in Hin.
    now rewrite Hin.
Qed.

(** C10. Both translations answer 0 for an address outside the two windows,
    and the first virtual address of the mapped RAM, [PAGE_OFFSET], which is
    inside the RAM window as soon as some RAM is mapped, is translated to 0
    as well: the answer for a mapped address and the answer for an unmapped
    one are the same value. *)
Theorem block_mapped_zero_is_ambiguous (s : mm_state) :
  layout_ok s ->
  0 < block_mapped_ram s ->
  in_virt_ram s PAGE_OFFSET = true /\
  v_block_mapped s PAGE_OFFSET = 0 /\
  (forall va, in_virt_immr va = false -> in_virt_ram s va = false ->
     v_block_mapped s va = 0) /\
  (forall pa, in_phys_immr pa = false -> in_phys_ram s pa = false ->
     p_block_mapped s pa = 0).
Proof.
  intros [Hpo Hpi Hvi Htop Hve Hpe Hre Hvd Hpd] Hpos.
  pose proof IMMR_SIZE_range as Hsz.
  repeat split.
  - unfold in_virt_ram. word_consts. split_tests; try reflexivity; Z.div_mod_to_equations; lia.
  - unfold v_block_mapped, __pa.
    generalize dependent IMMR_SIZE. intros sz. intros.
    word_consts. split_tests; try reflexivity; Z.div_mod_to_equations; lia.
  - intros va H1 H2. unfold v_block_mapped.
    unfold in_virt_immr in H1. unfold in_virt_ram in H2. now rewrite H1, H2.
  - intros pa H1 H2. unfold p_block_mapped.
    unfold in_phys_immr in H1. unfold in_phys_ram in H2. now rewrite H1, H2.
Qed.

(** ** The memory limit *)

(** C9. A first region that does not start at physical address 0 takes the
    fatal branch; one that starts at 0 sets the limit of the early allocator
    to the smaller of its size and 32 MB, so 64 MB gives 32 MB and 16 MB
    gives 16 MB. *)
Theorem setup_initial_memory_limit_clamps (s : mm_state) :
  (forall base size, base <> 0 -> setup_initial_memory_limit base size s = Bug) /\
  (forall size, is_ulong size ->
     setup_initial_memory_limit 0 size s =
       Done (memblock_set_current_limit (Z.min size SZ_32M) s)) /\
  setup_initial_memory_limit 0 0x4000000 s =
    Done (memblock_set_current_limit 0x2000000 s) /\
  setup_initial_memory_limit 0 0x1000000 s =
    Done (memblock_set_current_limit 0x1000000 s).
Proof.
  repeat split.
  - intros base size Hb. unfold setup_initial_memory_limit.
    destruct (Z.eqb_spec base 0); [contradiction | reflexivity].
  - intros size Hsz. unfold setup_initial_memory_limit. simpl.
    f_equal. f_equal. word_lia.
Qed.

(** ** The installer, seen from its callers *)

Lemma same_boot_vars_refl s : same_boot_vars s s.
Proof. repeat split. Qed.

Lemma same_boot_vars_trans s1 s2 s3 :
  same_boot_vars s1 s2 -> same_boot_vars s2 s3 -> same_boot_vars s1 s3.
Proof. unfold same_boot_vars. intuition congruence. Qed.

Lemma early_map_body_frame va pa prot psize new s :
  trace (early_map_body va pa prot psize new s).2 = trace s /\
  same_boot_vars s (early_map_body va pa prot psize new s).2.
Proof.
  unfold early_map_body, early_pte_alloc_kernel, early_hugepd_alloc_kernel,
    memblock_alloc, same_boot_vars.
  repeat (match goal with
          | |- context [if ?b then _ else _] => destruct b
          | |- context [match ?l with [] => _ | _ => _ end] => destruct l
          end; simpl); auto.
Qed.

Lemma early_map_call va pa prot psize new s ret s' :
  __early_map_kernel_hugepage va pa prot psize new s = (ret, s') ->
  trace s' = trace s ++ [EvMap va pa prot psize new ret] /\ same_boot_vars s s'.
Proof.
  unfold __early_map_kernel_hugepage.
  pose proof (early_map_body_frame va pa prot psize new s) as [Ht Hf].
  destruct (early_map_body va pa prot psize new s) as [r s1]. simpl in *.
  intros [= <- <-]. unfold same_boot_vars in *. simpl. rewrite Ht. auto.
Qed.

(** ** The loops of the range mapper *)

Lemma map_loop_run fuel bound step psize top prot new :
  forall p v err s p' v' err' s',
  map_loop fuel bound step psize top prot new p v err s = Some (p', v', err', s') ->
  exists evs,
    trace s' = trace s ++ evs /\
    loop_run bound step psize top prot new p v err evs p' v' err' /\
    same_boot_vars s s'.
Proof.
  induction fuel as [|fuel IH]; intros p v err s p' v' err' s'; simpl;
    destruct ((p <? bound p) && (p <? top) && (err =? 0)) eqn:Hg;
    try discriminate.
  - intros [= <- <- <- <-]. exists []. rewrite app_nil_r.
    split; [reflexivity|]. split; [now constructor | apply same_boot_vars_refl].
  - destruct (__early_map_kernel_hugepage v p prot psize new s) as [ret s1] eqn:Hc.
    intros Hl. apply early_map_call in Hc as [Ht Hf].
    apply IH in Hl as (evs & Ht' & Hr & Hf').
    exists (EvMap v p prot psize new ret :: evs).
    split; [rewrite Ht', Ht, <- app_assoc; reflexivity|].
    split; [now constructor | eapply same_boot_vars_trans; eassumption].
  - intros [= <- <- <- <-]. exists []. rewrite app_nil_r.
    split; [reflexivity|]. split; [now constructor | apply same_boot_vars_refl].
Qed.

(** A loop whose test keeps [p + step] inside the word and whose step is at
    least 512 KB finishes within the fuel. *)
Lemma map_loop_total fuel bound step psize top prot new :
  524288 <= step ->
  (forall q, is_ulong q -> q < bound q -> q + step < 2 ^ 32) ->
  forall p v err s,
  is_ulong p ->
  (2 ^ 32 - p) / 524288 < Z.of_nat fuel ->
  exists r, map_loop fuel bound step psize top prot new p v err s = Some r.
Proof.
  intros Hstep Hb. induction fuel as [|fuel IH]; intros p v err s Hp Hf; simpl;
    destruct ((p <? bound p) && (p <? top) && (err =? 0)) eqn:Hg; eauto.
  - exfalso. word_lia.
  - destruct (__early_map_kernel_hugepage v p prot psize new s) as [ret s1].
    apply andb_prop in Hg as [Hg _]. apply andb_prop in Hg as [Hg _].
    apply Z.ltb_lt in Hg. specialize (Hb p Hp Hg).
    apply IH.
    + word_lia.
    + assert (u32 (p + step) = p + step) as -> by (apply u32_small; word_lia).
      word_lia.
Qed.


Lemma loop_run_inv (I : Z -> Z -> Prop) (Q : event -> Prop)
    bound step psize top prot new :
  (forall q w ret, I q w -> q < bound q -> q < top ->
     I (u32 (q + step)) (u32 (w + step)) /\ Q (EvMap w q prot psize new ret)) ->
  forall p v err evs p' v' err',
  loop_run bound step psize top prot new p v err evs p' v' err' ->
  I p v -> I p' v' /\ Forall Q evs.
Proof.
  intros Hstep p v err evs p' v' err' Hrun.
  induction Hrun as [p v err Hg | p v err ret evs p' v' err' Hg Hrun IH]; intros HI.
  - split; [assumption | constructor].
  - apply andb_prop in Hg as [Hg _]. apply andb_prop in Hg as [Hg1 Hg2].
    apply Z.ltb_lt in Hg1, Hg2.
    destruct (Hstep p v ret HI Hg1 Hg2) as [HI' HQ].
    destruct (IH HI') as [HI'' HQs]. split; [assumption | now constructor].
Qed.

Lemma loop_run_exit bound step psize top prot new p v err evs p' v' err' :
  loop_run bound step psize top prot new p v err evs p' v' err' ->
  (p' <? bound p') && (p' <? top) && (err' =? 0) = false.
Proof. induction 1; assumption. Qed.

Lemma loop_run_stuck bound step psize top prot new p v err evs p' v' err' :
  loop_run bound step psize top prot new p v err evs p' v' err' ->
  (p <? bound p) && (p <? top) && (err =? 0) = false ->
  evs = [] /\ p' = p /\ v' = v /\ err' = err.
Proof. intros Hrun Hg. inversion Hrun; subst; [auto | congruence]. Qed.

Lemma chunks_of_cons e evs :
  chunks_of (e :: evs) =
  match installed e with Some c => c :: chunks_of evs | None => chunks_of evs end.
Proof. reflexivity. Qed.

(** A loop that ends without an error was entered without one, and all its
    installer calls returned 0. *)
Lemma loop_run_ok bound step psize top prot new p v err evs p' v' err' :
  loop_run bound step psize top prot new p v err evs p' v' err' ->
  err' = 0 ->
  err = 0 /\ chunks_of evs =
             map (fun e => match e with
                           | EvMap va pa _ ps _ _ => MkChunk va pa (psize_bytes ps)
                           | _ => MkChunk 0 0 0
                           end) evs.
Proof.
  induction 1 as [p v err Hg | p v err ret evs p' v' err' Hg Hrun IH]; intros He.
  - split; [assumption | reflexivity].
  - destruct (IH He) as [Hret Hcs]. subst ret.
    apply andb_prop in Hg as [_ Hg]. apply Z.eqb_eq in Hg.
    split; [assumption|]. rewrite chunks_of_cons. simpl. now rewrite Hcs.
Qed.

Lemma tiles_app start cs1 cs2 lo mid hi :
  tiles start cs1 lo mid -> tiles start cs2 mid hi -> tiles start (cs1 ++ cs2) lo hi.
Proof.
  revert lo. induction cs1 as [|c cs1 IH]; simpl; intros lo.
  - intros ->. auto.
  - intros [Hc Ht] H2. split; [assumption | now apply IH].
Qed.

Lemma chunks_of_app evs1 evs2 : chunks_of (evs1 ++ evs2) = chunks_of evs1 ++ chunks_of evs2.
Proof. apply omap_app. Qed.

(** The chunks of a loop that ends without an error: one of [step] bytes at
    each position from [p] to the exit value of [p], the virtual address
    following the physical one. *)
Lemma loop_run_tiles bound step psize top prot new :
  psize_bytes psize = step ->
  0 < step ->
  (forall q, is_ulong q -> q < bound q -> q + step < 2 ^ 32) ->
  forall p v err evs p' v' err',
  loop_run bound step psize top prot new p v err evs p' v' err' ->
  is_ulong p -> v = u32 (PAGE_OFFSET + p) -> err' = 0 ->
  tiles c_pa (chunks_of evs) p p' /\
  is_ulong p' /\ p <= p' /\ v' = u32 (PAGE_OFFSET + p') /\
  Forall (fun c => c_va c = u32 (PAGE_OFFSET + c_pa c) /\ c_size c = step /\
                   p <= c_pa c /\ c_pa c + step <= p') (chunks_of evs).
Proof.
  intros Hsz Hpos Hb p v err evs p' v' err' Hrun.
  induction Hrun as [p v err Hg | p v err ret evs p' v' err' Hg Hrun IH];
    intros Hp Hv He.
  - simpl. repeat split; try assumption; try lia; try apply Hp. constructor.
  - destruct (loop_run_ok _ _ _ _ _ _ _ _ _ _ _ _ _ Hrun He) as [Hret _]. subst ret.
    apply andb_prop in Hg as [Hg _]. apply andb_prop in Hg as [Hg1 Hg2].
    apply Z.ltb_lt in Hg1, Hg2. pose proof (Hb p Hp Hg1) as Hnw.
    assert (u32 (p + step) = p + step) as Hps by (apply u32_small; word_lia).
    rewrite Hps in IH.
    destruct IH as (Ht & Hp' & Hle & Hv' & Hall); try assumption.
    + word_lia.
    + subst v. word_lia.
    + rewrite chunks_of_cons. simpl. rewrite Hsz.
      repeat split; try assumption; try lia; try apply Hp'.
      constructor; simpl.
      * repeat split; try assumption; lia.
      * eapply Forall_impl; [exact Hall|]. simpl. intros c (? & ? & ? & ?).
        repeat split; try assumption; lia.
Qed.

(** The tests of the three loops keep the next address inside the word. *)
Lemma bound_ALIGN_8M q : is_ulong q -> q < ALIGN q SZ_8M -> q + SZ_512K < 2 ^ 32.
Proof. rewrite ALIGN_8M. word_lia. Qed.

Lemma bound_ALIGN_DOWN_8M top q :
  is_ulong top -> is_ulong q -> q < ALIGN_DOWN top SZ_8M -> q + SZ_8M < 2 ^ 32.
Proof. rewrite ALIGN_DOWN_8M. word_lia. Qed.

Lemma bound_ALIGN_DOWN_512K top q :
  is_ulong top -> is_ulong q -> q < ALIGN_DOWN top SZ_512K -> q + SZ_512K < 2 ^ 32.
Proof. rewrite ALIGN_DOWN_512K. word_lia. Qed.

Lemma loop_run_word bound step psize top prot new :
  (forall q, is_ulong q -> q < bound q -> q + step < 2 ^ 32) ->
  0 < step ->
  forall p v err evs p' v' err',
  loop_run bound step psize top prot new p v err evs p' v' err' ->
  is_ulong p -> is_ulong p'.
Proof.
  intros Hb Hpos p v err evs p' v' err' Hrun Hp.
  apply (loop_run_inv (fun q _ => is_ulong q) (fun _ => True)) in Hrun;
    [tauto | | assumption].
  intros q w ret Hq Hg _. split; [apply u32_range | exact Logic.I].
Qed.


(** ** The range mapper *)

Lemma loop_fuel_enough p : is_ulong p -> (2 ^ 32 - p) / 524288 < Z.of_nat loop_fuel.
Proof. intros Hp. unfold loop_fuel. rewrite Z2Nat.id by lia. word_lia. Qed.

Local Opaque loop_fuel.

(** A call of the range mapper is three loop runs, one after the other, and
    in re-protect mode one flush. *)
Lemma mmu_mapin_ram_chunk_runs offset top prot new s err s' :
  mmu_mapin_ram_chunk offset top prot new s = Some (err, s') ->
  exists e1 e2 e3 p1 v1 err1 p2 v2 err2 p3 v3,
    loop_run (fun p => ALIGN p SZ_8M) SZ_512K MMU_PAGE_512K top prot new
             offset (u32 (PAGE_OFFSET + offset)) 0 e1 p1 v1 err1 /\
    loop_run (fun _ => ALIGN_DOWN top SZ_8M) SZ_8M MMU_PAGE_8M top prot new
             p1 v1 err1 e2 p2 v2 err2 /\
    loop_run (fun _ => ALIGN_DOWN top SZ_512K) SZ_512K MMU_PAGE_512K top prot new
             p2 v2 err2 e3 p3 v3 err /\
    trace s' = trace s ++ (e1 ++ e2 ++ e3) ++ flush_events new v3 top /\
    same_boot_vars s s'.
Proof.
  unfold mmu_mapin_ram_chunk. intros H.
  destruct (map_loop loop_fuel (fun p => ALIGN p SZ_8M) SZ_512K MMU_PAGE_512K top prot new
              offset (u32 (PAGE_OFFSET + offset)) 0 s)
    as [[[[p1 v1] err1] s1]|] eqn:H1; [|discriminate]. simpl in H.
  destruct (map_loop loop_fuel (fun _ => ALIGN_DOWN top SZ_8M) SZ_8M MMU_PAGE_8M top prot new
              p1 v1 err1 s1)
    as [[[[p2 v2] err2] s2]|] eqn:H2; [|discriminate]. simpl in H.
  destruct (map_loop loop_fuel (fun _ => ALIGN_DOWN top SZ_512K) SZ_512K MMU_PAGE_512K top prot new
              p2 v2 err2 s2)
    as [[[[p3 v3] err3] s3]|] eqn:H3; [|discriminate]. simpl in H.
  injection H as <- <-.
  apply map_loop_run in H1 as (e1 & Ht1 & Hr1 & Hf1).
  apply map_loop_run in H2 as (e2 & Ht2 & Hr2 & Hf2).
  apply map_loop_run in H3 as (e3 & Ht3 & Hr3 & Hf3).
  exists e1, e2, e3, p1, v1, err1, p2, v2, err2, p3, v3.
  repeat split; try assumption.
  - unfold flush_events, flush_tlb_kernel_range. destruct new; simpl;
      rewrite Ht3, Ht2, Ht1, <- ?app_assoc; try rewrite app_nil_r; reflexivity.
  - destruct new; simpl; unfold same_boot_vars in *; simpl; intuition congruence.
  - destruct new; simpl; unfold same_boot_vars in *; simpl; intuition congruence.
  - destruct new; simpl; unfold same_boot_vars in *; simpl; intuition congruence.
Qed.

(** The range mapper returns on all words: no loop outlasts the fuel. *)
Lemma mmu_mapin_ram_chunk_total offset top prot new s :
  is_ulong offset -> is_ulong top ->
  exists err s', mmu_mapin_ram_chunk offset top prot new s = Some (err, s').
Proof.
  intros Ho Ht. unfold mmu_mapin_ram_chunk.
  destruct (map_loop_total loop_fuel (fun p => ALIGN p SZ_8M) SZ_512K MMU_PAGE_512K
              top prot new) with (p := offset) (v := u32 (PAGE_OFFSET + offset))
              (err := 0) (s := s) as [[[[p1 v1] err1] s1] H1];
    [unfold SZ_512K; lia | intros; now apply bound_ALIGN_8M | assumption
    | now apply loop_fuel_enough |].
  rewrite H1. simpl.
  apply map_loop_run in H1 as (e1 & _ & Hr1 & _).
  apply loop_run_word in Hr1 as Hp1;
    [| intros; now apply bound_ALIGN_8M | unfold SZ_512K; lia | assumption].
  destruct (map_loop_total loop_fuel (fun _ => ALIGN_DOWN top SZ_8M) SZ_8M MMU_PAGE_8M
              top prot new) with (p := p1) (v := v1) (err := err1) (s := s1)
    as [[[[p2 v2] err2] s2] H2];
    [unfold SZ_8M; lia | intros; now apply (bound_ALIGN_DOWN_8M top) | assumption
    | now apply loop_fuel_enough |].
  rewrite H2. simpl.
  apply map_loop_run in H2 as (e2 & _ & Hr2 & _).
  apply loop_run_word in Hr2 as Hp2;
    [| intros; now apply (bound_ALIGN_DOWN_8M top) | unfold SZ_8M; lia | assumption].
  destruct (map_loop_total loop_fuel (fun _ => ALIGN_DOWN top SZ_512K) SZ_512K MMU_PAGE_512K
              top prot new) with (p := p2) (v := v2) (err := err2) (s := s2)
    as [[[[p3 v3] err3] s3] H3];
    [unfold SZ_512K; lia | intros; now apply (bound_ALIGN_DOWN_512K top) | assumption
    | now apply loop_fuel_enough |].
  rewrite H3. simpl. eauto.
Qed.


Lemma psize_bytes_512K : psize_bytes MMU_PAGE_512K = SZ_512K.
Proof. reflexivity. Qed.

Lemma psize_bytes_8M : psize_bytes MMU_PAGE_8M = SZ_8M.
Proof. reflexivity. Qed.

(** When the first loop stops before [top] without an error, [p] is a
    multiple of 8 MB wherever the second loop can run. *)
Lemma first_loop_exit_aligned p top :
  is_ulong p -> is_ulong top ->
  (p <? ALIGN p SZ_8M) && (p <? top) = false ->
  p < ALIGN_DOWN top SZ_8M ->
  p mod 8388608 = 0.
Proof.
  rewrite ALIGN_8M, ALIGN_DOWN_8M. intros Hp Ht Hg Hlt.
  split_tests; try discriminate; word_lia.
Qed.

Lemma follows_step q w step :
  follows q w -> follows (u32 (q + step)) (u32 (w + step)).
Proof.
  intros [Hq ->]. split; [apply u32_range | word_lia].
Qed.

(** The calls of the 8 MB loop are at multiples of 8 MB. *)
Lemma second_loop_legal top prot new p v err evs p' v' err' :
  is_ulong top ->
  loop_run (fun _ => ALIGN_DOWN top SZ_8M) SZ_8M MMU_PAGE_8M top prot new
           p v err evs p' v' err' ->
  follows p v ->
  (p < ALIGN_DOWN top SZ_8M -> p mod 8388608 = 0) ->
  (follows p' v' /\ (p' < ALIGN_DOWN top SZ_8M -> p' mod 8388608 = 0) /\
   p' mod 524288 = p mod 524288 /\ (p <= top -> p' <= top)) /\
  Forall (legal_chunk PAGE_OFFSET) evs.
Proof.
  intros Ht Hrun Hf Ha.
  apply (loop_run_inv
           (fun q w => follows q w /\ (q < ALIGN_DOWN top SZ_8M -> q mod 8388608 = 0) /\
                       q mod 524288 = p mod 524288 /\ (p <= top -> q <= top))
           (legal_chunk PAGE_OFFSET)) in Hrun; [assumption | | auto].
  intros q w ret (Hfq & Haq & Hm & Hle) Hg _. specialize (Haq Hg).
  pose proof (bound_ALIGN_DOWN_8M top q Ht (proj1 Hfq) Hg) as Hnw.
  assert (u32 (q + SZ_8M) = q + SZ_8M) as Hq' by (apply u32_small; destruct Hfq; word_lia).
  split; [split; [now apply follows_step | rewrite Hq'] |].
  - rewrite ALIGN_DOWN_8M in *. destruct Hfq. repeat split; intros; word_lia.
  - right. destruct Hfq as [Hq ->]. unfold legal_chunk.
    repeat split; try reflexivity; word_lia.
Qed.

(** C5. Every installer call of the range mapper, whatever the arguments
    and the mode, and whether the call succeeds or not, has size 512 KB or
    8 MB, and an 8 MB call starts and ends at a multiple of 8 MB. *)
Theorem mmu_mapin_ram_chunk_sizes offset top prot new s :
  is_ulong offset -> is_ulong top ->
  exists err s' evs,
    mmu_mapin_ram_chunk offset top prot new s = Some (err, s') /\
    trace s' = trace s ++ evs /\
    Forall (legal_chunk PAGE_OFFSET) evs.
Proof.
  intros Ho Ht.
  destruct (mmu_mapin_ram_chunk_total offset top prot new s Ho Ht) as (err & s' & Hc).
  exists err, s'.
  destruct (mmu_mapin_ram_chunk_runs _ _ _ _ _ _ _ Hc)
    as (e1 & e2 & e3 & p1 & v1 & err1 & p2 & v2 & err2 & p3 & v3 & H1 & H2 & H3 & Htr & _).
  exists ((e1 ++ e2 ++ e3) ++ flush_events new v3 top).
  split; [assumption|]. split; [assumption|].
  assert (follows p1 v1 /\ Forall (legal_chunk PAGE_OFFSET) e1) as [Hf1 HQ1].
  { apply (loop_run_inv follows (legal_chunk PAGE_OFFSET)) in H1; [assumption | | ].
    - intros q w ret Hf _ _. split; [now apply follows_step|].
      left. split; reflexivity.
    - split; [assumption | reflexivity]. }
  assert (Forall (legal_chunk PAGE_OFFSET) e2) as HQ2.
  { destruct (Z.eqb_spec err1 0) as [He|He].
    - subst err1. apply loop_run_exit in H1 as Hx. rewrite andb_true_r in Hx.
      eapply second_loop_legal; try eassumption.
      intros Hlt. apply (first_loop_exit_aligned p1 top); try assumption. apply Hf1.
    - apply loop_run_stuck in H2 as (-> & _); [constructor|].
      apply Z.eqb_neq in He. rewrite He. apply andb_false_r. }
  assert (Forall (legal_chunk PAGE_OFFSET) e3) as HQ3.
  { apply (loop_run_inv (fun _ _ => True) (legal_chunk PAGE_OFFSET)) in H3;
      [tauto | | exact Logic.I].
    intros q w ret _ _ _. split; [exact Logic.I|]. left. split; reflexivity. }
  repeat (apply Forall_app; split); try assumption.
  unfold flush_events. destruct new; repeat constructor.
Qed.


(** ** Tilings *)

Lemma tiles_cover start cs : forall lo hi,
  Forall (fun c => 0 < c_size c) cs ->
  tiles start cs lo hi ->
  lo <= hi /\
  forall x, lo <= x < hi <-> exists c, c ∈ cs /\ covers start c x.
Proof.
  induction cs as [|c cs IH]; simpl; intros lo hi Hpos Ht.
  - subst hi. split; [lia|]. intros x. split; [lia|].
    intros (c & Hc & _). inversion Hc.
  - destruct Ht as [Hs Ht]. inversion Hpos as [|? ? Hc Hrest]; subst.
    destruct (IH _ _ Hrest Ht) as [Hle Hcov]. split; [lia|].
    intros x. split.
    + intros Hx. destruct (Z_lt_le_dec x (start c + c_size c)) as [Hlt|Hge].
      * exists c. split; [left | unfold covers; lia].
      * destruct (proj1 (Hcov x)) as (c' & Hin & Hc'); [lia|].
        exists c'. split; [now right | assumption].
    + intros (c' & Hin & Hc'). apply elem_of_cons in Hin as [-> | Hin].
      * unfold covers in Hc'. lia.
      * assert (start c + c_size c <= x < hi) by (apply Hcov; eauto). lia.
Qed.

Lemma tiles_disjoint start cs : forall lo hi,
  Forall (fun c => 0 < c_size c) cs ->
  tiles start cs lo hi ->
  forall (i j : nat) ci cj x,
    cs !! i = Some ci -> cs !! j = Some cj ->
    covers start ci x -> covers start cj x -> i = j.
Proof.
  induction cs as [|c cs IH]; simpl; intros lo hi Hpos Ht i j ci cj x Hi Hj Hci Hcj.
  - destruct i; discriminate.
  - destruct Ht as [Hs Ht]. inversion Hpos as [|? ? Hc Hrest]; subst.
    destruct (tiles_cover start cs _ _ Hrest Ht) as [Hle Hcov].
    destruct i as [|i], j as [|j]; simpl in *.
    + reflexivity.
    + injection Hi as <-. exfalso.
      assert (start c + c_size c <= x < hi)
        by (apply Hcov; exists cj; split; [eapply list_elem_of_lookup_2; eassumption | assumption]).
      unfold covers in Hci. lia.
    + injection Hj as <-. exfalso.
      assert (start c + c_size c <= x < hi)
        by (apply Hcov; exists ci; split; [eapply list_elem_of_lookup_2; eassumption | assumption]).
      unfold covers in Hcj. lia.
    + f_equal. eapply IH; eassumption.
Qed.

Lemma tiles_shift k cs : forall lo hi,
  Forall (fun c => c_va c = k + c_pa c) cs ->
  tiles c_pa cs lo hi -> tiles c_va cs (k + lo) (k + hi).
Proof.
  induction cs as [|c cs IH]; simpl; intros lo hi Hall Ht.
  - lia.
  - destruct Ht as [Hs Ht]. inversion Hall as [|? ? Hc Hrest]; subst.
    split; [lia|]. replace (k + c_pa c + c_size c) with (k + (c_pa c + c_size c)) by lia.
    now apply IH.
Qed.

Lemma chunk_within_weaken lo hi lo' hi' cs :
  lo' <= lo -> hi <= hi' ->
  Forall (chunk_within lo hi) cs -> Forall (chunk_within lo' hi') cs.
Proof.
  intros Hlo Hhi Hall. eapply Forall_impl; [exact Hall|].
  unfold chunk_within. intros c (? & ? & ? & ?).
  repeat split; try assumption; lia.
Qed.

(** One loop of the range mapper, run without an error on aligned
    addresses: its chunks tile the range it has advanced over. *)
Lemma loop_run_chunks bound step psize top prot new p v err evs p' v' err' :
  psize_bytes psize = step ->
  step = SZ_512K \/ step = SZ_8M ->
  (forall q, is_ulong q -> q < bound q -> q + step < 2 ^ 32) ->
  loop_run bound step psize top prot new p v err evs p' v' err' ->
  follows p v -> err' = 0 ->
  err = 0 /\ follows p' v' /\ p <= p' /\
  tiles c_pa (chunks_of evs) p p' /\
  Forall (chunk_within p p') (chunks_of evs).
Proof.
  intros Hsz Hstep Hb Hrun [Hp Hv] He.
  destruct (loop_run_ok _ _ _ _ _ _ _ _ _ _ _ _ _ Hrun He) as [He0 _].
  assert (0 < step) as Hpos by (destruct Hstep as [-> | ->]; word_lia).
  destruct (loop_run_tiles bound step psize top prot new Hsz Hpos Hb
              _ _ _ _ _ _ _ Hrun Hp Hv He) as (Ht & Hp' & Hle & Hv' & Hall).
  - repeat split; try assumption; try apply Hp'.
    eapply Forall_impl; [exact Hall|]. simpl. intros c (Hva & Hs & Hlo & Hhi).
    unfold chunk_within. rewrite Hs. repeat split; try assumption.
Qed.


Lemma small_loop_inv bound psize top prot new p v err evs p' v' err' :
  (forall q, is_ulong q -> q < bound q -> q + SZ_512K < 2 ^ 32) ->
  top mod 524288 = 0 ->
  loop_run bound SZ_512K psize top prot new p v err evs p' v' err' ->
  is_ulong p -> p mod 524288 = 0 -> p <= top ->
  p' mod 524288 = 0 /\ p' <= top.
Proof.
  intros Hb Htop Hrun Hp Hal Hle.
  apply (loop_run_inv (fun q _ => is_ulong q /\ q mod 524288 = 0 /\ q <= top)
                      (fun _ => True)) in Hrun; [tauto | | auto].
  intros q w ret (Hq & Hqa & Hqt) Hg Hlt. pose proof (Hb q Hq Hg).
  assert (u32 (q + SZ_512K) = q + SZ_512K) as -> by (apply u32_small; word_lia).
  repeat split; try exact Logic.I; word_lia.
Qed.

Lemma chunks_of_flush new v top : chunks_of (flush_events new v top) = [].
Proof. unfold flush_events. now destruct new. Qed.


(** ** The unaligned head *)

Lemma tiles_uniform f step cs : forall lo hi,
  tiles c_pa cs lo hi ->
  Forall (fun c => c_va c = f (c_pa c) /\ c_size c = step) cs ->
  cs = run_chunks f step lo (length cs) /\ hi = lo + Z.of_nat (length cs) * step.
Proof.
  induction cs as [|c cs IH]; intros lo hi Ht Hall.
  - simpl in *. split; [reflexivity | lia].
  - destruct Ht as [Hs Ht]. apply Forall_cons in Hall as [[Hva Hsz] Hrest].
    rewrite Hsz in Ht. destruct (IH _ _ Ht Hrest) as [Hcs Hhi].
    split.
    + simpl. rewrite <- Hcs. f_equal. destruct c as [va pa sz]. simpl in *.
      now subst.
    + rewrite Hhi. simpl length. lia.
Qed.

Lemma loop_run_only_psize bound step psize top prot new p v err evs p' v' err' :
  loop_run bound step psize top prot new p v err evs p' v' err' ->
  Forall (only_psize psize) evs.
Proof.
  intros Hrun.
  apply (loop_run_inv (fun _ _ => True) (only_psize psize)) in Hrun;
    [tauto | | exact Logic.I].
  intros q w ret _ _ _. split; [exact Logic.I | reflexivity].
Qed.


(** ** The flush of the re-protect mode *)

Lemma loop_run_follows bound step psize top prot new p v err evs p' v' err' :
  loop_run bound step psize top prot new p v err evs p' v' err' ->
  follows p v -> follows p' v'.
Proof.
  intros Hrun Hf.
  apply (loop_run_inv follows (fun _ => True)) in Hrun; [tauto | | assumption].
  intros q w ret Hq _ _. split; [now apply follows_step | exact Logic.I].
Qed.

(** In re-protect mode the call ends with one flush, and the start it hands
    to it is [PAGE_OFFSET] added to the virtual address the loops have
    reached: [PAGE_OFFSET] is counted twice. *)
Lemma reprotect_flush_start offset top prot s err s' :
  is_ulong offset ->
  mmu_mapin_ram_chunk offset top prot false s = Some (err, s') ->
  exists calls p,
    trace s' = trace s ++ calls ++
               [EvFlush (u32 (2 * PAGE_OFFSET + p)) (u32 (PAGE_OFFSET + top))] /\
    Forall (fun e => only_psize MMU_PAGE_512K e \/ only_psize MMU_PAGE_8M e) calls.
Proof.
  intros Ho Hc.
  destruct (mmu_mapin_ram_chunk_runs _ _ _ _ _ _ _ Hc)
    as (e1 & e2 & e3 & p1 & v1 & err1 & p2 & v2 & err2 & p3 & v3 & H1 & H2 & H3 & Htr & _).
  assert (follows p3 v3) as [_ Hv3].
  { eapply loop_run_follows; [exact H3|]. eapply loop_run_follows; [exact H2|].
    eapply loop_run_follows; [exact H1|]. split; [assumption | reflexivity]. }
  exists (e1 ++ e2 ++ e3), p3. split.
  - rewrite Htr. unfold flush_events.
    assert (u32 (PAGE_OFFSET + v3) = u32 (2 * PAGE_OFFSET + p3)) as ->
      by (subst v3; word_lia).
    reflexivity.
  - repeat (apply Forall_app; split).
    + eapply Forall_impl; [eapply loop_run_only_psize; exact H1 | auto].
    + eapply Forall_impl; [eapply loop_run_only_psize; exact H2 | auto].
    + eapply Forall_impl; [eapply loop_run_only_psize; exact H3 | auto].
Qed.


(** The events of a call are its installer calls, of the two sizes, and the
    flush. *)
Lemma reprotect_or_new_calls offset top prot new s err s' :
  mmu_mapin_ram_chunk offset top prot new s = Some (err, s') ->
  exists evs,
    trace s' = trace s ++ evs /\
    Forall (fun e => only_psize MMU_PAGE_512K e \/ only_psize MMU_PAGE_8M e) evs.
Proof.
  intros Hc.
  destruct (mmu_mapin_ram_chunk_runs _ _ _ _ _ _ _ Hc)
    as (e1 & e2 & e3 & p1 & v1 & err1 & p2 & v2 & err2 & p3 & v3 & H1 & H2 & H3 & Htr & _).
  exists ((e1 ++ e2 ++ e3) ++ flush_events new v3 top). split; [assumption|].
  repeat (apply Forall_app; split).
  - eapply Forall_impl; [eapply loop_run_only_psize; exact H1 | auto].
  - eapply Forall_impl; [eapply loop_run_only_psize; exact H2 | auto].
  - eapply Forall_impl; [eapply loop_run_only_psize; exact H3 | auto].
  - unfold flush_events. destruct new; repeat constructor.
Qed.


(** ** The initial mapping of RAM *)

Lemma ALIGN_range x : is_ulong (ALIGN x SZ_8M).
Proof. rewrite ALIGN_8M. word_lia. Qed.

Lemma __pa_range x : is_ulong (__pa x).
Proof. apply u32_range. Qed.

Lemma chunk_call_frame offset top prot new s err s' :
  mmu_mapin_ram_chunk offset top prot new s = Some (err, s') ->
  exists evs, trace s' = trace s ++ evs /\ same_boot_vars s s'.
Proof.
  intros Hc.
  destruct (mmu_mapin_ram_chunk_runs _ _ _ _ _ _ _ Hc)
    as (e1 & e2 & e3 & p1 & v1 & err1 & p2 & v2 & err2 & p3 & v3 & _ & _ & _ & Htr & Hf).
  eauto.
Qed.

Lemma mmu_mapin_immr_frame s :
  exists evs,
    trace (mmu_mapin_immr s) = trace s ++ evs /\
    block_mapped_ram (mmu_mapin_immr s) = block_mapped_ram s /\
    (immr_is_mapped s = true -> evs = []) /\
    (immr_is_mapped s = false ->
     exists ret, evs = [EvMap VIRT_IMMR_BASE PHYS_IMMR_BASE PAGE_KERNEL_NCG
                              MMU_PAGE_512K true ret]).
Proof.
  unfold mmu_mapin_immr. destruct (immr_is_mapped s) eqn:Hm.
  - exists []. rewrite app_nil_r.
    split; [reflexivity|]. split; [reflexivity|]. split; [reflexivity | discriminate].
  - destruct (__early_map_kernel_hugepage VIRT_IMMR_BASE PHYS_IMMR_BASE PAGE_KERNEL_NCG
                MMU_PAGE_512K true (set_immr_is_mapped true s)) as [ret s1] eqn:Hc.
    apply early_map_call in Hc as [Ht (Hb & _)]. simpl in *.
    exists [EvMap VIRT_IMMR_BASE PHYS_IMMR_BASE PAGE_KERNEL_NCG MMU_PAGE_512K true ret].
    split; [assumption|]. split; [assumption|]. split; [discriminate | eauto].
Qed.

(** From offset 0 the range mapper installs nothing that reaches beyond
    [top]. *)
Lemma chunk_from_zero_below top prot new s err s' :
  is_ulong top ->
  mmu_mapin_ram_chunk 0 top prot new s = Some (err, s') ->
  exists evs,
    trace s' = trace s ++ evs /\ Forall (call_below top) evs /\ same_boot_vars s s'.
Proof.
  intros Ht Hc.
  destruct (mmu_mapin_ram_chunk_runs _ _ _ _ _ _ _ Hc)
    as (e1 & e2 & e3 & p1 & v1 & err1 & p2 & v2 & err2 & p3 & v3 & H1 & H2 & H3 & Htr & Hf).
  exists ((e1 ++ e2 ++ e3) ++ flush_events new v3 top).
  split; [assumption|]. split; [|assumption].
  destruct (loop_run_stuck _ _ _ _ _ _ _ _ _ _ _ _ _ H1 eq_refl) as (-> & -> & -> & ->).
  apply (loop_run_inv (fun q _ => is_ulong q /\ q mod 8388608 = 0) (call_below top)) in H2
    as [[Hp2 Ha2] HQ2].
  - apply (loop_run_inv (fun q _ => is_ulong q /\ q mod 524288 = 0) (call_below top)) in H3
      as [_ HQ3].
    + repeat (apply Forall_app; split); try assumption; try constructor.
      unfold flush_events. destruct new; repeat constructor.
    + intros q w ret [Hq Ha] Hg _. split; [split; [apply u32_range|] |].
      * pose proof (bound_ALIGN_DOWN_512K top q Ht Hq Hg). word_lia.
      * unfold call_below. rewrite psize_bytes_512K. rewrite ALIGN_DOWN_512K in Hg. word_lia.
    + split; [assumption | word_lia].
  - intros q w ret [Hq Ha] Hg _. split; [split; [apply u32_range|] |].
    + pose proof (bound_ALIGN_DOWN_8M top q Ht Hq Hg). word_lia.
    + unfold call_below. rewrite psize_bytes_8M. rewrite ALIGN_DOWN_8M in Hg. word_lia.
  - split; [word_consts; lia | reflexivity].
Qed.


(** ** The allocator of the 8 MB sub-table *)

(** C7. With the first slot empty, [early_hugepd_alloc_kernel] makes
    exactly one request to the early allocator, for [sizeof(pte_basic_t)]
    bytes aligned on 4 KB; when the allocator answers [NULL] it returns
    [NULL] and leaves the directory as it was; otherwise it registers the
    block in the slot and in the next slot and returns the entry of [va] in
    it.  With the first slot not empty it requests nothing, changes nothing
    and returns the entry of [va] in the sub-table the slot registers.  The
    entries themselves are never touched. *)
Theorem early_hugepd_alloc_kernel_shares_one_block pmdp va s :
  let r := early_hugepd_alloc_kernel pmdp va s in
  let a := hd 0 (memblock s) in
  (hpd_val s pmdp = 0 ->
   memblock_reqs r.2 = memblock_reqs s ++ [(sizeof_pte_basic_t, SZ_4K)] /\
   memblock r.2 = tl (memblock s) /\
   ptmem r.2 = ptmem s /\
   (a = 0 -> r.1 = 0 /\ pgdir r.2 = pgdir s) /\
   (a <> 0 ->
    pgdir r.2 = <[pmdp + 1 := a]> (<[pmdp := a]> (pgdir s)) /\
    hpd_val r.2 pmdp = a /\ hpd_val r.2 (pmdp + 1) = a /\
    r.1 = hugepte_offset a va PGDIR_SHIFT)) /\
  (hpd_val s pmdp <> 0 ->
   r = (hugepte_offset (hpd_val s pmdp) va PGDIR_SHIFT, s)).
Proof.
  unfold early_hugepd_alloc_kernel. split.
  - intros Hz. rewrite Hz. simpl. unfold memblock_alloc.
    destruct (memblock s) as [|a rest] eqn:Hm; simpl.
    + repeat split; try reflexivity; intros; congruence.
    + destruct (Z.eqb_spec a 0) as [-> | Hne]; simpl.
      * repeat split; try reflexivity; intros; congruence.
      * assert (hpd_val
                  (hugepd_populate_kernel (pmdp + 1) a PAGE_SHIFT_8M
                     (hugepd_populate_kernel pmdp a PAGE_SHIFT_8M
                        (set_memblock rest
                           (memblock_reqs s ++ [(sizeof_pte_basic_t, SZ_4K)]) s)))
                  pmdp = a) as Hfirst.
        { unfold hpd_val, pmd_val. simpl.
          rewrite lookup_insert_ne by lia. now rewrite lookup_insert_eq. }
        repeat split; try reflexivity; try congruence.
        unfold hpd_val, pmd_val. simpl. now rewrite lookup_insert_eq.
  - intros Hnz. apply Z.eqb_neq in Hnz. now rewrite Hnz.
Qed.

(** ** The installer and entries already present *)

Lemma early_pte_alloc_result pmdp va s :
  let r := early_pte_alloc_kernel pmdp va s in
  (r.1 = 0 \/ r.1 = pte_offset_kernel r.2 pmdp va) /\
  (pmd_val s pmdp <> 0 -> r = (pte_offset_kernel s pmdp va, s)).
Proof.
  unfold early_pte_alloc_kernel. destruct (Z.eqb_spec (pmd_val s pmdp) 0) as [Hz|Hnz].
  - split; [|congruence].
    destruct (memblock_alloc SZ_4K SZ_4K s) as [ptep s1].
    destruct (ptep =? 0); simpl; auto.
  - simpl. auto.
Qed.

Lemma early_hugepd_alloc_result pmdp va s :
  let r := early_hugepd_alloc_kernel pmdp va s in
  (r.1 = 0 \/ r.1 = hugepte_offset (hpd_val r.2 pmdp) va PGDIR_SHIFT) /\
  (hpd_val s pmdp <> 0 -> r = (hugepte_offset (hpd_val s pmdp) va PGDIR_SHIFT, s)).
Proof.
  unfold early_hugepd_alloc_kernel. destruct (Z.eqb_spec (hpd_val s pmdp) 0) as [Hz|Hnz].
  - split; [|congruence].
    destruct (memblock_alloc sizeof_pte_basic_t SZ_4K s) as [ptep s1].
    destruct (ptep =? 0); simpl; auto.
  - simpl. auto.
Qed.

Lemma entry_slot_populated s va psize :
  entry_at s va psize <> 0 -> pmd_val s (pmd_off_k va) <> 0.
Proof.
  unfold entry_at, pte_offset_kernel, hugepte_offset, hpd_val.
  intros He Hz. rewrite Hz in He. simpl in He. destruct (is_512K psize); congruence.
Qed.

(** The look-up of the new mode on a populated slot is the look-up of the
    re-protect mode, and allocates nothing. *)
Lemma new_lookup_present s va psize :
  entry_at s va psize <> 0 ->
  (if is_512K psize then early_pte_alloc_kernel (pmd_off_k va) va s
   else early_hugepd_alloc_kernel (pmd_off_k va) va s) = (entry_at s va psize, s).
Proof.
  intros He. pose proof (entry_slot_populated _ _ _ He) as Hs.
  unfold entry_at. destruct (is_512K psize).
  - now apply early_pte_alloc_result.
  - now apply early_hugepd_alloc_result.
Qed.

Lemma valid_psize_test psize :
  psize = MMU_PAGE_512K \/ psize = MMU_PAGE_8M ->
  negb (is_512K psize) && negb (is_8M psize) = false.
Proof. intros [-> | ->]; reflexivity. Qed.


Lemma new_install_present va pa prot psize s0 s :
  __early_map_kernel_hugepage va pa prot psize true s0 = (0, s) ->
  Z.land prot _PAGE_PRESENT <> 0 ->
  present_entry s va psize /\
  read_pte s (entry_at s va psize) = MkPte (Z.shiftr pa PAGE_SHIFT) prot true.
Proof.
  unfold __early_map_kernel_hugepage. intros Hcall Hprot.
  destruct (early_map_body va pa prot psize true s0) as [ret s1] eqn:Hbody.
  injection Hcall as -> <-. unfold early_map_body, EINVAL, ENOMEM in Hbody.
  destruct (negb (is_512K psize) && negb (is_8M psize)) eqn:Hps; [discriminate|].
  assert (psize = MMU_PAGE_512K \/ psize = MMU_PAGE_8M) as Hvalid
    by (destruct psize; simpl in Hps; try discriminate; auto).
  simpl in Hbody. destruct (slab_available s0); [discriminate|].
  assert (exists ptep s2,
             (if is_512K psize then early_pte_alloc_kernel (pmd_off_k va) va s0
              else early_hugepd_alloc_kernel (pmd_off_k va) va s0) = (ptep, s2) /\
             (ptep = 0 \/ ptep = entry_at s2 va psize)) as (ptep & s2 & Hlook & Hptep).
  { unfold entry_at. destruct (is_512K psize).
    - pose proof (early_pte_alloc_result (pmd_off_k va) va s0) as [Hr _].
      destruct (early_pte_alloc_kernel (pmd_off_k va) va s0) as [ptep s2]. eauto.
    - pose proof (early_hugepd_alloc_result (pmd_off_k va) va s0) as [Hr _].
      destruct (early_hugepd_alloc_kernel (pmd_off_k va) va s0) as [ptep s2]. eauto. }
  rewrite Hlook in Hbody.
  destruct (Z.eqb_spec ptep 0) as [|Hnz]; [discriminate|].
  destruct Hptep as [|Hptep]; [contradiction|].
  destruct (pte_present (read_pte s2 ptep) && negb (prot =? 0)); [discriminate|].
  injection Hbody as <-.
  assert (entry_at (emit (EvMap va pa prot psize true 0)
                      (set_huge_pte_at va ptep
                         (pte_mkhuge (pfn_pte (Z.shiftr pa PAGE_SHIFT) prot))
                         (psize_bytes psize) s2)) va psize
          = ptep) as Hsame by (rewrite Hptep; reflexivity).
  unfold present_entry. rewrite Hsame.
  assert (read_pte (emit (EvMap va pa prot psize true 0)
                      (set_huge_pte_at va ptep
                         (pte_mkhuge (pfn_pte (Z.shiftr pa PAGE_SHIFT) prot))
                         (psize_bytes psize) s2)) ptep
          = MkPte (Z.shiftr pa PAGE_SHIFT) prot true) as Hread.
  { unfold read_pte. simpl. now rewrite lookup_insert_eq. }
  rewrite Hread. repeat split; try assumption.
  unfold pte_present. simpl. now apply negb_true_iff, Z.eqb_neq.
Qed.

(** C3. Where the entry of [(va, psize)] is present, the installer in new
    mode, asked for a protection that is not null, returns [-EINVAL] and
    leaves the table as it was, and the installer in re-protect mode
    returns 0 and writes the new frame and protection into that entry; and
    a new-mode install that has succeeded with a protection carrying the
    present bit leaves such a present entry, so that a second new-mode
    install at the same place fails and a re-protection succeeds. *)
Theorem new_install_respects_present_entries va psize :
  (forall s, present_entry s va psize ->
     (forall pa prot, prot <> 0 ->
        __early_map_kernel_hugepage va pa prot psize true s =
          (- EINVAL, emit (EvMap va pa prot psize true (- EINVAL)) s)) /\
     (forall pa prot,
        __early_map_kernel_hugepage va pa prot psize false s =
          (0, emit (EvMap va pa prot psize false 0)
                (set_ptmem (<[entry_at s va psize :=
                                MkPte (Z.shiftr pa PAGE_SHIFT) prot true]> (ptmem s)) s)))) /\
  (forall s0 pa0 prot0 s,
     __early_map_kernel_hugepage va pa0 prot0 psize true s0 = (0, s) ->
     Z.land prot0 _PAGE_PRESENT <> 0 ->
     present_entry s va psize /\
     read_pte s (entry_at s va psize) = MkPte (Z.shiftr pa0 PAGE_SHIFT) prot0 true).
Proof.
  split; [|intros s0 pa0 prot0 s; apply new_install_present].
  intros s (Hvalid & Hentry & Hpresent). split.
  - intros pa prot Hprot.
    unfold __early_map_kernel_hugepage, early_map_body.
    rewrite (valid_psize_test _ Hvalid). simpl.
    destruct (slab_available s); [reflexivity|].
    rewrite (new_lookup_present _ _ _ Hentry).
    apply Z.eqb_neq in Hentry, Hprot. rewrite Hentry, Hpresent, Hprot. reflexivity.
  - intros pa prot.
    unfold __early_map_kernel_hugepage, early_map_body.
    rewrite (valid_psize_test _ Hvalid). simpl.
    fold (entry_at s va psize).
    replace (if is_512K psize
             then (pte_offset_kernel s (pmd_off_k va) va, s)
             else (hugepte_offset (hpd_val s (pmd_off_k va)) va PGDIR_SHIFT, s))
      with (entry_at s va psize, s) by (unfold entry_at; now destruct (is_512K psize)).
    apply Z.eqb_neq in Hentry. rewrite Hentry. reflexivity.
Qed.

(** ** More on the installer *)

Lemma early_map_body_steps va pa prot psize new s :
  early_map_body va pa prot psize new s =
  if negb (is_512K psize) && negb (is_8M psize) then (- EINVAL, s)
  else if new && slab_available s then (- EINVAL, s)
  else
    let r := locate_entry va psize new s in
    if r.1 =? 0 then (- ENOMEM, r.2)
    else if new && (pte_present (read_pte r.2 r.1) && negb (prot =? 0)) then (- EINVAL, r.2)
    else (0, set_huge_pte_at va r.1
               (pte_mkhuge (pfn_pte (Z.shiftr pa PAGE_SHIFT) prot))
               (psize_bytes psize) r.2).
Proof.
  unfold early_map_body, locate_entry.
  destruct (negb (is_512K psize) && negb (is_8M psize)); [reflexivity|].
  destruct (new && slab_available s); [reflexivity|].
  destruct new, (is_512K psize); simpl;
    try destruct (early_pte_alloc_kernel (pmd_off_k va) va s);
    try destruct (early_hugepd_alloc_kernel (pmd_off_k va) va s); reflexivity.
Qed.

Lemma pmd_val_insert d slot a slot' s :
  pmd_val (set_pgdir (<[slot := a]> d) s) slot' = if decide (slot = slot') then a else default 0 (d !! slot').
Proof.
  unfold pmd_val. simpl. rewrite lookup_insert. now destruct (decide (slot = slot')).
Qed.

Lemma memblock_alloc_frame size align s :
  let r := memblock_alloc size align s in
  pgdir r.2 = pgdir s /\ ptmem r.2 = ptmem s /\ trace r.2 = trace s /\
  memblock_reqs r.2 = memblock_reqs s ++ [(size, align)] /\
  r.1 = hd 0 (memblock s) /\ memblock r.2 = tl (memblock s).
Proof. unfold memblock_alloc. destruct (memblock s); simpl; auto 10. Qed.

(** What the look-up gives: the entry of [va] in the state it leaves, or
    [NULL]; it writes no entry, clears no slot, and allocates, once, only
    in new mode on an empty slot. *)
Lemma locate_entry_spec va psize new s :
  let r := locate_entry va psize new s in
  (r.1 = 0 \/ r.1 = entry_at r.2 va psize) /\
  ptmem r.2 = ptmem s /\
  slots_kept s r.2 /\
  (same_tables s r.2 \/
   (new = true /\ pmd_val s (pmd_off_k va) = 0 /\
    exists size, memblock_reqs r.2 = memblock_reqs s ++ [(size, SZ_4K)])) /\
  (new = false -> r.2 = s).
Proof.
  unfold locate_entry, entry_at, same_tables, slots_kept.
  destruct new; [|destruct (is_512K psize); simpl; auto 10].
  destruct (is_512K psize).
  - pose proof (early_pte_alloc_result (pmd_off_k va) va s) as [Hr Hpop].
    unfold early_pte_alloc_kernel in *.
    destruct (Z.eqb_spec (pmd_val s (pmd_off_k va)) 0) as [Hz|Hnz]; [|simpl; auto 10].
    pose proof (memblock_alloc_frame SZ_4K SZ_4K s) as (Hd & Hm & _ & Hq & Ha & _).
    destruct (memblock_alloc SZ_4K SZ_4K s) as [ptep s1]. simpl in *.
    destruct (Z.eqb_spec ptep 0) as [->|Hne]; simpl in *.
    + repeat split; auto; [| right; eauto | discriminate].
      intros slot Hs. unfold pmd_val in *. now rewrite Hd.
    + repeat split; auto.
      * intros slot Hs. unfold pmd_populate_kernel. rewrite pmd_val_insert.
        destruct (decide (pmd_off_k va = slot)); [assumption|].
        unfold pmd_val in Hs. now rewrite <- Hd in Hs.
      * right. eauto.
      * discriminate.
  - pose proof (early_hugepd_alloc_result (pmd_off_k va) va s) as [Hr Hpop].
    unfold early_hugepd_alloc_kernel, hpd_val in *.
    destruct (Z.eqb_spec (pmd_val s (pmd_off_k va)) 0) as [Hz|Hnz]; [|simpl; auto 10].
    pose proof (memblock_alloc_frame sizeof_pte_basic_t SZ_4K s) as (Hd & Hm & _ & Hq & Ha & _).
    destruct (memblock_alloc sizeof_pte_basic_t SZ_4K s) as [ptep s1]. simpl in *.
    destruct (Z.eqb_spec ptep 0) as [->|Hne]; simpl in *.
    + repeat split; auto; [| right; eauto | discriminate].
      intros slot Hs. unfold pmd_val in *. now rewrite Hd.
    + repeat split; auto.
      * intros slot Hs. unfold hugepd_populate_kernel. rewrite pmd_val_insert.
        destruct (decide (pmd_off_k va + 1 = slot)); [assumption|].
        simpl. rewrite lookup_insert.
        destruct (decide (pmd_off_k va = slot)); [assumption|].
        unfold pmd_val in Hs. now rewrite <- Hd in Hs.
      * right. eauto.
      * discriminate.
Qed.

Lemma negb_valid_psize psize :
  negb (is_512K psize) && negb (is_8M psize) = false <->
  (psize = MMU_PAGE_512K \/ psize = MMU_PAGE_8M).
Proof.
  split; [|apply valid_psize_test].
  destruct psize; simpl; intros; try discriminate; auto.
Qed.

(** A call of the installer returns 0, [-EINVAL] or [-ENOMEM].  When
    it returns 0 the entry of [(va, psize)] exists in the state it leaves
    and the table of entries is the old one with that one entry set to the
    frame of [pa], the protection asked for and the huge bit; when it
    fails the table of entries is the old one. *)
Lemma install_call_entries va pa prot psize new s :
  let r := __early_map_kernel_hugepage va pa prot psize new s in
  (r.1 = 0 /\ entry_at r.2 va psize <> 0 /\
   ptmem r.2 = <[entry_at r.2 va psize := MkPte (Z.shiftr pa PAGE_SHIFT) prot true]> (ptmem s)) \/
  ((r.1 = - EINVAL \/ r.1 = - ENOMEM) /\ ptmem r.2 = ptmem s).
Proof.
  unfold __early_map_kernel_hugepage. rewrite early_map_body_steps.
  destruct (negb (is_512K psize) && negb (is_8M psize)); [simpl; auto|].
  destruct (new && slab_available s); [simpl; auto|].
  pose proof (locate_entry_spec va psize new s) as (Hptep & Hm & _).
  destruct (locate_entry va psize new s) as [ptep s1]. simpl in *.
  destruct (Z.eqb_spec ptep 0) as [|Hnz]; [simpl; auto|].
  destruct (new && (pte_present (read_pte s1 ptep) && negb (prot =? 0))); [simpl; auto|].
  left. simpl. destruct Hptep as [|Hptep]; [contradiction|].
  change (entry_at (emit (EvMap va pa prot psize new 0)
                      (set_huge_pte_at va ptep
                         (pte_mkhuge (pfn_pte (Z.shiftr pa PAGE_SHIFT) prot))
                         (psize_bytes psize) s1)) va psize)
    with (entry_at s1 va psize).
  rewrite <- Hptep, Hm. auto.
Qed.

Lemma reprotect_call_spec va pa prot psize s :
  let r := __early_map_kernel_hugepage va pa prot psize false s in
  same_tables s r.2 /\
  (r.1 = 0 <-> (psize = MMU_PAGE_512K \/ psize = MMU_PAGE_8M) /\ entry_at s va psize <> 0) /\
  ((psize = MMU_PAGE_512K \/ psize = MMU_PAGE_8M) -> entry_at s va psize = 0 ->
   r.1 = - ENOMEM) /\
  (~ (psize = MMU_PAGE_512K \/ psize = MMU_PAGE_8M) -> r.1 = - EINVAL).
Proof.
  unfold __early_map_kernel_hugepage. rewrite early_map_body_steps.
  destruct (negb (is_512K psize) && negb (is_8M psize)) eqn:Hv.
  - assert (~ (psize = MMU_PAGE_512K \/ psize = MMU_PAGE_8M)) as Hnv
      by (intros H; apply negb_valid_psize in H; congruence).
    simpl. unfold same_tables, EINVAL. repeat split; auto; try tauto; intros; try discriminate.
  - apply negb_valid_psize in Hv.
    assert (locate_entry va psize false s = (entry_at s va psize, s)) as ->
      by (unfold locate_entry, entry_at; now destruct (is_512K psize)).
    simpl. destruct (Z.eqb_spec (entry_at s va psize) 0) as [Hz|Hnz]; simpl;
      unfold same_tables, ENOMEM; repeat split; auto; try tauto; intros; try discriminate;
      try contradiction.
Qed.

Lemma install_call_tables va pa prot psize new s :
  let r := __early_map_kernel_hugepage va pa prot psize new s in
  slots_kept s r.2 /\
  (same_tables s r.2 \/
   (new = true /\ slab_available s = false /\ pmd_val s (pmd_off_k va) = 0 /\
    exists size, memblock_reqs r.2 = memblock_reqs s ++ [(size, SZ_4K)])).
Proof.
  unfold __early_map_kernel_hugepage. rewrite early_map_body_steps.
  assert (slots_kept s s /\ same_tables s s) as [Hk0 Ht0]
    by (unfold slots_kept, same_tables; auto).
  destruct (negb (is_512K psize) && negb (is_8M psize)); [simpl; auto|].
  destruct (new && slab_available s) eqn:Hslab; [simpl; auto|].
  pose proof (locate_entry_spec va psize new s) as (_ & _ & Hk & Ht & _).
  destruct (locate_entry va psize new s) as [ptep s1]. simpl in *.
  assert (same_tables s s1 \/
          (new = true /\ slab_available s = false /\ pmd_val s (pmd_off_k va) = 0 /\
           exists size, memblock_reqs s1 = memblock_reqs s ++ [(size, SZ_4K)])) as Ht'.
  { destruct Ht as [|(-> & Hz & Hq)]; [now left | right].
    simpl in Hslab. auto. }
  destruct (ptep =? 0); [simpl; auto|].
  destruct (new && (pte_present (read_pte s1 ptep) && negb (prot =? 0))); simpl; auto.
Qed.

Lemma hugepd_alloc_pair pmdp va s :
  hpd_val s pmdp = 0 ->
  let r := early_hugepd_alloc_kernel pmdp va s in
  hpd_val r.2 pmdp <> 0 -> hpd_val r.2 (pmdp + 1) = hpd_val r.2 pmdp.
Proof.
  intros Hz. unfold early_hugepd_alloc_kernel.
  apply Z.eqb_eq in Hz as Hz'. rewrite Hz'.
  pose proof (memblock_alloc_frame sizeof_pte_basic_t SZ_4K s) as (Hd & _).
  destruct (memblock_alloc sizeof_pte_basic_t SZ_4K s) as [ptep s1]. simpl in *.
  destruct (Z.eqb_spec ptep 0) as [->|Hne]; simpl.
  - unfold hpd_val, pmd_val in *. rewrite Hd. intros; contradiction.
  - intros _. unfold hpd_val, hugepd_populate_kernel. rewrite !pmd_val_insert.
    destruct (decide (pmdp + 1 = pmdp + 1)); [|contradiction].
    destruct (decide (pmdp + 1 = pmdp)); [lia|]. simpl. now rewrite lookup_insert_eq.
Qed.

(** X4. Once the slot registers a sub-table, a further call of
    [early_hugepd_alloc_kernel] on that slot, for any address, allocates
    nothing, changes nothing and returns the entry in that same sub-table;
    and when the sub-table has just been allocated by the call, a call on
    the next slot does the same: the two slots share the one block. *)
Theorem early_hugepd_alloc_kernel_reuses pmdp va s :
  let r := early_hugepd_alloc_kernel pmdp va s in
  hpd_val r.2 pmdp <> 0 ->
  forall va',
    early_hugepd_alloc_kernel pmdp va' r.2 =
      (hugepte_offset (hpd_val r.2 pmdp) va' PGDIR_SHIFT, r.2) /\
    (hpd_val s pmdp = 0 ->
     early_hugepd_alloc_kernel (pmdp + 1) va' r.2 =
       (hugepte_offset (hpd_val r.2 pmdp) va' PGDIR_SHIFT, r.2)).
Proof.
  intros r Hnz va'. split.
  - now apply early_hugepd_alloc_result.
  - intros Hz. pose proof (hugepd_alloc_pair pmdp va s Hz Hnz) as Heq. fold r in Heq.
    rewrite <- Heq. apply early_hugepd_alloc_result. now rewrite Heq.
Qed.

(** X5. [mmu_mapin_immr] maps the register window at most once: it leaves
    the flag set, a call on a state whose flag is set changes nothing, so a
    second call in a row changes nothing, and the first call makes one
    installer call, for one 512 KB non-cached entry at the register window.
    The flag is set whatever that call returns: a failed install is not
    tried again. *)
Theorem mmu_mapin_immr_once s :
  immr_is_mapped (mmu_mapin_immr s) = true /\
  mmu_mapin_immr (mmu_mapin_immr s) = mmu_mapin_immr s /\
  (immr_is_mapped s = true -> mmu_mapin_immr s = s) /\
  (immr_is_mapped s = false ->
   exists ret,
     trace (mmu_mapin_immr s) =
       trace s ++ [EvMap VIRT_IMMR_BASE PHYS_IMMR_BASE PAGE_KERNEL_NCG MMU_PAGE_512K true ret]).
Proof.
  assert (immr_is_mapped (mmu_mapin_immr s) = true) as Hset.
  { unfold mmu_mapin_immr. destruct (immr_is_mapped s) eqn:Hm; [assumption|].
    destruct (__early_map_kernel_hugepage VIRT_IMMR_BASE PHYS_IMMR_BASE PAGE_KERNEL_NCG
                MMU_PAGE_512K true (set_immr_is_mapped true s)) as [ret s1] eqn:Hc.
    apply early_map_call in Hc as [_ (_ & Hi & _)]. simpl in *. assumption. }
  split; [assumption|]. split.
  - unfold mmu_mapin_immr at 1. now rewrite Hset.
  - split.
    + intros Hm. unfold mmu_mapin_immr. now rewrite Hm.
    + intros Hm. destruct (mmu_mapin_immr_frame s) as (evs & Ht & _ & _ & Hev).
      destruct (Hev Hm) as [ret ->]. eauto.
Qed.

(** ** What the range mapper keeps *)

Lemma map_loop_preserves (R : mm_state -> mm_state -> Prop)
    fuel bound step psize top prot new :
  (forall s, R s s) ->
  (forall a b c, R a b -> R b c -> R a c) ->
  (forall va pa s, R s (__early_map_kernel_hugepage va pa prot psize new s).2) ->
  forall p v err s p' v' err' s',
  map_loop fuel bound step psize top prot new p v err s = Some (p', v', err', s') ->
  R s s'.
Proof.
  intros Hrefl Htrans Hstep.
  induction fuel as [|fuel IH]; intros p v err s p' v' err' s'; simpl;
    destruct ((p <? bound p) && (p <? top) && (err =? 0)); try discriminate;
    try (intros [= <- <- <- <-]; apply Hrefl).
  pose proof (Hstep v p s) as H1.
  destruct (__early_map_kernel_hugepage v p prot psize new s) as [ret s1].
  intros Hl. apply IH in Hl. eapply Htrans; eassumption.
Qed.

Lemma mmu_mapin_ram_chunk_preserves (R : mm_state -> mm_state -> Prop)
    offset top prot new s err s' :
  (forall s, R s s) ->
  (forall a b c, R a b -> R b c -> R a c) ->
  (forall va pa psize s, R s (__early_map_kernel_hugepage va pa prot psize new s).2) ->
  (forall e s, new = false -> R s (emit e s)) ->
  mmu_mapin_ram_chunk offset top prot new s = Some (err, s') ->
  R s s'.
Proof.
  intros Hrefl Htrans Hstep Hemit. unfold mmu_mapin_ram_chunk. intros H.
  destruct (map_loop loop_fuel (fun p => ALIGN p SZ_8M) SZ_512K MMU_PAGE_512K top prot new
              offset (u32 (PAGE_OFFSET + offset)) 0 s)
    as [[[[p1 v1] err1] s1]|] eqn:H1; [|discriminate]. simpl in H.
  destruct (map_loop loop_fuel (fun _ => ALIGN_DOWN top SZ_8M) SZ_8M MMU_PAGE_8M top prot new
              p1 v1 err1 s1)
    as [[[[p2 v2] err2] s2]|] eqn:H2; [|discriminate]. simpl in H.
  destruct (map_loop loop_fuel (fun _ => ALIGN_DOWN top SZ_512K) SZ_512K MMU_PAGE_512K top prot new
              p2 v2 err2 s2)
    as [[[[p3 v3] err3] s3]|] eqn:H3; [|discriminate]. simpl in H.
  injection H as <- <-.
  apply (map_loop_preserves R) in H1, H2, H3; auto.
  assert (R s s3) as H by (eapply Htrans; [eapply Htrans|]; eassumption).
  destruct new; [assumption|].
  eapply Htrans; [exact H|]. now apply Hemit.
Qed.

(** X6. A call of the range mapper clears no slot of the directory and asks
    the early allocator at most once per installer call; in re-protect mode
    it asks for nothing and leaves the directory and the allocator as they
    were. *)
Theorem mmu_mapin_ram_chunk_keeps_tables offset top prot new s :
  is_ulong offset -> is_ulong top ->
  exists err s',
    mmu_mapin_ram_chunk offset top prot new s = Some (err, s') /\
    slots_kept s s' /\
    requests_bounded s s' /\
    (new = false -> same_tables s s').
Proof.
  intros Ho Ht.
  destruct (mmu_mapin_ram_chunk_total offset top prot new s Ho Ht) as (err & s' & Hc).
  exists err, s'. split; [assumption|]. split; [|split].
  - apply (mmu_mapin_ram_chunk_preserves slots_kept _ _ _ _ _ _ _) in Hc; auto.
    + unfold slots_kept. auto.
    + unfold slots_kept. auto.
    + intros va pa psize s0. apply install_call_tables.
    + unfold slots_kept. auto.
  - apply (mmu_mapin_ram_chunk_preserves requests_bounded _ _ _ _ _ _ _) in Hc; auto.
    + unfold requests_bounded. lia.
    + unfold requests_bounded. lia.
    + intros va pa psize s0.
      pose proof (install_call_tables va pa prot psize new s0) as [_ Ha].
      destruct (__early_map_kernel_hugepage va pa prot psize new s0) as [ret s1] eqn:Hcall.
      apply early_map_call in Hcall as [Htr _]. simpl in *.
      unfold requests_bounded. rewrite Htr, length_app. simpl.
      destruct Ha as [(_ & _ & ->) | (_ & _ & _ & size & ->)]; [lia|].
      rewrite length_app. simpl. lia.
    + intros e s0 _. unfold requests_bounded. simpl. rewrite length_app. simpl. lia.
  - intros ->.
    apply (mmu_mapin_ram_chunk_preserves same_tables _ _ _ _ _ _ _) in Hc; auto.
    + unfold same_tables. auto.
    + unfold same_tables. intuition congruence.
    + intros va pa psize s0. apply reprotect_call_spec.
    + unfold same_tables. auto.
Qed.

(** X1. A call of the installer returns 0, [-EINVAL] or [-ENOMEM].  When
    it returns 0 the entry of [(va, psize)] exists in the state it leaves
    and the table of entries is the old one with that one entry set to the
    frame of [pa], the protection asked for and the huge bit; when it
    fails the table of entries is the old one. *)
Theorem early_map_writes_one_entry va pa prot psize new s :
  let r := __early_map_kernel_hugepage va pa prot psize new s in
  (r.1 = 0 /\ entry_at r.2 va psize <> 0 /\
   ptmem r.2 = <[entry_at r.2 va psize := MkPte (Z.shiftr pa PAGE_SHIFT) prot true]> (ptmem s)) \/
  ((r.1 = - EINVAL \/ r.1 = - ENOMEM) /\ ptmem r.2 = ptmem s).
Proof. apply install_call_entries. Qed.

(** X2. In re-protect mode the installer allocates nothing and leaves the
    directory as it is; it succeeds exactly when the size is one of the two
    legal ones and the entry of [(va, psize)] exists, returns [-ENOMEM]
    when the size is legal and there is no such entry, and [-EINVAL] for
    any other size. *)
Theorem early_map_reprotect_needs_entry va pa prot psize s :
  let r := __early_map_kernel_hugepage va pa prot psize false s in
  same_tables s r.2 /\
  (r.1 = 0 <-> (psize = MMU_PAGE_512K \/ psize = MMU_PAGE_8M) /\ entry_at s va psize <> 0) /\
  ((psize = MMU_PAGE_512K \/ psize = MMU_PAGE_8M) -> entry_at s va psize = 0 ->
   r.1 = - ENOMEM) /\
  (~ (psize = MMU_PAGE_512K \/ psize = MMU_PAGE_8M) -> r.1 = - EINVAL).
Proof. apply reprotect_call_spec. Qed.

(** X3. Whatever the mode and the outcome, the installer clears no slot of
    the directory, and it changes the directory or asks the allocator for
    memory only in new mode, with the slab allocator not yet up, when the
    slot of [va] is empty: then it makes one request, aligned on 4 KB. *)
Theorem early_map_allocates_only_for_empty_slot va pa prot psize new s :
  let r := __early_map_kernel_hugepage va pa prot psize new s in
  slots_kept s r.2 /\
  (same_tables s r.2 \/
   (new = true /\ slab_available s = false /\ pmd_val s (pmd_off_k va) = 0 /\
    exists size, memblock_reqs r.2 = memblock_reqs s ++ [(size, SZ_4K)])).
Proof. apply install_call_tables. Qed.

(** ** How a call of the range mapper ends *)

Lemma rets_app evs1 evs2 : rets (evs1 ++ evs2) = rets evs1 ++ rets evs2.
Proof. apply omap_app. Qed.

Lemma rets_cons va pa prot psize new ret evs :
  rets (EvMap va pa prot psize new ret :: evs) = ret :: rets evs.
Proof. reflexivity. Qed.

Lemma repeat_snoc_zero n : repeat 0 n ++ [0] = repeat 0 (S n).
Proof. induction n as [|n IH]; simpl; [reflexivity | now rewrite IH]. Qed.

Lemma loop_run_rets bound step psize top prot new p v err evs p' v' err' :
  loop_run bound step psize top prot new p v err evs p' v' err' ->
  length (rets evs) = length evs /\
  ((evs = [] /\ err' = err) \/
   (err = 0 /\ exists n, rets evs = repeat 0 n ++ [err'])).
Proof.
  induction 1 as [p v err Hg | p v err ret evs p' v' err' Hg Hrun [Hlen IH]].
  - split; [reflexivity | now left].
  - split; [rewrite rets_cons; simpl; now rewrite Hlen|]. right.
    apply andb_prop in Hg as [_ Hg]. apply Z.eqb_eq in Hg. split; [assumption|].
    destruct IH as [[-> ->] | [-> [n Hn]]].
    + exists 0%nat. reflexivity.
    + exists (S n). rewrite rets_cons, Hn. reflexivity.
Qed.

Lemma rets_extend acc n err bound step psize top prot new p v evs p' v' err' :
  rets acc = repeat 0 n ++ tail_code err ->
  loop_run bound step psize top prot new p v err evs p' v' err' ->
  exists m, rets (acc ++ evs) = repeat 0 m ++ tail_code err'.
Proof.
  intros Hacc Hrun. rewrite rets_app, Hacc.
  destruct (loop_run_rets _ _ _ _ _ _ _ _ _ _ _ _ _ Hrun) as [_ [[-> ->] | [-> [k Hk]]]].
  - exists n. now rewrite app_nil_r.
  - rewrite Hk. unfold tail_code at 1. simpl. rewrite app_nil_r.
    unfold tail_code. destruct (Z.eqb_spec err' 0) as [->|Hne].
    + exists (n + S k)%nat. rewrite app_nil_r, repeat_snoc_zero, <- repeat_app. reflexivity.
    + exists (n + k)%nat. now rewrite app_assoc, <- repeat_app.
Qed.

Lemma chunk_call_shape offset top prot new s err s' :
  mmu_mapin_ram_chunk offset top prot new s = Some (err, s') ->
  exists mapevs v,
    trace s' = trace s ++ mapevs ++ flush_events new v top /\
    length (rets mapevs) = length mapevs /\
    exists n, rets mapevs = repeat 0 n ++ tail_code err.
Proof.
  intros Hc.
  destruct (mmu_mapin_ram_chunk_runs _ _ _ _ _ _ _ Hc)
    as (e1 & e2 & e3 & p1 & v1 & err1 & p2 & v2 & err2 & p3 & v3 & H1 & H2 & H3 & Htr & _).
  exists (e1 ++ e2 ++ e3), v3. split; [assumption|]. split.
  - rewrite !rets_app, !length_app.
    apply loop_run_rets in H1 as [-> _], H2 as [-> _], H3 as [-> _]. reflexivity.
  - destruct (rets_extend [] 0 0 _ _ _ _ _ _ _ _ _ _ _ _ eq_refl H1) as [n1 Hn1].
    destruct (rets_extend _ _ _ _ _ _ _ _ _ _ _ _ _ _ _ Hn1 H2) as [n2 Hn2].
    destruct (rets_extend _ _ _ _ _ _ _ _ _ _ _ _ _ _ _ Hn2 H3) as [n3 Hn3].
    exists n3. simpl in Hn3. now rewrite <- app_assoc in Hn3.
Qed.

(** X7. A call of the range mapper stops at the first install that fails
    and returns its code: the installer calls of the call have all
    returned 0, but for the last one when the call returns an error, which
    then is the code returned.  In new mode the call does nothing else; in
    re-protect mode it ends with one flush, after the last installer call,
    error or not. *)
Theorem mmu_mapin_ram_chunk_stops_at_first_error offset top prot new s :
  is_ulong offset -> is_ulong top ->
  exists err s' mapevs,
    mmu_mapin_ram_chunk offset top prot new s = Some (err, s') /\
    length (rets mapevs) = length mapevs /\
    (exists n, rets mapevs = repeat 0 n ++ tail_code err) /\
    (new = true -> trace s' = trace s ++ mapevs) /\
    (new = false ->
     exists start, trace s' = trace s ++ mapevs ++ [EvFlush start (u32 (PAGE_OFFSET + top))]).
Proof.
  intros Ho Ht.
  destruct (mmu_mapin_ram_chunk_total offset top prot new s Ho Ht) as (err & s' & Hc).
  destruct (chunk_call_shape _ _ _ _ _ _ _ Hc) as (mapevs & v & Htr & Hlen & Hn).
  exists err, s', mapevs. repeat split; try assumption.
  - intros ->. simpl in Htr. now rewrite app_nil_r in Htr.
  - intros ->. simpl in Htr. eauto.
Qed.

Lemma map_loop_idle fuel bound step psize top prot new p v err s :
  (p <? bound p) && (p <? top) && (err =? 0) = false ->
  map_loop fuel bound step psize top prot new p v err s = Some (p, v, err, s).
Proof. intros Hg. destruct fuel; simpl; now rewrite Hg. Qed.

Lemma chunk_call_empty offset top prot new s :
  top <= offset ->
  mmu_mapin_ram_chunk offset top prot new s =
    Some (0, if new then s
             else flush_tlb_kernel_range
                    (u32 (PAGE_OFFSET + u32 (PAGE_OFFSET + offset)))
                    (u32 (PAGE_OFFSET + top)) s).
Proof.
  intros Hle. unfold mmu_mapin_ram_chunk.
  assert ((offset <? top) = false) as Hg by (now apply Z.ltb_ge).
  rewrite !map_loop_idle; simpl; rewrite ?map_loop_idle; simpl;
    rewrite ?Hg, ?andb_false_r; try reflexivity.
  rewrite map_loop_idle; simpl; rewrite ?Hg, ?andb_false_r; reflexivity.
Qed.

(** X8. On an empty range, [top <= offset], the range mapper makes no
    installer call and returns 0; in re-protect mode it still flushes. *)
Theorem mmu_mapin_ram_chunk_empty_range offset top prot new s :
  top <= offset ->
  mmu_mapin_ram_chunk offset top prot new s =
    Some (0, if new then s
             else flush_tlb_kernel_range
                    (u32 (PAGE_OFFSET + u32 (PAGE_OFFSET + offset)))
                    (u32 (PAGE_OFFSET + top)) s).
Proof. apply chunk_call_empty. Qed.

(** ** The plan of the range mapper *)

Lemma ALIGN_same_block offset q :
  is_ulong offset -> offset < ALIGN offset SZ_8M ->
  offset <= q <= ALIGN offset SZ_8M ->
  q mod 524288 = 0 ->
  (q < ALIGN q SZ_8M <-> q < ALIGN offset SZ_8M) /\
  (q < ALIGN offset SZ_8M ->
   q + 524288 <= ALIGN offset SZ_8M /\ ALIGN_DOWN q SZ_8M < offset).
Proof.
  rewrite !ALIGN_8M, ALIGN_DOWN_8M. intros Ho Hlt Hq Ha. word_lia.
Qed.

Lemma head_end_bounds offset top :
  is_ulong offset -> offset < top ->
  offset <= head_end offset top <= top.
Proof.
  intros Ho Hlt. unfold head_end.
  destruct (Z.ltb_spec offset (ALIGN offset SZ_8M)); lia.
Qed.

(** Where the first loop stops when nothing fails. *)
Lemma first_loop_end offset top prot new v evs p1 v1 :
  is_ulong offset -> is_ulong top ->
  offset mod 524288 = 0 -> top mod 524288 = 0 -> offset < top ->
  loop_run (fun p => ALIGN p SZ_8M) SZ_512K MMU_PAGE_512K top prot new
           offset v 0 evs p1 v1 0 ->
  p1 = head_end offset top /\
  (evs <> [] -> offset < ALIGN offset SZ_8M).
Proof.
  intros Ho Ht Hao Hat Hlt Hrun. unfold head_end.
  destruct (Z.ltb_spec offset (ALIGN offset SZ_8M)) as [Hhead|Hno].
  - split; [|auto].
    apply loop_run_exit in Hrun as Hx. rewrite andb_true_r in Hx.
    apply (loop_run_inv
             (fun q _ => offset <= q <= Z.min (ALIGN offset SZ_8M) top /\ q mod 524288 = 0)
             (fun _ => True)) in Hrun as [[Hq Ha] _].
    + assert (offset <= p1 <= ALIGN offset SZ_8M) as Hq' by lia.
      destruct (ALIGN_same_block offset p1 Ho Hhead Hq' Ha) as [Hiff _].
      revert Hx. split_tests; intros; try discriminate; lia.
    + intros q w ret [Hq Ha] Hg Hqt. split; [|exact Logic.I].
      assert (offset <= q <= ALIGN offset SZ_8M) as Hq' by lia.
      destruct (ALIGN_same_block offset q Ho Hhead Hq' Ha) as [Hiff Hnext].
      apply Hiff in Hg. destruct (Hnext Hg) as [Hn _].
      pose proof (ALIGN_range offset).
      assert (u32 (q + SZ_512K) = q + SZ_512K) as -> by (apply u32_small; word_lia).
      word_lia.
    + split; [lia | assumption].
  - apply loop_run_stuck in Hrun as (-> & -> & _).
    + split; [reflexivity | congruence].
    + apply Z.ltb_ge in Hno. now rewrite Hno.
Qed.

(** Where the second loop stops when nothing fails. *)
Lemma second_loop_end top prot new p1 v1 evs p2 v2 :
  is_ulong p1 -> is_ulong top -> p1 <= top ->
  (p1 < ALIGN_DOWN top SZ_8M -> p1 mod 8388608 = 0) ->
  loop_run (fun _ => ALIGN_DOWN top SZ_8M) SZ_8M MMU_PAGE_8M top prot new
           p1 v1 0 evs p2 v2 0 ->
  p2 = Z.max p1 (ALIGN_DOWN top SZ_8M).
Proof.
  intros Hp Ht Hle Hal Hrun.
  destruct (Z_lt_le_dec p1 (ALIGN_DOWN top SZ_8M)) as [Hlt|Hge].
  - specialize (Hal Hlt).
    apply loop_run_exit in Hrun as Hx. rewrite andb_true_r in Hx.
    apply (loop_run_inv
             (fun q _ => p1 <= q <= ALIGN_DOWN top SZ_8M /\ q mod 8388608 = 0)
             (fun _ => True)) in Hrun as [[Hq Ha] _].
    + rewrite ALIGN_DOWN_8M in *. revert Hx.
      split_tests; intros; try discriminate; word_lia.
    + intros q w ret [Hq Ha] Hg Hqt. split; [|exact Logic.I].
      assert (is_ulong q) as Hqw by (word_consts; lia).
      pose proof (bound_ALIGN_DOWN_8M top q Ht Hqw Hg).
      assert (u32 (q + SZ_8M) = q + SZ_8M) as -> by (apply u32_small; word_lia).
      rewrite ALIGN_DOWN_8M in *. word_lia.
    + split; [lia | assumption].
  - apply loop_run_stuck in Hrun as (_ & -> & _); [lia|].
    assert ((p1 <? ALIGN_DOWN top SZ_8M) = false) as -> by (now apply Z.ltb_ge).
    reflexivity.
Qed.

Lemma run_chunk_weaken step lo hi lo' hi' cs :
  lo' <= lo -> hi <= hi' ->
  Forall (run_chunk step lo hi) cs -> Forall (run_chunk step lo' hi') cs.
Proof.
  intros Hlo Hhi Hall. eapply Forall_impl; [exact Hall|].
  unfold run_chunk. intros c (? & ? & ? & ?). repeat split; try assumption; lia.
Qed.

(** A successful call on an aligned range, loop by loop. *)
Lemma chunk_call_parts offset top prot new s s' :
  is_ulong offset -> is_ulong top ->
  offset mod 524288 = 0 -> top mod 524288 = 0 -> offset < top ->
  mmu_mapin_ram_chunk offset top prot new s = Some (0, s') ->
  exists e1 e2 e3 v3,
    trace s' = trace s ++ (e1 ++ e2 ++ e3) ++ flush_events new v3 top /\
    offset <= head_end offset top /\ head_end offset top <= mid_end offset top /\
    mid_end offset top <= top /\
    (e1 <> [] -> offset < ALIGN offset SZ_8M) /\
    tiles c_pa (chunks_of e1) offset (head_end offset top) /\
    Forall (run_chunk SZ_512K offset (head_end offset top)) (chunks_of e1) /\
    tiles c_pa (chunks_of e2) (head_end offset top) (mid_end offset top) /\
    Forall (run_chunk SZ_8M (head_end offset top) (mid_end offset top)) (chunks_of e2) /\
    tiles c_pa (chunks_of e3) (mid_end offset top) top /\
    Forall (run_chunk SZ_512K (mid_end offset top) top) (chunks_of e3).
Proof.
  intros Ho Ht Hao Hat Hlt Hc.
  destruct (mmu_mapin_ram_chunk_runs _ _ _ _ _ _ _ Hc)
    as (e1 & e2 & e3 & p1 & v1 & err1 & p2 & v2 & err2 & p3 & v3 & H1 & H2 & H3 & Htr & _).
  destruct (loop_run_ok _ _ _ _ _ _ _ _ _ _ _ _ _ H3 eq_refl) as [-> _].
  destruct (loop_run_ok _ _ _ _ _ _ _ _ _ _ _ _ _ H2 eq_refl) as [-> _].
  exists e1, e2, e3, v3. split; [assumption|].
  destruct (first_loop_end _ _ _ _ _ _ _ _ Ho Ht Hao Hat Hlt H1) as [Hp1 Hne1].
  pose proof (head_end_bounds offset top Ho Hlt) as Hhb.
  destruct (loop_run_tiles _ _ _ _ _ _ psize_bytes_512K eq_refl bound_ALIGN_8M
              _ _ _ _ _ _ _ H1 Ho eq_refl eq_refl) as (Ht1 & Hw1 & _ & Hv1 & Hall1).
  destruct (small_loop_inv _ _ _ _ _ _ _ _ _ _ _ _ bound_ALIGN_8M Hat H1 Ho Hao)
    as [Ha1 Hb1]; [lia|].
  apply loop_run_exit in H1 as Hx1. rewrite andb_true_r in Hx1.
  assert (p1 < ALIGN_DOWN top SZ_8M -> p1 mod 8388608 = 0) as Hal1
    by (intros; now apply (first_loop_exit_aligned p1 top)).
  pose proof (second_loop_end _ _ _ _ _ _ _ _ Hw1 Ht Hb1 Hal1 H2) as Hp2.
  destruct (loop_run_tiles _ _ _ _ _ _ psize_bytes_8M eq_refl
              (fun q => bound_ALIGN_DOWN_8M top q Ht)
              _ _ _ _ _ _ _ H2 Hw1 Hv1 eq_refl) as (Ht2 & Hw2 & _ & Hv2 & Hall2).
  destruct (second_loop_legal _ _ _ _ _ _ _ _ _ _ Ht H2 (conj Hw1 Hv1) Hal1)
    as [(_ & _ & Ha2 & Hb2) _].
  specialize (Hb2 Hb1). rewrite Ha1 in Ha2.
  destruct (loop_run_tiles _ _ _ _ _ _ psize_bytes_512K eq_refl
              (fun q => bound_ALIGN_DOWN_512K top q Ht)
              _ _ _ _ _ _ _ H3 Hw2 Hv2 eq_refl) as (Ht3 & Hw3 & _ & Hv3 & Hall3).
  destruct (small_loop_inv _ _ _ _ _ _ _ _ _ _ _ _
              (fun q => bound_ALIGN_DOWN_512K top q Ht) Hat H3 Hw2 Ha2 Hb2) as [Ha3 Hb3].
  apply loop_run_exit in H3 as Hx3. rewrite andb_true_r in Hx3.
  assert (p3 = top) as Hp3.
  { rewrite ALIGN_DOWN_512K in Hx3. revert Hx3.
    split_tests; intros; try discriminate; word_lia. }
  unfold mid_end. rewrite <- Hp1, <- Hp2. subst p3.
  repeat split; try assumption; try lia.
Qed.

Lemma run_chunks_of_tiles f step lo' hi' cs lo hi :
  0 < step ->
  tiles c_pa cs lo hi ->
  Forall (fun c => c_va c = f (c_pa c) /\ c_size c = step /\
                   lo' <= c_pa c /\ c_pa c + step <= hi') cs ->
  cs = run_chunks f step lo (Z.to_nat ((hi - lo) / step)).
Proof.
  intros Hpos Ht Hall.
  destruct (tiles_uniform f step cs lo hi Ht) as [Hcs Hhi].
  { eapply Forall_impl; [exact Hall|]. simpl. tauto. }
  replace (hi - lo) with (Z.of_nat (length cs) * step) by lia.
  rewrite Z.div_mul by lia. now rewrite Nat2Z.id.
Qed.

(** X9. For 512 KB-aligned [offset < top], the chunks of a call of the range
    mapper that returns 0 are those of the plan: 512 KB chunks from
    [offset] to the next multiple of 8 MB (or to [top]), then 8 MB chunks
    to the last multiple of 8 MB below [top], then 512 KB chunks to [top].
    The plan depends on [offset] and [top] only: mapping a range and
    re-protecting it go through the same chunks. *)
Theorem mmu_mapin_ram_chunk_follows_plan offset top prot new s :
  is_ulong offset -> is_ulong top ->
  IS_ALIGNED offset SZ_512K = true -> IS_ALIGNED top SZ_512K = true ->
  offset < top ->
  exists err s' evs,
    mmu_mapin_ram_chunk offset top prot new s = Some (err, s') /\
    trace s' = trace s ++ evs /\
    (err = 0 -> chunks_of evs = chunk_plan offset top).
Proof.
  intros Ho Ht Hao Hat Hlt. apply IS_ALIGNED_512K in Hao, Hat.
  destruct (mmu_mapin_ram_chunk_total offset top prot new s Ho Ht) as (err & s' & Hc).
  destruct (chunk_call_shape _ _ _ _ _ _ _ Hc) as (mapevs & v & Htr & _).
  exists err, s', (mapevs ++ flush_events new v top).
  split; [assumption|]. split; [assumption|]. intros ->.
  destruct (chunk_call_parts _ _ _ _ _ _ Ho Ht Hao Hat Hlt Hc)
    as (e1 & e2 & e3 & v3 & Htr' & _ & _ & _ & _ & Ht1 & Hr1 & Ht2 & Hr2 & Ht3 & Hr3).
  assert (mapevs ++ flush_events new v top = (e1 ++ e2 ++ e3) ++ flush_events new v3 top)
    as -> by (rewrite Htr in Htr'; now apply app_inv_head in Htr').
  rewrite !chunks_of_app, chunks_of_flush, app_nil_r. unfold chunk_plan.
  rewrite <- (run_chunks_of_tiles _ SZ_512K _ _ _ _ _ eq_refl Ht1 Hr1).
  rewrite <- (run_chunks_of_tiles _ SZ_8M _ _ _ _ _ eq_refl Ht2 Hr2).
  rewrite <- (run_chunks_of_tiles _ SZ_512K _ _ _ _ _ eq_refl Ht3 Hr3).
  reflexivity.
Qed.

Lemma head_block_below offset q :
  is_ulong offset -> offset < ALIGN offset SZ_8M ->
  offset <= q < ALIGN offset SZ_8M ->
  ALIGN_DOWN q SZ_8M < offset.
Proof. rewrite !ALIGN_8M, ALIGN_DOWN_8M. intros. word_lia. Qed.

Lemma tail_block_above top q :
  is_ulong top -> ALIGN_DOWN top SZ_8M <= q ->
  top < ALIGN_DOWN q SZ_8M + SZ_8M.
Proof. rewrite !ALIGN_DOWN_8M. intros. word_lia. Qed.

(** X10. For 512 KB-aligned [offset < top], a call of the range mapper that
    returns 0 has used a 512 KB chunk only where an 8 MB chunk had no
    room: the 8 MB block of every 512 KB chunk installed starts before
    [offset] or ends after [top]. *)
Theorem mmu_mapin_ram_chunk_prefers_8M offset top prot new s :
  is_ulong offset -> is_ulong top ->
  IS_ALIGNED offset SZ_512K = true -> IS_ALIGNED top SZ_512K = true ->
  offset < top ->
  exists err s' evs,
    mmu_mapin_ram_chunk offset top prot new s = Some (err, s') /\
    trace s' = trace s ++ evs /\
    (err = 0 ->
     Forall (fun c => c_size c = SZ_512K -> no_room_for_8M offset top (c_pa c))
            (chunks_of evs)).
Proof.
  intros Ho Ht Hao Hat Hlt. apply IS_ALIGNED_512K in Hao, Hat.
  destruct (mmu_mapin_ram_chunk_total offset top prot new s Ho Ht) as (err & s' & Hc).
  destruct (chunk_call_shape _ _ _ _ _ _ _ Hc) as (mapevs & v & Htr & _).
  exists err, s', (mapevs ++ flush_events new v top).
  split; [assumption|]. split; [assumption|]. intros ->.
  destruct (chunk_call_parts _ _ _ _ _ _ Ho Ht Hao Hat Hlt Hc)
    as (e1 & e2 & e3 & v3 & Htr' & Hb1 & Hb2 & Hb3 & Hne1 & _ & Hr1 & _ & Hr2 & _ & Hr3).
  assert (mapevs ++ flush_events new v top = (e1 ++ e2 ++ e3) ++ flush_events new v3 top)
    as -> by (rewrite Htr in Htr'; now apply app_inv_head in Htr').
  rewrite !chunks_of_app, chunks_of_flush, app_nil_r.
  repeat (apply Forall_app; split).
  - destruct e1 as [|e e1]; [constructor|].
    assert (offset < ALIGN offset SZ_8M) as Hhead by (apply Hne1; discriminate).
    assert (head_end offset top <= ALIGN offset SZ_8M) as Hhe.
    { unfold head_end. apply Z.ltb_lt in Hhead. rewrite Hhead. lia. }
    eapply Forall_impl; [exact Hr1|]. intros c (_ & _ & Hlo & Hhi) _. left.
    apply head_block_below; [assumption | assumption | unfold SZ_512K in Hhi; lia].
  - eapply Forall_impl; [exact Hr2|]. intros c (_ & Hs & _) Hs'.
    rewrite Hs in Hs'. discriminate.
  - eapply Forall_impl; [exact Hr3|]. intros c (_ & _ & Hlo & Hhi) _. right.
    apply tail_block_above; [assumption|]. unfold mid_end in Hlo. lia.
Qed.

(** A successful call on an aligned range, empty or not: the chunks tile
    it. *)
Lemma chunk_call_tiles offset top prot new s s' :
  is_ulong offset -> is_ulong top ->
  offset mod 524288 = 0 -> top mod 524288 = 0 -> offset <= top ->
  mmu_mapin_ram_chunk offset top prot new s = Some (0, s') ->
  exists mapevs v,
    trace s' = trace s ++ mapevs ++ flush_events new v top /\
    tiles c_pa (chunks_of mapevs) offset top /\
    Forall (chunk_within offset top) (chunks_of mapevs).
Proof.
  intros Ho Ht Hao Hat Hle Hc.
  destruct (Z_lt_le_dec offset top) as [Hlt|Hge].
  - destruct (chunk_call_parts _ _ _ _ _ _ Ho Ht Hao Hat Hlt Hc)
      as (e1 & e2 & e3 & v3 & Htr & Hb1 & Hb2 & Hb3 & _ & Ht1 & Hr1 & Ht2 & Hr2 & Ht3 & Hr3).
    exists (e1 ++ e2 ++ e3), v3. split; [assumption|].
    rewrite !chunks_of_app. split.
    + eapply tiles_app; [eassumption|]. eapply tiles_app; eassumption.
    + repeat (apply Forall_app; split).
      * eapply Forall_impl; [exact Hr1|]. intros c (? & Hs & ? & ?).
        unfold chunk_within. rewrite Hs. repeat split; auto; lia.
      * eapply Forall_impl; [exact Hr2|]. intros c (? & Hs & ? & ?).
        unfold chunk_within. rewrite Hs. repeat split; auto; lia.
      * eapply Forall_impl; [exact Hr3|]. intros c (? & Hs & ? & ?).
        unfold chunk_within. rewrite Hs. repeat split; auto; lia.
  - assert (offset = top) as -> by lia.
    rewrite chunk_call_empty in Hc by lia. injection Hc as <-.
    exists [], (u32 (PAGE_OFFSET + top)). split.
    + unfold flush_events, flush_tlb_kernel_range. destruct new; simpl;
        now rewrite ?app_nil_r.
    + split; [reflexivity | constructor].
Qed.

(** ** The initial mapping, segment by segment *)

Lemma ram_boundary_range : is_ulong ram_boundary.
Proof. unfold ram_boundary. destruct (_ || _); [apply __pa_range | apply ALIGN_range]. Qed.


Lemma einittext8_range : is_ulong einittext8.
Proof. apply ALIGN_range. Qed.

Lemma ALIGN_8M_aligned x : ALIGN x SZ_8M mod 524288 = 0.
Proof. rewrite ALIGN_8M. word_lia. Qed.

Lemma rets_flush new v top : rets (flush_events new v top) = [].
Proof. unfold flush_events. now destruct new. Qed.

Lemma rets_all_zero evs n err :
  rets evs = repeat 0 n ++ tail_code err ->
  Forall (fun r => r = 0) (rets evs) -> err = 0.
Proof.
  intros -> Hall. apply Forall_app in Hall as [_ Hall]. unfold tail_code in Hall.
  destruct (Z.eqb_spec err 0) as [|Hne]; [assumption|].
  now apply Forall_cons in Hall as [? _].
Qed.

(** The new-mode call, seen from [mmu_mapin_ram]: its events are installer
    calls, and when they have all returned 0 the chunks tile the range. *)
Lemma new_call_segment offset top prot s :
  is_ulong offset -> is_ulong top ->
  offset mod 524288 = 0 -> top mod 524288 = 0 -> offset <= top ->
  exists err s' evs,
    mmu_mapin_ram_chunk offset top prot true s = Some (err, s') /\
    trace s' = trace s ++ evs /\
    same_boot_vars s s' /\
    (Forall (fun r => r = 0) (rets evs) ->
     err = 0 /\ tiles c_pa (chunks_of evs) offset top /\
     Forall (chunk_within offset top) (chunks_of evs)).
Proof.
  intros Ho Ht Hao Hat Hle.
  destruct (mmu_mapin_ram_chunk_total offset top prot true s Ho Ht) as (err & s' & Hc).
  destruct (chunk_call_shape _ _ _ _ _ _ _ Hc) as (mapevs & v & Htr & _ & n & Hn).
  destruct (chunk_call_frame _ _ _ _ _ _ _ Hc) as (_ & _ & Hf).
  simpl in Htr. rewrite app_nil_r in Htr.
  exists err, s', mapevs. repeat split; try assumption; try apply Hf.
  - eapply rets_all_zero; eassumption.
  - pose proof (rets_all_zero _ _ _ Hn H) as ->.
    destruct (chunk_call_tiles _ _ _ _ _ _ Ho Ht Hao Hat Hle Hc) as (m & v' & Htr' & Ht' & _).
    simpl in Htr'. rewrite app_nil_r, Htr in Htr'. apply app_inv_head in Htr'. now subst m.
  - pose proof (rets_all_zero _ _ _ Hn H) as ->.
    destruct (chunk_call_tiles _ _ _ _ _ _ Ho Ht Hao Hat Hle Hc) as (m & v' & Htr' & _ & Hw').
    simpl in Htr'. rewrite app_nil_r, Htr in Htr'. apply app_inv_head in Htr'. now subst m.
Qed.

(** X11. Outside the debug mode, with the boundary and [top] multiples of
    512 KB and [boundary <= einittext8 <= top], [mmu_mapin_ram] returns
    [top], records it in [block_mapped_ram], and makes its installer calls
    for RAM after the one for the register window; when those calls have
    all returned 0, the chunks of the three segments together tile the
    physical range from 0 to [top], the range the translations then take
    for mapped. *)
Theorem mmu_mapin_ram_maps_all_ram base top s :
  debug_pagealloc_enabled_or_kfence = false ->
  is_ulong top ->
  ram_boundary mod 524288 = 0 -> top mod 524288 = 0 ->
  ram_boundary <= einittext8 <= top ->
  exists s' immr_evs ram_evs,
    mmu_mapin_ram base top s = Some (top, s') /\
    block_mapped_ram s' = top /\
    trace s' = trace s ++ immr_evs ++ ram_evs ++
               (if SZ_32M <? top then [EvSetLimit top] else []) /\
    trace (mmu_mapin_immr s) = trace s ++ immr_evs /\
    length (rets ram_evs) = length ram_evs /\
    (Forall (fun r => r = 0) (rets ram_evs) ->
     tiles c_pa (chunks_of ram_evs) 0 top /\
     Forall (chunk_within 0 top) (chunks_of ram_evs)).
Proof.
  intros Hdbg Ht Hab Hat [Hle1 Hle2].
  pose proof ram_boundary_range as Hbw. pose proof einittext8_range as Hew.
  pose proof (ALIGN_8M_aligned (__pa _einittext)) as Hae. fold einittext8 in Hae.
  assert (is_ulong 0) as Hz by (word_consts; lia).
  destruct (mmu_mapin_immr_frame s) as (ie & Hti & _).
  destruct (new_call_segment 0 ram_boundary PAGE_KERNEL_TEXT (mmu_mapin_immr s))
    as (r1 & s1 & ev1 & Hc1 & Ht1 & Hf1 & Hok1); try assumption; try reflexivity;
    [apply Hbw|].
  destruct (new_call_segment ram_boundary einittext8 PAGE_KERNEL_TEXT s1)
    as (r2 & s2 & ev2 & Hc2 & Ht2 & Hf2 & Hok2); try assumption.
  destruct (new_call_segment einittext8 top PAGE_KERNEL s2)
    as (r3 & s3 & ev3 & Hc3 & Ht3 & Hf3 & Hok3); try assumption.
  exists (set_block_mapped_ram top
            (if SZ_32M <? top then memblock_set_current_limit top s3 else s3)),
         ie, (ev1 ++ ev2 ++ ev3).
  split.
  { unfold mmu_mapin_ram. fold ram_boundary. fold einittext8.
    rewrite Hc1. simpl. rewrite Hdbg, Hc2. simpl. rewrite Hc3. reflexivity. }
  split; [reflexivity|]. split.
  { destruct (SZ_32M <? top); simpl;
      rewrite Ht3, Ht2, Ht1, Hti, <- ?app_assoc, ?app_nil_r; reflexivity. }
  split; [assumption|]. split.
  { destruct (chunk_call_shape _ _ _ _ _ _ _ Hc1) as (m1 & v1 & Hm1 & Hl1 & _).
    destruct (chunk_call_shape _ _ _ _ _ _ _ Hc2) as (m2 & v2 & Hm2 & Hl2 & _).
    destruct (chunk_call_shape _ _ _ _ _ _ _ Hc3) as (m3 & v3 & Hm3 & Hl3 & _).
    simpl in Hm1, Hm2, Hm3. rewrite app_nil_r in Hm1, Hm2, Hm3.
    rewrite Ht1 in Hm1. rewrite Ht2 in Hm2. rewrite Ht3 in Hm3.
    apply app_inv_head in Hm1, Hm2, Hm3. subst m1 m2 m3.
    rewrite !rets_app, !length_app. congruence. }
  intros Hall. rewrite !rets_app in Hall.
  apply Forall_app in Hall as [Ha1 Hall]. apply Forall_app in Hall as [Ha2 Ha3].
  destruct (Hok1 Ha1) as (_ & Hx1 & Hw1).
  destruct (Hok2 Ha2) as (_ & Hx2 & Hw2).
  destruct (Hok3 Ha3) as (_ & Hx3 & Hw3).
  rewrite !chunks_of_app. split.
  - eapply tiles_app; [eassumption|]. eapply tiles_app; eassumption.
  - destruct Hbw as [Hb0 _].
    repeat (apply Forall_app; split).
    + eapply chunk_within_weaken; [| | exact Hw1]; lia.
    + eapply chunk_within_weaken; [| | exact Hw2]; lia.
    + eapply chunk_within_weaken; [| | exact Hw3]; lia.
Qed.

(** ** The protection changes *)




(** ** The translations, window by window *)

(** X14. On a layout whose windows do not wrap and do not overlap, each
    translation sends each of its windows into the matching window of the
    other side, by the plain offset: the virtual register window to the
    physical one and back, the virtual RAM window to the physical
    addresses below [block_mapped_ram] and back. *)
Theorem block_mapped_stays_in_windows (s : mm_state) :
  layout_ok s ->
  (forall va, is_ulong va -> in_virt_immr va = true ->
     v_block_mapped s va = PHYS_IMMR_BASE + (va - VIRT_IMMR_BASE) /\
     in_phys_immr (v_block_mapped s va) = true) /\
  (forall va, is_ulong va -> in_virt_ram s va = true ->
     v_block_mapped s va = va - PAGE_OFFSET /\
     in_phys_ram s (v_block_mapped s va) = true /\
     in_phys_immr (v_block_mapped s va) = false) /\
  (forall pa, is_ulong pa -> in_phys_immr pa = true ->
     p_block_mapped s pa = VIRT_IMMR_BASE + (pa - PHYS_IMMR_BASE) /\
     in_virt_immr (p_block_mapped s pa) = true) /\
  (forall pa, is_ulong pa -> in_phys_ram s pa = true ->
     p_block_mapped s pa = PAGE_OFFSET + pa /\
     in_virt_ram s (p_block_mapped s pa) = true /\
     in_virt_immr (p_block_mapped s pa) = false).
Proof.
  intros [Hpo Hpi Hvi Htop Hve Hpe Hre Hvd Hpd].
  pose proof IMMR_SIZE_range as Hsz.
  unfold in_virt_immr, in_virt_ram, in_phys_immr, in_phys_ram,
    v_block_mapped, p_block_mapped, __pa, __va.
  generalize dependent IMMR_SIZE. intros sz. intros.
  split; [|split; [|split]]; intros x Hx Hin; revert Hin; word_consts;
    split_tests; intros; try discriminate; repeat split; try reflexivity;
    try (Z.div_mod_to_equations; lia).
Qed.

(** ** Re-protecting what has been mapped *)

Lemma entry_at_pgdir s s' va psize :
  pgdir s' = pgdir s -> entry_at s' va psize = entry_at s va psize.
Proof.
  intros H. unfold entry_at, pte_offset_kernel, hpd_val, pmd_val. now rewrite H.
Qed.

Lemma ptrs_ok_same_tables s s' : same_tables s s' -> ptrs_ok s -> ptrs_ok s'.
Proof.
  intros (Hd & Hm & _) (Hsz & Hslots & Hmem). unfold ptrs_ok, pmd_val in *.
  rewrite Hd, Hm. auto.
Qed.

(** On a populated slot, with pointers that are not negative, the entry of
    a word [va] exists for both sizes. *)
Lemma populated_entry s va psize :
  ptrs_ok s -> 0 <= va ->
  pmd_val s (pmd_off_k va) <> 0 -> entry_at s va psize <> 0.
Proof.
  intros (Hsz & Hslots & _) Hva Hpop. specialize (Hslots (pmd_off_k va)).
  unfold entry_at, pte_offset_kernel, hugepte_offset, hpd_val, pte_index.
  apply Z.eqb_neq in Hpop as Hpop'. rewrite Hpop'.
  destruct (is_512K psize).
  - assert (0 <= Z.land (Z.shiftr va PAGE_SHIFT) (Z.ones (PGDIR_SHIFT - PAGE_SHIFT))).
    { apply Z.land_nonneg. left. now apply Z.shiftr_nonneg. }
    nia.
  - assert (0 <= Z.shiftr (Z.land va (Z.ones PGDIR_SHIFT)) PAGE_SHIFT).
    { apply Z.shiftr_nonneg. apply Z.land_nonneg. now left. }
    nia.
Qed.

Lemma locate_entry_ptrs va psize new s :
  ptrs_ok s -> ptrs_ok (locate_entry va psize new s).2.
Proof.
  intros (Hsz & Hslots & Hmem).
  assert (forall size align,
             0 <= (memblock_alloc size align s).1 /\
             Forall (fun a => 0 <= a) (memblock (memblock_alloc size align s).2) /\
             pgdir (memblock_alloc size align s).2 = pgdir s) as Halloc.
  { intros size align. unfold memblock_alloc.
    destruct (memblock s) as [|a rest]; simpl; [split; [lia | auto]|].
    apply Forall_cons in Hmem as [Ha Hrest]. auto. }
  unfold locate_entry.
  destruct new; [|destruct (is_512K psize); simpl; unfold ptrs_ok; auto].
  destruct (is_512K psize).
  - unfold early_pte_alloc_kernel.
    destruct (pmd_val s (pmd_off_k va) =? 0); [|simpl; unfold ptrs_ok; auto].
    destruct (Halloc SZ_4K SZ_4K) as (Ha & Hm & Hd).
    destruct (memblock_alloc SZ_4K SZ_4K s) as [ptep s1]. simpl in *.
    destruct (ptep =? 0); simpl; unfold ptrs_ok; (split; [assumption|]); (split; [|assumption]).
    + intros slot. unfold pmd_val. rewrite Hd. apply Hslots.
    + intros slot. unfold pmd_populate_kernel. rewrite pmd_val_insert.
      destruct (decide (pmd_off_k va = slot)); [assumption|]. rewrite Hd. apply Hslots.
  - unfold early_hugepd_alloc_kernel, hpd_val.
    destruct (pmd_val s (pmd_off_k va) =? 0); [|simpl; unfold ptrs_ok; auto].
    destruct (Halloc sizeof_pte_basic_t SZ_4K) as (Ha & Hm & Hd).
    destruct (memblock_alloc sizeof_pte_basic_t SZ_4K s) as [ptep s1]. simpl in *.
    destruct (ptep =? 0); simpl; unfold ptrs_ok; (split; [assumption|]); (split; [|assumption]).
    + intros slot. unfold pmd_val. rewrite Hd. apply Hslots.
    + intros slot. unfold hugepd_populate_kernel. rewrite pmd_val_insert.
      destruct (decide (pmd_off_k va + 1 = slot)); [assumption|].
      simpl. rewrite lookup_insert.
      destruct (decide (pmd_off_k va = slot)); [assumption|]. rewrite Hd. apply Hslots.
Qed.

Lemma install_call_ptrs va pa prot psize new s :
  ptrs_ok s -> ptrs_ok (__early_map_kernel_hugepage va pa prot psize new s).2.
Proof.
  intros Hok. unfold __early_map_kernel_hugepage. rewrite early_map_body_steps.
  destruct (negb (is_512K psize) && negb (is_8M psize)); [exact Hok|].
  destruct (new && slab_available s); [exact Hok|].
  pose proof (locate_entry_ptrs va psize new s Hok) as Hok1.
  destruct (locate_entry va psize new s) as [ptep s1]. simpl in *.
  destruct (ptep =? 0); [exact Hok1|].
  destruct (new && (pte_present (read_pte s1 ptep) && negb (prot =? 0))); exact Hok1.
Qed.

Lemma chunk_call_ptrs offset top prot new s err s' :
  mmu_mapin_ram_chunk offset top prot new s = Some (err, s') ->
  ptrs_ok s -> ptrs_ok s'.
Proof.
  intros Hc.
  apply (mmu_mapin_ram_chunk_preserves (fun a b => ptrs_ok a -> ptrs_ok b)
           offset top prot new s err s'); [auto | auto | | | exact Hc].
  - intros va pa psize s0. apply install_call_ptrs.
  - intros e s0 _ H. exact H.
Qed.

Lemma chunk_call_slots offset top prot new s err s' :
  mmu_mapin_ram_chunk offset top prot new s = Some (err, s') -> slots_kept s s'.
Proof.
  intros Hc.
  apply (mmu_mapin_ram_chunk_preserves slots_kept
           offset top prot new s err s'); [| | | | exact Hc].
  - unfold slots_kept. auto.
  - unfold slots_kept. auto.
  - intros va pa psize s0. apply install_call_tables.
  - intros e s0 _ slot H. exact H.
Qed.

Lemma populated_kept s s' evs :
  slots_kept s s' ->
  Forall (call_slot_populated s) evs -> Forall (call_slot_populated s') evs.
Proof.
  intros Hk Hall. eapply Forall_impl; [exact Hall|].
  intros [va pa prot psize new ret| | |]; simpl; auto.
Qed.

(** A loop that ends without an error in new mode leaves the slot of each
    of its installer calls populated. *)
Lemma map_loop_populates fuel bound step psize top prot :
  forall p v err s p' v' s',
  map_loop fuel bound step psize top prot true p v err s = Some (p', v', 0, s') ->
  exists evs,
    trace s' = trace s ++ evs /\ Forall (call_slot_populated s') evs.
Proof.
  induction fuel as [|fuel IH]; intros p v err s p' v' s'; simpl;
    destruct ((p <? bound p) && (p <? top) && (err =? 0)) eqn:Hg;
    try discriminate;
    try (intros [= -> -> -> ->]; exists []; rewrite app_nil_r; split; [reflexivity | constructor]).
  pose proof (install_call_entries v p prot psize true s) as Hent.
  destruct (__early_map_kernel_hugepage v p prot psize true s) as [ret s1] eqn:Hc.
  intros Hl. simpl in Hent.
  apply early_map_call in Hc as [Ht _].
  pose proof (map_loop_run _ _ _ _ _ _ _ _ _ _ _ _ _ _ _ Hl) as (evs0 & _ & Hrun & _).
  destruct (loop_run_ok _ _ _ _ _ _ _ _ _ _ _ _ _ Hrun eq_refl) as [-> _].
  destruct Hent as [(_ & Hentry & _) | ([He | He] & _)]; [|discriminate He..].
  apply entry_slot_populated in Hentry.
  pose proof (map_loop_preserves slots_kept _ _ _ _ _ _ _
                (fun s x H => H) (fun a b c Hab Hbc x H => Hbc x (Hab x H))
                (fun va pa s0 => proj1 (install_call_tables va pa prot psize true s0))
                _ _ _ _ _ _ _ _ Hl) as Hk.
  destruct (IH _ _ _ _ _ _ _ Hl) as (evs & Ht' & Hall).
  exists (EvMap v p prot psize true 0 :: evs). split.
  - rewrite Ht', Ht, <- app_assoc. reflexivity.
  - constructor; [|assumption]. simpl. now apply Hk.
Qed.

(** The re-protect loop mirrors a loop that has run without an error:
    it makes the same steps and none of its calls fails, when the slots of
    the calls of that loop are populated. *)
Lemma reprotect_mirrors bound step psize top protN newN prot p v err evsN p' v' err' :
  psize = MMU_PAGE_512K \/ psize = MMU_PAGE_8M ->
  loop_run bound step psize top protN newN p v err evsN p' v' err' ->
  err' = 0 ->
  forall s fuel q w e s',
  ptrs_ok s -> 0 <= v -> Forall (call_slot_populated s) evsN ->
  map_loop fuel bound step psize top prot false p v err s = Some (q, w, e, s') ->
  q = p' /\ w = v' /\ e = 0 /\ same_tables s s'.
Proof.
  intros Hvalid Hrun.
  induction Hrun as [p v err Hg | p v err ret evs p' v' err' Hg Hrun IH];
    intros He s fuel q w e s' Hok Hv Hpop Hl.
  - rewrite map_loop_idle in Hl by assumption. injection Hl as <- <- <- <-.
    unfold same_tables. auto 10.
  - destruct (loop_run_ok _ _ _ _ _ _ _ _ _ _ _ _ _ Hrun He) as [-> _].
    destruct fuel as [|fuel]; simpl in Hl; rewrite Hg in Hl; [discriminate|].
    apply Forall_cons in Hpop as [Hhead Htail]. simpl in Hhead.
    pose proof (reprotect_call_spec v p prot psize s) as (Hst & Hiff & _).
    destruct (__early_map_kernel_hugepage v p prot psize false s) as [r s1]. simpl in *.
    assert (r = 0) as ->.
    { apply Hiff. split; [assumption|]. now apply populated_entry. }
    destruct (IH He s1 fuel q w e s') as (-> & -> & -> & Hst').
    + eapply ptrs_ok_same_tables; eassumption.
    + apply u32_range.
    + eapply populated_kept; [|exact Htail].
      intros slot. unfold pmd_val. destruct Hst as (-> & _). auto.
    + assumption.
    + repeat split; auto; unfold same_tables in *; intuition congruence.
Qed.

Lemma loop_run_va_nonneg bound step psize top prot new p v err evs p' v' err' :
  loop_run bound step psize top prot new p v err evs p' v' err' ->
  0 <= v -> 0 <= v'.
Proof.
  intros Hrun Hv.
  apply (loop_run_inv (fun _ w => 0 <= w) (fun _ => True)) in Hrun; [tauto | | assumption].
  intros q w ret _ _ _. split; [apply u32_range | exact Logic.I].
Qed.

Lemma map_loop_slots fuel bound step psize top prot new p v err s p' v' err' s' :
  map_loop fuel bound step psize top prot new p v err s = Some (p', v', err', s') ->
  slots_kept s s'.
Proof.
  apply (map_loop_preserves slots_kept).
  - unfold slots_kept. auto.
  - unfold slots_kept. auto.
  - intros va pa s0. apply install_call_tables.
Qed.

Lemma new_loop_facts fuel bound step psize top prot p v err s p' v' s' :
  map_loop fuel bound step psize top prot true p v err s = Some (p', v', 0, s') ->
  0 <= v ->
  exists evs,
    loop_run bound step psize top prot true p v err evs p' v' 0 /\
    Forall (call_slot_populated s') evs /\
    slots_kept s s' /\ err = 0 /\ 0 <= v'.
Proof.
  intros Hl Hv.
  destruct (map_loop_run _ _ _ _ _ _ _ _ _ _ _ _ _ _ _ Hl) as (evs & Ht & Hrun & _).
  destruct (map_loop_populates _ _ _ _ _ _ _ _ _ _ _ _ _ Hl) as (evs' & Ht' & Hpop).
  rewrite Ht in Ht'. apply app_inv_head in Ht'. subst evs'.
  exists evs. split; [assumption|]. split; [assumption|].
  split; [eapply map_loop_slots; eassumption|].
  split; [now apply (loop_run_ok _ _ _ _ _ _ _ _ _ _ _ _ _ Hrun)|].
  eapply loop_run_va_nonneg; eassumption.
Qed.

(** Re-protecting a range goes through where a new-mode call on the same
    range has succeeded, in any state that has kept the slots populated. *)
Lemma chunk_reprotect_after_new offset top protN prot sN sN' sR err sR' :
  mmu_mapin_ram_chunk offset top protN true sN = Some (0, sN') ->
  ptrs_ok sR -> slots_kept sN' sR ->
  mmu_mapin_ram_chunk offset top prot false sR = Some (err, sR') ->
  err = 0 /\ same_tables sR sR'.
Proof.
  unfold mmu_mapin_ram_chunk. intros HN Hok Hkept HR.
  assert (0 <= u32 (PAGE_OFFSET + offset)) as Hv0 by apply u32_range.
  (* the new-mode call, loop by loop *)
  destruct (map_loop loop_fuel (fun p => ALIGN p SZ_8M) SZ_512K MMU_PAGE_512K top protN true
              offset (u32 (PAGE_OFFSET + offset)) 0 sN)
    as [[[[p1 v1] err1] sa]|] eqn:N1; [|discriminate]. simpl in HN.
  destruct (map_loop loop_fuel (fun _ => ALIGN_DOWN top SZ_8M) SZ_8M MMU_PAGE_8M top protN true
              p1 v1 err1 sa)
    as [[[[p2 v2] err2] sb]|] eqn:N2; [|discriminate]. simpl in HN.
  destruct (map_loop loop_fuel (fun _ => ALIGN_DOWN top SZ_512K) SZ_512K MMU_PAGE_512K top protN true
              p2 v2 err2 sb)
    as [[[[p3 v3] err3] sc]|] eqn:N3; [|discriminate]. simpl in HN.
  injection HN as -> ->.
  assert (err2 = 0) as ->.
  { destruct (map_loop_run _ _ _ _ _ _ _ _ _ _ _ _ _ _ _ N3) as (? & _ & Hrun & _).
    now apply (loop_run_ok _ _ _ _ _ _ _ _ _ _ _ _ _ Hrun). }
  assert (err1 = 0) as ->.
  { destruct (map_loop_run _ _ _ _ _ _ _ _ _ _ _ _ _ _ _ N2) as (? & _ & Hrun & _).
    now apply (loop_run_ok _ _ _ _ _ _ _ _ _ _ _ _ _ Hrun). }
  destruct (new_loop_facts _ _ _ _ _ _ _ _ _ _ _ _ _ N1 Hv0) as (e1 & R1 & P1 & K1 & _ & Hv1).
  destruct (new_loop_facts _ _ _ _ _ _ _ _ _ _ _ _ _ N2 Hv1) as (e2 & R2 & P2 & K2 & _ & Hv2).
  destruct (new_loop_facts _ _ _ _ _ _ _ _ _ _ _ _ _ N3 Hv2) as (e3 & R3 & P3 & K3 & _ & Hv3).
  assert (slots_kept sb sR) as Kb by (intros slot H; apply Hkept, K3, H).
  assert (slots_kept sa sR) as Ka by (intros slot H; apply Kb, K2, H).
  apply (populated_kept _ _ _ Ka) in P1.
  apply (populated_kept _ _ _ Kb) in P2.
  apply (populated_kept _ _ _ Hkept) in P3.
  (* the re-protect call, loop by loop *)
  destruct (map_loop loop_fuel (fun p => ALIGN p SZ_8M) SZ_512K MMU_PAGE_512K top prot false
              offset (u32 (PAGE_OFFSET + offset)) 0 sR)
    as [[[[q1 w1] f1] ta]|] eqn:M1; [|discriminate]. simpl in HR.
  destruct (reprotect_mirrors _ _ _ _ _ _ _ _ _ _ _ _ _ _ (or_introl eq_refl) R1 eq_refl
              _ _ _ _ _ _ Hok Hv0 P1 M1) as (-> & -> & -> & Sa).
  assert (slots_kept sR ta) as Kta
    by (intros slot H; unfold pmd_val; destruct Sa as (-> & _); exact H).
  destruct (map_loop loop_fuel (fun _ => ALIGN_DOWN top SZ_8M) SZ_8M MMU_PAGE_8M top prot false
              p1 v1 0 ta)
    as [[[[q2 w2] f2] tb]|] eqn:M2; [|discriminate]. simpl in HR.
  destruct (reprotect_mirrors _ _ _ _ _ _ _ _ _ _ _ _ _ _ (or_intror eq_refl) R2 eq_refl
              _ _ _ _ _ _ (ptrs_ok_same_tables _ _ Sa Hok) Hv1
              (populated_kept _ _ _ Kta P2) M2) as (-> & -> & -> & Sb).
  assert (same_tables sR tb) as Sab by (unfold same_tables in *; intuition congruence).
  assert (slots_kept sR tb) as Ktb
    by (intros slot H; unfold pmd_val; destruct Sab as (-> & _); exact H).
  destruct (map_loop loop_fuel (fun _ => ALIGN_DOWN top SZ_512K) SZ_512K MMU_PAGE_512K top prot false
              p2 v2 0 tb)
    as [[[[q3 w3] f3] tc]|] eqn:M3; [|discriminate]. simpl in HR.
  destruct (reprotect_mirrors _ _ _ _ _ _ _ _ _ _ _ _ _ _ (or_introl eq_refl) R3 eq_refl
              _ _ _ _ _ _ (ptrs_ok_same_tables _ _ Sab Hok) Hv2
              (populated_kept _ _ _ Ktb P3) M3) as (-> & -> & -> & Sc).
  injection HR as <- <-. split; [reflexivity|].
  unfold same_tables in *. simpl. intuition congruence.
Qed.

(** X15. Where a new-mode call of the range mapper has succeeded on a range,
    a re-protect call on the same range succeeds, in the state the first
    call has left or in any later state in which the slots it found
    populated still are, with pointers that are not negative: it returns 0
    and leaves the directory and the allocator as they were. *)
Theorem mmu_mapin_ram_chunk_reprotect_after_new offset top protN prot sN sN' sR :
  is_ulong offset -> is_ulong top ->
  mmu_mapin_ram_chunk offset top protN true sN = Some (0, sN') ->
  ptrs_ok sR -> slots_kept sN' sR ->
  exists sR',
    mmu_mapin_ram_chunk offset top prot false sR = Some (0, sR') /\
    same_tables sR sR'.
Proof.
  intros Ho Ht HN Hok Hkept.
  destruct (mmu_mapin_ram_chunk_total offset top prot false sR Ho Ht) as (err & sR' & HR).
  destruct (chunk_reprotect_after_new _ _ _ _ _ _ _ _ _ HN Hok Hkept HR) as [-> Hst].
  eauto.
Qed.

(** X16. Outside the debug mode, when [mmu_mapin_ram] has returned and all
    the installer calls it has made have returned 0, [mmu_mark_initmem_nx]
    on the state it has left returns 0: every entry it re-protects is
    there. *)
Theorem mmu_mark_initmem_nx_after_boot base top s s1 evs :
  debug_pagealloc_enabled_or_kfence = false ->
  is_ulong top -> ptrs_ok s ->
  mmu_mapin_ram base top s = Some (top, s1) ->
  trace s1 = trace s ++ evs ->
  Forall (fun r => r = 0) (rets evs) ->
  exists s2, mmu_mark_initmem_nx s1 = Some (0, s2) /\ same_tables s1 s2.
Proof.
  intros Hdbg Ht Hok Hboot Htr Hall.
  unfold mmu_mapin_ram in Hboot. fold ram_boundary in Hboot. fold einittext8 in Hboot.
  destruct (mmu_mapin_immr_frame s) as (ie & Hti & _).
  assert (ptrs_ok (mmu_mapin_immr s)) as Hok0.
  { unfold mmu_mapin_immr. destruct (immr_is_mapped s); [assumption|].
    apply (install_call_ptrs VIRT_IMMR_BASE PHYS_IMMR_BASE PAGE_KERNEL_NCG MMU_PAGE_512K true
             (set_immr_is_mapped true s)). exact Hok. }
  destruct (mmu_mapin_ram_chunk 0 ram_boundary PAGE_KERNEL_TEXT true (mmu_mapin_immr s))
    as [[r1 sa]|] eqn:Hc1; [|discriminate]. simpl in Hboot. rewrite Hdbg in Hboot.
  destruct (mmu_mapin_ram_chunk ram_boundary einittext8 PAGE_KERNEL_TEXT true sa)
    as [[r2 sb]|] eqn:Hc2; [|discriminate]. simpl in Hboot.
  destruct (mmu_mapin_ram_chunk einittext8 top PAGE_KERNEL true sb)
    as [[r3 sc]|] eqn:Hc3; [|discriminate]. simpl in Hboot.
  injection Hboot as <-.
  destruct (chunk_call_shape _ _ _ _ _ _ _ Hc1) as (m1 & w1 & Hm1 & _).
  destruct (chunk_call_shape _ _ _ _ _ _ _ Hc2) as (m2 & w2 & Hm2 & _ & n2 & Hn2).
  destruct (chunk_call_shape _ _ _ _ _ _ _ Hc3) as (m3 & w3 & Hm3 & _).
  simpl in Hm1, Hm2, Hm3. rewrite app_nil_r in Hm1, Hm2, Hm3.
  (* the second segment has succeeded *)
  assert (r2 = 0) as ->.
  { apply (rets_all_zero m2 n2); [assumption|].
    assert (exists tl, evs = ie ++ m1 ++ m2 ++ tl) as [tl ->].
    { exists (m3 ++ if SZ_32M <? top then [EvSetLimit top] else []).
      apply (app_inv_head (trace s)). rewrite <- Htr.
      destruct (SZ_32M <? top); simpl; rewrite Hm3, Hm2, Hm1, Hti, <- ?app_assoc, ?app_nil_r;
        reflexivity. }
    rewrite !rets_app in Hall.
    apply Forall_app in Hall as [_ Hall]. apply Forall_app in Hall as [_ Hall].
    now apply Forall_app in Hall as [Hall _]. }
  (* the state the boot has left *)
  set (s1 := set_block_mapped_ram top
               (if SZ_32M <? top then memblock_set_current_limit top sc else sc)) in *.
  assert (slots_kept sb s1) as Hkept.
  { intros slot H. apply (chunk_call_slots _ _ _ _ _ _ _ Hc3) in H.
    unfold s1. destruct (SZ_32M <? top); exact H. }
  assert (ptrs_ok s1) as Hok1.
  { apply (chunk_call_ptrs _ _ _ _ _ _ _ Hc1) in Hok0.
    apply (chunk_call_ptrs _ _ _ _ _ _ _ Hc2) in Hok0.
    apply (chunk_call_ptrs _ _ _ _ _ _ _ Hc3) in Hok0.
    unfold s1. destruct (SZ_32M <? top); exact Hok0. }
  (* the re-protection *)
  assert (nx_boundary = ram_boundary) as Hnb
    by (unfold nx_boundary, ram_boundary; now rewrite Hdbg, orb_false_r).
  destruct (mmu_mapin_ram_chunk_total ram_boundary einittext8 PAGE_KERNEL false s1
              ram_boundary_range einittext8_range) as (err & sR' & HR).
  destruct (chunk_reprotect_after_new _ _ _ _ _ _ _ _ _ Hc2 Hok1 Hkept HR) as [-> Hst].
  unfold mmu_mark_initmem_nx. fold nx_boundary. fold einittext8.
  rewrite Hdbg, Hnb. simpl. rewrite HR. simpl.
  eexists. split; [reflexivity|]. exact Hst.
Qed.

(** X17. When the strict boundary is in force (strict protection or the
    debug mode), after a [mmu_mapin_ram] whose installer calls have all
    returned 0, [mmu_mark_rodata_ro] on the state it has left returns 0:
    the range from 0 to the start of the init text that it re-protects is
    the first segment the boot has mapped. *)
Theorem mmu_mark_rodata_ro_after_boot base top s ret s1 evs :
  strict_kernel_rwx_enabled || debug_pagealloc_enabled_or_kfence = true ->
  is_ulong top -> ptrs_ok s ->
  mmu_mapin_ram base top s = Some (ret, s1) ->
  trace s1 = trace s ++ evs ->
  Forall (fun r => r = 0) (rets evs) ->
  exists s2, mmu_mark_rodata_ro s1 = Some (0, s2) /\ same_tables s1 s2.
Proof.
  intros Hstrict Ht Hok Hboot Htr Hall.
  unfold mmu_mapin_ram in Hboot. fold ram_boundary in Hboot. fold einittext8 in Hboot.
  assert (ram_boundary = __pa _sinittext) as Hrb by (unfold ram_boundary; now rewrite Hstrict).
  destruct (mmu_mapin_immr_frame s) as (ie & Hti & _).
  assert (ptrs_ok (mmu_mapin_immr s)) as Hok0.
  { unfold mmu_mapin_immr. destruct (immr_is_mapped s); [assumption|].
    apply (install_call_ptrs VIRT_IMMR_BASE PHYS_IMMR_BASE PAGE_KERNEL_NCG MMU_PAGE_512K true
             (set_immr_is_mapped true s)). exact Hok. }
  destruct (mmu_mapin_ram_chunk 0 ram_boundary PAGE_KERNEL_TEXT true (mmu_mapin_immr s))
    as [[r1 sa]|] eqn:Hc1; [|discriminate]. simpl in Hboot.
  destruct (chunk_call_shape _ _ _ _ _ _ _ Hc1) as (m1 & w1 & Hm1 & _ & n1 & Hn1).
  simpl in Hm1. rewrite app_nil_r in Hm1.
  assert (exists sz, slots_kept sa sz /\ (ptrs_ok sa -> ptrs_ok sz) /\
                     pgdir s1 = pgdir sz /\ memblock s1 = memblock sz /\
                     exists tl, trace s1 = trace sa ++ tl) as (sz & Hkz & Hpz & Hd1 & Hm1' & tl & Htl).
  { destruct debug_pagealloc_enabled_or_kfence.
    - simpl in Hboot. injection Hboot as <- <-.
      exists sa. split; [unfold slots_kept; auto|]. split; [auto|].
      destruct (SZ_32M <? ram_boundary); simpl; repeat split; eauto using app_nil_r.
    - destruct (mmu_mapin_ram_chunk ram_boundary einittext8 PAGE_KERNEL_TEXT true sa)
        as [[r2 sb]|] eqn:Hc2; [|discriminate]. simpl in Hboot.
      destruct (mmu_mapin_ram_chunk einittext8 top PAGE_KERNEL true sb)
        as [[r3 sc]|] eqn:Hc3; [|discriminate]. simpl in Hboot.
      injection Hboot as <- <-.
      destruct (chunk_call_frame _ _ _ _ _ _ _ Hc2) as (t2 & Ht2 & _).
      destruct (chunk_call_frame _ _ _ _ _ _ _ Hc3) as (t3 & Ht3 & _).
      exists sc. split.
      { intros slot H. apply (chunk_call_slots _ _ _ _ _ _ _ Hc3).
        now apply (chunk_call_slots _ _ _ _ _ _ _ Hc2). }
      split.
      { intros H. apply (chunk_call_ptrs _ _ _ _ _ _ _ Hc3).
        now apply (chunk_call_ptrs _ _ _ _ _ _ _ Hc2). }
      destruct (SZ_32M <? top); simpl; repeat split.
      + exists (t2 ++ t3 ++ [EvSetLimit top]). rewrite Ht3, Ht2, <- !app_assoc. reflexivity.
      + exists (t2 ++ t3). rewrite Ht3, Ht2, <- !app_assoc. reflexivity. }
  assert (r1 = 0) as ->.
  { apply (rets_all_zero m1 n1); [assumption|].
    assert (evs = ie ++ m1 ++ tl) as ->.
    { apply (app_inv_head (trace s)). rewrite <- Htr, Htl, Hm1, Hti, <- !app_assoc.
      reflexivity. }
    rewrite !rets_app in Hall.
    apply Forall_app in Hall as [_ Hall]. now apply Forall_app in Hall as [Hall _]. }
  assert (slots_kept sa s1) as Hkept.
  { intros slot H. apply Hkz in H. unfold pmd_val in *. now rewrite Hd1. }
  assert (ptrs_ok s1) as Hok1.
  { apply (chunk_call_ptrs _ _ _ _ _ _ _ Hc1) in Hok0. apply Hpz in Hok0.
    destruct Hok0 as (Hsz & Hsl & Hmem). unfold ptrs_ok, pmd_val in *.
    rewrite Hd1, Hm1'. auto. }
  assert (is_ulong 0) as Hz by (word_consts; lia).
  destruct (mmu_mapin_ram_chunk_total 0 ram_boundary PAGE_KERNEL_ROX false s1
              Hz ram_boundary_range) as (err & sR' & HR).
  destruct (chunk_reprotect_after_new _ _ _ _ _ _ _ _ _ Hc1 Hok1 Hkept HR) as [-> Hst].
  unfold mmu_mark_rodata_ro. rewrite <- Hrb, HR. simpl.
  eexists. split; [reflexivity|].
  destruct CONFIG_PIN_TLB_DATA; exact Hst.
Qed.

(** ** The boot and the translations *)

Lemma mmu_mapin_ram_top base top s :
  is_ulong top ->
  exists s',
    mmu_mapin_ram base top s =
      Some (if debug_pagealloc_enabled_or_kfence then __pa _sinittext else top, s') /\
    block_mapped_ram s' =
      (if debug_pagealloc_enabled_or_kfence then __pa _sinittext else top).
Proof.
  intros Ht. unfold mmu_mapin_ram. fold ram_boundary. fold einittext8.
  assert (is_ulong 0) as Hz by (word_consts; lia).
  destruct (mmu_mapin_ram_chunk_total 0 ram_boundary PAGE_KERNEL_TEXT true (mmu_mapin_immr s)
              Hz ram_boundary_range) as (r1 & s1 & Hc1).
  rewrite Hc1. simpl. destruct debug_pagealloc_enabled_or_kfence eqn:Hdbg.
  - assert (ram_boundary = __pa _sinittext) as ->
      by (unfold ram_boundary; now rewrite Hdbg, orb_true_r).
    simpl. eexists. split; reflexivity.
  - destruct (mmu_mapin_ram_chunk_total ram_boundary einittext8 PAGE_KERNEL_TEXT true s1
                ram_boundary_range einittext8_range) as (r2 & s2 & Hc2).
    rewrite Hc2. simpl.
    destruct (mmu_mapin_ram_chunk_total einittext8 top PAGE_KERNEL true s2
                einittext8_range Ht) as (r3 & s3 & Hc3).
    rewrite Hc3. simpl. eexists. split; reflexivity.
Qed.

(** X18. Once [mmu_mapin_ram] has returned [ret], the translations take
    the RAM below [ret] for mapped and nothing above it: outside the
    register window, a physical address below [ret] goes to [PAGE_OFFSET]
    plus that address and any other to 0, and a virtual address from
    [PAGE_OFFSET] to [PAGE_OFFSET + ret] goes to its offset from
    [PAGE_OFFSET] and any other to 0; this whether the installer calls of
    the boot have succeeded or not. *)
Theorem mmu_mapin_ram_opens_ram_window base top s :
  is_ulong top ->
  exists ret s',
    mmu_mapin_ram base top s = Some (ret, s') /\
    ret = (if debug_pagealloc_enabled_or_kfence then __pa _sinittext else top) /\
    (forall pa, in_phys_immr pa = false ->
       p_block_mapped s' pa = if pa <? ret then u32 (pa + PAGE_OFFSET) else 0) /\
    (forall va, in_virt_immr va = false ->
       v_block_mapped s' va =
         if (PAGE_OFFSET <=? va) && (va <? u32 (PAGE_OFFSET + ret))
         then u32 (va - PAGE_OFFSET) else 0).
Proof.
  intros Ht. destruct (mmu_mapin_ram_top base top s Ht) as (s' & Hboot & Hb).
  eexists. exists s'. split; [exact Hboot|]. split; [reflexivity|]. split.
  - intros pa Hin. unfold p_block_mapped. unfold in_phys_immr in Hin.
    rewrite Hin, Hb. reflexivity.
  - intros va Hin. unfold v_block_mapped. unfold in_virt_immr in Hin.
    rewrite Hin, Hb. reflexivity.
Qed.

(** ** The codes of the installer calls of a call of the range mapper *)

Lemma chunk_call_codes offset top prot new s err s' evs :
  mmu_mapin_ram_chunk offset top prot new s = Some (err, s') ->
  trace s' = trace s ++ evs ->
  err = 0 <-> Forall (fun r => r = 0) (rets evs).
Proof.
  intros Hc Htr.
  destruct (chunk_call_shape _ _ _ _ _ _ _ Hc) as (mapevs & v & Htr' & _ & n & Hn).
  rewrite Htr in Htr'. apply app_inv_head in Htr'. subst evs.
  rewrite rets_app, rets_flush, app_nil_r. split.
  - intros ->. rewrite Hn. unfold tail_code. simpl. rewrite app_nil_r.
    clear. induction n as [|k IH]; simpl; constructor; [reflexivity | exact IH].
  - intros Hall. eapply rets_all_zero; eassumption.
Qed.

(** C1. For 512 KB-aligned [offset < top], a call of the range mapper
    returns; it returns 0 exactly when no install has failed, that is when
    every installer call it has made has returned 0; and then the chunks it
    has installed tile the range: physically they go from [offset] to
    [top], each starting where the one before ends, each of 512 KB or 8 MB,
    each at the virtual address [PAGE_OFFSET] plus its physical address
    (modulo [2^32]); so every address of the range is in one chunk and in
    one only, and when the virtual range does not wrap around the top of
    the address space the chunks tile [PAGE_OFFSET + offset,
    PAGE_OFFSET + top) in the same way: contiguous, in increasing order,
    every virtual address of the range in one chunk and in one only. *)
Theorem mmu_mapin_ram_chunk_tiles offset top prot new s :
  is_ulong PAGE_OFFSET -> is_ulong offset -> is_ulong top ->
  IS_ALIGNED offset SZ_512K = true -> IS_ALIGNED top SZ_512K = true ->
  offset < top ->
  exists err s' evs,
    mmu_mapin_ram_chunk offset top prot new s = Some (err, s') /\
    trace s' = trace s ++ evs /\
    (err = 0 <-> Forall (fun r => r = 0) (rets evs)) /\
    (Forall (fun r => r = 0) (rets evs) ->
     tiles c_pa (chunks_of evs) offset top /\
     Forall (chunk_within offset top) (chunks_of evs) /\
     (forall x, offset <= x < top <->
                exists c, c ∈ chunks_of evs /\ covers c_pa c x) /\
     (forall (i j : nat) ci cj x,
        chunks_of evs !! i = Some ci -> chunks_of evs !! j = Some cj ->
        covers c_pa ci x -> covers c_pa cj x -> i = j) /\
     (PAGE_OFFSET + top <= 2 ^ 32 ->
      tiles c_va (chunks_of evs) (PAGE_OFFSET + offset) (PAGE_OFFSET + top) /\
      (forall x, PAGE_OFFSET + offset <= x < PAGE_OFFSET + top <->
                 exists c, c ∈ chunks_of evs /\ covers c_va c x) /\
      (forall (i j : nat) ci cj x,
         chunks_of evs !! i = Some ci -> chunks_of evs !! j = Some cj ->
         covers c_va ci x -> covers c_va cj x -> i = j))).
Proof.
  intros Hpo Ho Ht Hao Hat Hlt.
  apply IS_ALIGNED_512K in Hao, Hat.
  destruct (mmu_mapin_ram_chunk_total offset top prot new s Ho Ht) as (err & s' & Hc).
  exists err, s'.
  destruct (mmu_mapin_ram_chunk_runs _ _ _ _ _ _ _ Hc)
    as (e1 & e2 & e3 & p1 & v1 & err1 & p2 & v2 & err2 & p3 & v3 & H1 & H2 & H3 & Htr & _).
  exists ((e1 ++ e2 ++ e3) ++ flush_events new v3 top).
  split; [assumption|]. split; [assumption|].
  pose proof (chunk_call_codes _ _ _ _ _ _ _ _ Hc Htr) as Hcodes.
  split; [exact Hcodes|]. intros He. apply Hcodes in He. clear Hcodes.
  destruct (loop_run_ok _ _ _ _ _ _ _ _ _ _ _ _ _ H3 He) as [He2 _].
  destruct (loop_run_ok _ _ _ _ _ _ _ _ _ _ _ _ _ H2 He2) as [He1 _].
  (* the three runs *)
  destruct (loop_run_chunks _ _ _ _ _ _ _ _ _ _ _ _ _ psize_bytes_512K
              (or_introl eq_refl) bound_ALIGN_8M H1)
    as (_ & Hf1 & Hle1 & Ht1 & Hw1); [split; [assumption | reflexivity] | assumption |].
  destruct (loop_run_chunks _ _ _ _ _ _ _ _ _ _ _ _ _ psize_bytes_8M
              (or_intror eq_refl) (fun q => bound_ALIGN_DOWN_8M top q Ht) H2)
    as (_ & Hf2 & Hle2 & Ht2 & Hw2); [assumption | assumption |].
  destruct (loop_run_chunks _ _ _ _ _ _ _ _ _ _ _ _ _ psize_bytes_512K
              (or_introl eq_refl) (fun q => bound_ALIGN_DOWN_512K top q Ht) H3)
    as (_ & Hf3 & Hle3 & Ht3 & Hw3); [assumption | assumption |].
  (* where they stop *)
  destruct (small_loop_inv _ _ _ _ _ _ _ _ _ _ _ _ bound_ALIGN_8M Hat H1 Ho Hao)
    as [Ha1 Hb1]; [lia|].
  apply loop_run_exit in H1 as Hx1. subst err1. rewrite andb_true_r in Hx1.
  destruct (second_loop_legal _ _ _ _ _ _ _ _ _ _ Ht H2 Hf1) as [(_ & _ & Ha2 & Hb2) _].
  { intros Hlt8. apply (first_loop_exit_aligned p1 top); try assumption. apply Hf1. }
  specialize (Hb2 Hb1). rewrite Ha1 in Ha2.
  destruct (small_loop_inv _ _ _ _ _ _ _ _ _ _ _ _
              (fun q => bound_ALIGN_DOWN_512K top q Ht) Hat H3 (proj1 Hf2) Ha2 Hb2)
    as [Ha3 Hb3].
  apply loop_run_exit in H3 as Hx3. subst err. rewrite andb_true_r in Hx3.
  assert (p3 = top) as ->.
  { rewrite ALIGN_DOWN_512K in Hx3. revert Hx3. split_tests; intros; try discriminate; word_lia. }
  (* the chunks of the call *)
  rewrite !chunks_of_app, chunks_of_flush, app_nil_r.
  assert (tiles c_pa (chunks_of e1 ++ chunks_of e2 ++ chunks_of e3) offset top) as Htiles.
  { eapply tiles_app; [eassumption|]. eapply tiles_app; eassumption. }
  assert (Forall (chunk_within offset top)
                 (chunks_of e1 ++ chunks_of e2 ++ chunks_of e3)) as Hwithin.
  { repeat (apply Forall_app; split).
    - eapply chunk_within_weaken; [| | exact Hw1]; lia.
    - eapply chunk_within_weaken; [| | exact Hw2]; lia.
    - eapply chunk_within_weaken; [| | exact Hw3]; lia. }
  assert (Forall (fun c => 0 < c_size c)
                 (chunks_of e1 ++ chunks_of e2 ++ chunks_of e3)) as Hpos.
  { eapply Forall_impl; [exact Hwithin|]. intros c (_ & [-> | ->] & _); word_lia. }
  split; [assumption|]. split; [assumption|].
  split; [apply (tiles_cover c_pa _ _ _ Hpos Htiles)|].
  split; [apply (tiles_disjoint c_pa _ _ _ Hpos Htiles)|].
  intros Hnw.
  assert (tiles c_va (chunks_of e1 ++ chunks_of e2 ++ chunks_of e3)
                (PAGE_OFFSET + offset) (PAGE_OFFSET + top)) as Hv.
  { apply tiles_shift; [|assumption].
    eapply Forall_impl; [exact Hwithin|]. intros c (-> & Hs & Hlo & Hhi).
    apply u32_small. destruct Hs as [Hs | Hs]; rewrite Hs in Hhi; word_lia. }
  split; [assumption|].
  split; [apply (tiles_cover c_va _ _ _ Hpos Hv) | apply (tiles_disjoint c_va _ _ _ Hpos Hv)].
Qed.

(** C6. [mmu_mapin_ram_chunk(0x80000, 0x800000, ...)] returns; none of its
    installer calls is an 8 MB one; it returns 0 exactly when every
    installer call it has made has returned 0; and then it has installed
    fifteen chunks of 512 KB, the first at 512 KB and each next one 512 KB
    further, up to 8 MB. *)
Theorem mmu_mapin_ram_chunk_unaligned_head prot new s :
  exists err s' evs,
    mmu_mapin_ram_chunk 0x80000 0x800000 prot new s = Some (err, s') /\
    trace s' = trace s ++ evs /\
    Forall (only_psize MMU_PAGE_512K) evs /\
    (err = 0 <-> Forall (fun r => r = 0) (rets evs)) /\
    (Forall (fun r => r = 0) (rets evs) ->
     chunks_of evs =
       run_chunks (fun pa => u32 (PAGE_OFFSET + pa)) SZ_512K 0x80000 15).
Proof.
  assert (is_ulong 0x80000) as Ho by (word_consts; lia).
  assert (is_ulong 0x800000) as Ht by (word_consts; lia).
  destruct (mmu_mapin_ram_chunk_total 0x80000 0x800000 prot new s Ho Ht) as (err & s' & Hc).
  exists err, s'.
  destruct (mmu_mapin_ram_chunk_runs _ _ _ _ _ _ _ Hc)
    as (e1 & e2 & e3 & p1 & v1 & err1 & p2 & v2 & err2 & p3 & v3 & H1 & H2 & H3 & Htr & _).
  exists ((e1 ++ e2 ++ e3) ++ flush_events new v3 0x800000).
  split; [assumption|]. split; [assumption|].
  pose proof (chunk_call_codes _ _ _ _ _ _ _ _ Hc Htr) as Hcodes.
  (* the first loop stops at 8 MB, or on an error *)
  assert (0x800000 mod 524288 = 0) as Hat by reflexivity.
  assert (0x80000 mod 524288 = 0) as Hao by reflexivity.
  destruct (small_loop_inv _ _ _ _ _ _ _ _ _ _ _ _ bound_ALIGN_8M Hat H1 Ho Hao)
    as [Ha1 Hb1]; [lia|].
  assert (0x80000 <= p1) as Hlo1.
  { apply (loop_run_inv (fun q _ => 0x80000 <= q < 2 ^ 32) (fun _ => True)) in H1;
      [lia | | lia].
    intros q w ret Hq Hg _. pose proof (bound_ALIGN_8M q) as Hnw.
    split; [|exact Logic.I]. rewrite u32_small; word_lia. }
  apply loop_run_exit in H1 as Hx1.
  assert (err1 <> 0 \/ p1 = 0x800000) as Hstop.
  { destruct (Z.eqb_spec err1 0) as [->|]; [right | now left].
    rewrite andb_true_r, ALIGN_8M in Hx1. revert Hx1.
    split_tests; intros; try discriminate; word_lia. }
  (* so the other two loops do not run *)
  assert ((p1 <? ALIGN_DOWN 0x800000 SZ_8M) && (p1 <? 0x800000) && (err1 =? 0) = false) as Hg2.
  { destruct Hstop as [He | ->]; [|reflexivity].
    apply Z.eqb_neq in He. rewrite He. apply andb_false_r. }
  destruct (loop_run_stuck _ _ _ _ _ _ _ _ _ _ _ _ _ H2 Hg2) as (-> & -> & -> & ->).
  assert ((p1 <? ALIGN_DOWN 0x800000 SZ_512K) && (p1 <? 0x800000) && (err1 =? 0) = false) as Hg3.
  { destruct Hstop as [He | ->]; [|reflexivity].
    apply Z.eqb_neq in He. rewrite He. apply andb_false_r. }
  destruct (loop_run_stuck _ _ _ _ _ _ _ _ _ _ _ _ _ H3 Hg3) as (-> & -> & -> & ->).
  split; [|split].
  - repeat (apply Forall_app; split); try constructor.
    + eapply loop_run_only_psize; eassumption.
    + unfold flush_events. destruct new; repeat constructor.
  - exact Hcodes.
  - intros Hall. apply Hcodes in Hall. clear Hcodes. revert Hall. intros ->.
    destruct Hstop as [He | ->]; [congruence|].
    rewrite !chunks_of_app, chunks_of_flush, !app_nil_r.
    destruct (loop_run_tiles _ _ _ _ _ _ psize_bytes_512K eq_refl bound_ALIGN_8M
                _ _ _ _ _ _ _ H1 Ho eq_refl eq_refl) as (Ht1 & _ & _ & _ & Hall).
    destruct (tiles_uniform (fun pa => u32 (PAGE_OFFSET + pa)) SZ_512K _ _ _ Ht1)
      as [Hcs Hlen].
    { eapply Forall_impl; [exact Hall|]. simpl. tauto. }
    assert (length (chunks_of e1) = 15%nat) as Hn by word_lia.
    rewrite Hcs, Hn. reflexivity.
Qed.

(** ** What the installer calls of the boot have seen *)

Lemma seen_unchanged_refl s : seen_unchanged s s.
Proof. split; [reflexivity|]. exists []. now rewrite !app_nil_r. Qed.

Lemma seen_unchanged_trans a b c :
  seen_unchanged a b -> seen_unchanged b c -> seen_unchanged a c.
Proof.
  intros (Hb1 & e1 & Ht1 & Hs1) (Hb2 & e2 & Ht2 & Hs2).
  split; [congruence|]. exists (e1 ++ e2).
  rewrite Ht2, Ht1, Hs2, Hs1, Hb1, length_app, repeat_app, <- !app_assoc. auto.
Qed.

Lemma seen_unchanged_emit e s : seen_unchanged s (emit e s).
Proof. split; [reflexivity|]. exists [e]. split; reflexivity. Qed.

Lemma seen_unchanged_log s s' evs :
  seen_unchanged s s' -> trace s' = trace s ++ evs ->
  ram_seen s' = ram_seen s ++ repeat (block_mapped_ram s) (length evs).
Proof.
  intros (_ & evs' & Ht & Hs) Htr. rewrite Ht in Htr. apply app_inv_head in Htr.
  now subst evs'.
Qed.

Lemma early_map_body_seen va pa prot psize new s :
  ram_seen (early_map_body va pa prot psize new s).2 = ram_seen s.
Proof.
  unfold early_map_body, early_pte_alloc_kernel, early_hugepd_alloc_kernel, memblock_alloc.
  repeat (match goal with
          | |- context [if ?b then _ else _] => destruct b
          | |- context [match ?l with [] => _ | _ => _ end] => destruct l
          end; simpl); auto.
Qed.

Lemma install_call_seen va pa prot psize new s :
  seen_unchanged s (__early_map_kernel_hugepage va pa prot psize new s).2.
Proof.
  destruct (__early_map_kernel_hugepage va pa prot psize new s) as [ret s'] eqn:Hc.
  pose proof (early_map_call _ _ _ _ _ _ _ _ Hc) as [Ht (Hb & _)].
  split; [exact Hb|]. exists [EvMap va pa prot psize new ret]. split; [exact Ht|].
  revert Hc. unfold __early_map_kernel_hugepage.
  pose proof (early_map_body_seen va pa prot psize new s) as Hs.
  pose proof (early_map_body_frame va pa prot psize new s) as [_ (Hb' & _)].
  destruct (early_map_body va pa prot psize new s) as [r s1]. simpl in *.
  intros [= <- <-]. simpl. now rewrite Hs, Hb'.
Qed.

Lemma chunk_call_seen offset top prot new s err s' :
  mmu_mapin_ram_chunk offset top prot new s = Some (err, s') -> seen_unchanged s s'.
Proof.
  intros Hc.
  apply (mmu_mapin_ram_chunk_preserves seen_unchanged offset top prot new s err s');
    [apply seen_unchanged_refl | apply seen_unchanged_trans | | | exact Hc].
  - intros va pa psize s0. apply install_call_seen.
  - intros e s0 _. apply seen_unchanged_emit.
Qed.

Lemma mmu_mapin_immr_seen s : seen_unchanged s (mmu_mapin_immr s).
Proof.
  unfold mmu_mapin_immr. destruct (immr_is_mapped s); [apply seen_unchanged_refl|].
  apply (install_call_seen VIRT_IMMR_BASE PHYS_IMMR_BASE PAGE_KERNEL_NCG MMU_PAGE_512K true
           (set_immr_is_mapped true s)).
Qed.

(** C8. [mmu_mapin_ram(base, top)] returns: in the debug (page-granular)
    mode the value returned is the boundary, which is the start of the init
    text, and no RAM entry installed by the call reaches beyond it;
    otherwise the value returned is [top].  On return [block_mapped_ram]
    holds the value returned, and it has been assigned last: every event of
    the call, the installer call for the register window, the installer
    calls for RAM and the raise of the allocator limit, has seen
    [block_mapped_ram] with the value it had when the call was made. *)
Theorem mmu_mapin_ram_sets_top_last base top s :
  is_ulong top ->
  let ret := if debug_pagealloc_enabled_or_kfence then __pa _sinittext else top in
  exists s' immr_evs ram_evs,
    mmu_mapin_ram base top s = Some (ret, s') /\
    block_mapped_ram s' = ret /\
    trace s' = trace s ++ immr_evs ++ ram_evs ++
               (if SZ_32M <? ret then [EvSetLimit ret] else []) /\
    ram_seen s' = ram_seen s ++
      repeat (block_mapped_ram s)
             (length (immr_evs ++ ram_evs ++
                      (if SZ_32M <? ret then [EvSetLimit ret] else []))) /\
    ((immr_is_mapped s = true /\ immr_evs = []) \/
     (immr_is_mapped s = false /\
      exists r, immr_evs = [EvMap VIRT_IMMR_BASE PHYS_IMMR_BASE PAGE_KERNEL_NCG
                                  MMU_PAGE_512K true r])) /\
    Forall (fun e => only_psize MMU_PAGE_512K e \/ only_psize MMU_PAGE_8M e) ram_evs /\
    (debug_pagealloc_enabled_or_kfence = true -> Forall (call_below ret) ram_evs).
Proof.
  intros Ht ret. unfold mmu_mapin_ram.
  destruct (mmu_mapin_immr_frame s) as (ie & Hti & Hbi & Hi1 & Hi2).
  pose proof (mmu_mapin_immr_seen s) as Hs0.
  set (s0 := mmu_mapin_immr s) in *.
  set (boundary := if strict_kernel_rwx_enabled || debug_pagealloc_enabled_or_kfence
                   then __pa _sinittext else ALIGN (__pa _etext) SZ_8M).
  assert (is_ulong boundary) as Hbd
    by (unfold boundary; destruct (_ || _); [apply __pa_range | apply ALIGN_range]).
  assert (is_ulong 0) as Hz by (word_consts; lia).
  destruct (mmu_mapin_ram_chunk_total 0 boundary PAGE_KERNEL_TEXT true s0 Hz Hbd)
    as (r1 & s1 & Hc1).
  rewrite Hc1. simpl.
  destruct (chunk_from_zero_below _ _ _ _ _ _ Hbd Hc1) as (ev1 & Ht1 & Hq1 & Hf1).
  destruct (reprotect_or_new_calls _ _ _ _ _ _ _ Hc1) as (ev1' & Ht1' & Hk1).
  assert (ev1' = ev1) as -> by (rewrite Ht1 in Ht1'; now apply app_inv_head in Ht1').
  pose proof (seen_unchanged_trans _ _ _ Hs0 (chunk_call_seen _ _ _ _ _ _ _ Hc1)) as Hs1.
  assert ((immr_is_mapped s = true /\ ie = []) \/
          (immr_is_mapped s = false /\
           exists r, ie = [EvMap VIRT_IMMR_BASE PHYS_IMMR_BASE PAGE_KERNEL_NCG
                                 MMU_PAGE_512K true r])) as Himmr
    by (destruct (immr_is_mapped s); [left | right]; auto).
  subst ret. destruct debug_pagealloc_enabled_or_kfence eqn:Hdbg.
  - (* debug: only the range below the boundary *)
    assert (boundary = __pa _sinittext) as Hb
      by (unfold boundary; now rewrite orb_true_r).
    simpl. rewrite Hb in *.
    destruct (SZ_32M <? __pa _sinittext) eqn:Hlim.
    + assert (trace (memblock_set_current_limit (__pa _sinittext) s1) =
              trace s ++ ie ++ ev1 ++ [EvSetLimit (__pa _sinittext)]) as Htr
        by (simpl; rewrite Ht1, Hti, <- !app_assoc; reflexivity).
      pose proof (seen_unchanged_trans _ _ _ Hs1
                    (seen_unchanged_emit (EvSetLimit (__pa _sinittext)) s1)) as Hs.
      eexists _, ie, ev1. split; [reflexivity|]. split; [reflexivity|].
      split; [exact Htr|]. split; [exact (seen_unchanged_log _ _ _ Hs Htr)|]. auto.
    + assert (trace s1 = trace s ++ ie ++ ev1 ++ []) as Htr
        by (rewrite Ht1, Hti, app_nil_r, <- !app_assoc; reflexivity).
      eexists _, ie, ev1. split; [reflexivity|]. split; [reflexivity|].
      split; [exact Htr|]. split; [exact (seen_unchanged_log _ _ _ Hs1 Htr)|]. auto.
  - (* otherwise: the init text and the rest of RAM as well *)
    assert (is_ulong (ALIGN (__pa _einittext) SZ_8M)) as He8 by apply ALIGN_range.
    destruct (mmu_mapin_ram_chunk_total boundary (ALIGN (__pa _einittext) SZ_8M)
                PAGE_KERNEL_TEXT true s1 Hbd He8) as (r2 & s2 & Hc2).
    rewrite Hc2. simpl.
    destruct (mmu_mapin_ram_chunk_total (ALIGN (__pa _einittext) SZ_8M) top
                PAGE_KERNEL true s2 He8 Ht) as (r3 & s3 & Hc3).
    rewrite Hc3. simpl.
    destruct (chunk_call_frame _ _ _ _ _ _ _ Hc2) as (ev2 & Ht2 & Hf2).
    destruct (chunk_call_frame _ _ _ _ _ _ _ Hc3) as (ev3 & Ht3 & Hf3).
    destruct (reprotect_or_new_calls _ _ _ _ _ _ _ Hc2) as (ev2' & Ht2' & Hk2).
    assert (ev2' = ev2) as -> by (rewrite Ht2 in Ht2'; now apply app_inv_head in Ht2').
    destruct (reprotect_or_new_calls _ _ _ _ _ _ _ Hc3) as (ev3' & Ht3' & Hk3).
    assert (ev3' = ev3) as -> by (rewrite Ht3 in Ht3'; now apply app_inv_head in Ht3').
    pose proof (seen_unchanged_trans _ _ _
                  (seen_unchanged_trans _ _ _ Hs1 (chunk_call_seen _ _ _ _ _ _ _ Hc2))
                  (chunk_call_seen _ _ _ _ _ _ _ Hc3)) as Hs3.
    assert (Forall (fun e => only_psize MMU_PAGE_512K e \/ only_psize MMU_PAGE_8M e)
                   (ev1 ++ ev2 ++ ev3)) as Hk
      by (repeat (apply Forall_app; split); assumption).
    destruct (SZ_32M <? top) eqn:Hlim.
    + assert (trace (memblock_set_current_limit top s3) =
              trace s ++ ie ++ (ev1 ++ ev2 ++ ev3) ++ [EvSetLimit top]) as Htr
        by (simpl; rewrite Ht3, Ht2, Ht1, Hti, <- !app_assoc; reflexivity).
      pose proof (seen_unchanged_trans _ _ _ Hs3
                    (seen_unchanged_emit (EvSetLimit top) s3)) as Hs.
      eexists _, ie, (ev1 ++ ev2 ++ ev3). split; [reflexivity|]. split; [reflexivity|].
      split; [exact Htr|]. split; [exact (seen_unchanged_log _ _ _ Hs Htr)|].
      repeat split; try assumption. discriminate.
    + assert (trace s3 = trace s ++ ie ++ (ev1 ++ ev2 ++ ev3) ++ []) as Htr
        by (rewrite Ht3, Ht2, Ht1, Hti, app_nil_r, <- !app_assoc; reflexivity).
      eexists _, ie, (ev1 ++ ev2 ++ ev3). split; [reflexivity|]. split; [reflexivity|].
      split; [exact Htr|]. split; [exact (seen_unchanged_log _ _ _ Hs3 Htr)|].
      repeat split; try assumption. discriminate.
Qed.

End Properties.

(** * The concrete board *)

(** C2. On the concrete board, re-protecting the mapped range from 8 MB to
    16 MB succeeds with one 8 MB entry at virtual address [0xC0800000], and
    the flush that ends the call is given the range from [0x81000000] to
    [0xC1000000]: its start is not the start [0xC0800000] of the range that
    was re-protected, so the range flushed is not exactly that range. *)
Theorem reprotect_flush_range_on_board :
  run_trace (mmu_mapin_ram_chunk 0x800000 0x1000000 PAGE_KERNEL false mapped_8M_state)
  = Some (0, trace mapped_8M_state ++
             [EvMap 0xC0800000 0x800000 PAGE_KERNEL MMU_PAGE_8M false 0;
              EvFlush 0x81000000 0xC1000000]) /\
  u32 (PAGE_OFFSET + 0x800000) = 0xC0800000 /\
  u32 (PAGE_OFFSET + 0x1000000) = 0xC1000000.
Proof. vm_compute. repeat split. Qed.

(** ** The translations on the board *)

Lemma board_layout_ok : layout_ok mapped_32M_state.
Proof. constructor; by_compute. left. intro; discriminate. Defined.

Example round_trip_on_board :
  p_block_mapped mapped_32M_state 0x1234567 = 0xC1234567 /\
  v_block_mapped mapped_32M_state 0xC1234567 = 0x1234567 /\
  p_block_mapped mapped_32M_state 0xFF000010 = 0xFFF00010 /\
  v_block_mapped mapped_32M_state 0xFFF00010 = 0xFF000010 /\
  v_block_mapped mapped_32M_state 0xC0000000 = 0 /\
  v_block_mapped mapped_32M_state 0xD0000000 = 0.
Proof. by_compute. Qed.

Lemma block_mapped_round_trip_witness :
  layout_ok mapped_32M_state /\
  (forall pa, is_ulong pa -> in_phys_immr pa || in_phys_ram mapped_32M_state pa = true ->
     v_block_mapped mapped_32M_state (p_block_mapped mapped_32M_state pa) = pa) /\
  (forall va, is_ulong va -> in_virt_immr va || in_virt_ram mapped_32M_state va = true ->
     p_block_mapped mapped_32M_state (v_block_mapped mapped_32M_state va) = va) /\
  (forall s' va, in_virt_immr va = true ->
     v_block_mapped s' va = u32 (u32 (PHYS_IMMR_BASE + va) - VIRT_IMMR_BASE)) /\
  (forall s' pa, in_phys_immr pa = true ->
     p_block_mapped s' pa = u32 (u32 (VIRT_IMMR_BASE + pa) - PHYS_IMMR_BASE)).
Proof.
  split; [exact board_layout_ok|].
  exact (block_mapped_round_trip mapped_32M_state board_layout_ok).
Defined.

Lemma block_mapped_zero_is_ambiguous_witness :
  0 < block_mapped_ram mapped_32M_state /\
  in_virt_ram mapped_32M_state PAGE_OFFSET = true /\
  v_block_mapped mapped_32M_state PAGE_OFFSET = 0 /\
  (forall va, in_virt_immr va = false -> in_virt_ram mapped_32M_state va = false ->
     v_block_mapped mapped_32M_state va = 0) /\
  (forall pa, in_phys_immr pa = false -> in_phys_ram mapped_32M_state pa = false ->
     p_block_mapped mapped_32M_state pa = 0).
Proof.
  assert (0 < block_mapped_ram mapped_32M_state) as Hpos by reflexivity.
  split; [exact Hpos|].
  exact (block_mapped_zero_is_ambiguous mapped_32M_state board_layout_ok Hpos).
Defined.

(** ** The range mapper on the board *)

Example chunks_4M_to_25M :
  run_trace (mmu_mapin_ram_chunk 0x400000 0x1900000 PAGE_KERNEL true boot_state)
  = Some (0,
      [EvMap 0xC0400000 0x400000 PAGE_KERNEL MMU_PAGE_512K true 0;
       EvMap 0xC0480000 0x480000 PAGE_KERNEL MMU_PAGE_512K true 0;
       EvMap 0xC0500000 0x500000 PAGE_KERNEL MMU_PAGE_512K true 0;
       EvMap 0xC0580000 0x580000 PAGE_KERNEL MMU_PAGE_512K true 0;
       EvMap 0xC0600000 0x600000 PAGE_KERNEL MMU_PAGE_512K true 0;
       EvMap 0xC0680000 0x680000 PAGE_KERNEL MMU_PAGE_512K true 0;
       EvMap 0xC0700000 0x700000 PAGE_KERNEL MMU_PAGE_512K true 0;
       EvMap 0xC0780000 0x780000 PAGE_KERNEL MMU_PAGE_512K true 0;
       EvMap 0xC0800000 0x800000 PAGE_KERNEL MMU_PAGE_8M true 0;
       EvMap 0xC1000000 0x1000000 PAGE_KERNEL MMU_PAGE_8M true 0;
       EvMap 0xC1800000 0x1800000 PAGE_KERNEL MMU_PAGE_512K true 0;
       EvMap 0xC1880000 0x1880000 PAGE_KERNEL MMU_PAGE_512K true 0]).
Proof. vm_compute. reflexivity. Qed.

Example chunks_0_to_9M :
  run_trace (mmu_mapin_ram_chunk 0 0x900000 PAGE_KERNEL true boot_state)
  = Some (0,
      [EvMap 0xC0000000 0 PAGE_KERNEL MMU_PAGE_8M true 0;
       EvMap 0xC0800000 0x800000 PAGE_KERNEL MMU_PAGE_512K true 0;
       EvMap 0xC0880000 0x880000 PAGE_KERNEL MMU_PAGE_512K true 0]).
Proof. vm_compute. reflexivity. Qed.


Lemma mmu_mapin_ram_chunk_sizes_witness :
  exists err s' evs,
    mmu_mapin_ram_chunk 0x400000 0x1900000 PAGE_KERNEL true boot_state = Some (err, s') /\
    trace s' = trace boot_state ++ evs /\
    Forall (legal_chunk PAGE_OFFSET) evs.
Proof.
  apply (mmu_mapin_ram_chunk_sizes 0x400000 0x1900000 PAGE_KERNEL true boot_state);
    by_compute.
Defined.

(** ** The initial mapping on the board *)

Example mmu_mapin_ram_32M :
  run_trace (mmu_mapin_ram 0 0x2000000 boot_state)
  = Some (0x2000000,
      [EvMap 0xFFF00000 0xFF000000 PAGE_KERNEL_NCG MMU_PAGE_512K true 0;
       EvMap 0xC0000000 0 PAGE_KERNEL_TEXT MMU_PAGE_8M true 0;
       EvMap 0xC0800000 0x800000 PAGE_KERNEL_TEXT MMU_PAGE_8M true 0;
       EvMap 0xC1000000 0x1000000 PAGE_KERNEL MMU_PAGE_8M true 0;
       EvMap 0xC1800000 0x1800000 PAGE_KERNEL MMU_PAGE_8M true 0]).
Proof. vm_compute. reflexivity. Qed.


(** ** The installer on the board *)

(** The protection asked for decides, not the one the entry has: a new-mode
    install with a null protection goes through on a present entry and
    overwrites it with an entry that is no longer present. *)
Lemma new_install_null_prot_overwrites :
  present_entry installed_512K_state 0xC0000000 MMU_PAGE_512K /\
  read_pte installed_512K_state (entry_at installed_512K_state 0xC0000000 MMU_PAGE_512K)
    = MkPte 0 PAGE_KERNEL true /\
  PAGE_KERNEL <> 0 /\
  (__early_map_kernel_hugepage 0xC0000000 0 0 MMU_PAGE_512K true installed_512K_state).1 = 0 /\
  read_pte
    (__early_map_kernel_hugepage 0xC0000000 0 0 MMU_PAGE_512K true installed_512K_state).2
    (entry_at installed_512K_state 0xC0000000 MMU_PAGE_512K)
    = MkPte 0 0 true.
Proof. by_compute. now left. Qed.

Example install_twice_then_reprotect :
  (__early_map_kernel_hugepage 0xC0000000 0 PAGE_KERNEL_TEXT MMU_PAGE_512K true
     installed_512K_state).1 = - EINVAL /\
  (__early_map_kernel_hugepage 0xC0000000 0 PAGE_KERNEL_ROX MMU_PAGE_512K false
     installed_512K_state).1 = 0 /\
  read_pte
    (__early_map_kernel_hugepage 0xC0000000 0 PAGE_KERNEL_ROX MMU_PAGE_512K false
       installed_512K_state).2
    (entry_at installed_512K_state 0xC0000000 MMU_PAGE_512K)
    = MkPte 0 PAGE_KERNEL_ROX true.
Proof. by_compute. Qed.

(** The block requested for the 8 MB sub-table has the size of one entry,
    4 bytes, aligned on 4 KB: it is not a block of the size of a page. *)
Lemma hugepd_alloc_block_is_not_page_sized :
  hpd_val boot_state (pmd_off_k 0xC0000000) = 0 /\
  memblock_reqs
    (early_hugepd_alloc_kernel (pmd_off_k 0xC0000000) 0xC0000000 boot_state).2
    = [(4, 0x1000)] /\
  PAGE_SIZE = 0x1000 /\
  ~ (exists align,
       memblock_reqs
         (early_hugepd_alloc_kernel (pmd_off_k 0xC0000000) 0xC0000000 boot_state).2
       = memblock_reqs boot_state ++ [(PAGE_SIZE, align)]).
Proof.
  by_compute. intros [align H]. vm_compute in H. discriminate.
Qed.

Example hugepd_alloc_on_board :
  let r := early_hugepd_alloc_kernel (pmd_off_k 0xC0000000) 0xC0000000 boot_state in
  r.1 = 0xC1FF0000 /\
  hpd_val r.2 (pmd_off_k 0xC0000000) = 0xC1FF0000 /\
  hpd_val r.2 (pmd_off_k 0xC0000000 + 1) = 0xC1FF0000 /\
  (early_hugepd_alloc_kernel (pmd_off_k 0xC0000000) 0xC0000000 r.2) = (0xC1FF0000, r.2).
Proof. by_compute. Qed.

Lemma new_install_respects_present_entries_witness :
  present_entry installed_512K_state 0xC0000000 MMU_PAGE_512K /\
  __early_map_kernel_hugepage 0xC0000000 0 PAGE_KERNEL_TEXT MMU_PAGE_512K true
    installed_512K_state =
    (- EINVAL,
     emit (EvMap 0xC0000000 0 PAGE_KERNEL_TEXT MMU_PAGE_512K true (- EINVAL))
       installed_512K_state) /\
  __early_map_kernel_hugepage 0xC0000000 0 PAGE_KERNEL_ROX MMU_PAGE_512K false
    installed_512K_state =
    (0,
     emit (EvMap 0xC0000000 0 PAGE_KERNEL_ROX MMU_PAGE_512K false 0)
       (set_ptmem
          (<[entry_at installed_512K_state 0xC0000000 MMU_PAGE_512K :=
               MkPte (Z.shiftr 0 PAGE_SHIFT) PAGE_KERNEL_ROX true]>
             (ptmem installed_512K_state))
          installed_512K_state)).
Proof.
  assert (present_entry installed_512K_state 0xC0000000 MMU_PAGE_512K) as Hp
    by (by_compute; now left).
  assert (PAGE_KERNEL_TEXT <> 0) as Hn by by_compute.
  destruct (new_install_respects_present_entries 0xC0000000 MMU_PAGE_512K) as [H _].
  destruct (H installed_512K_state Hp) as [Hnew Hre].
  split; [exact Hp|].
  split; [exact (Hnew 0 PAGE_KERNEL_TEXT Hn) | exact (Hre 0 PAGE_KERNEL_ROX)].
Defined.

Lemma early_hugepd_alloc_kernel_shares_one_block_witness :
  hpd_val boot_state 768 = 0 /\
  hd 0 (memblock boot_state) <> 0 /\
  memblock_reqs (early_hugepd_alloc_kernel 768 0xC0000000 boot_state).2
    = memblock_reqs boot_state ++ [(sizeof_pte_basic_t, SZ_4K)] /\
  hpd_val (early_hugepd_alloc_kernel 768 0xC0000000 boot_state).2 768
    = hd 0 (memblock boot_state) /\
  hpd_val (early_hugepd_alloc_kernel 768 0xC0000000 boot_state).2 (768 + 1)
    = hd 0 (memblock boot_state) /\
  (early_hugepd_alloc_kernel 768 0xC0000000 boot_state).1
    = hugepte_offset (hd 0 (memblock boot_state)) 0xC0000000 PGDIR_SHIFT.
Proof.
  assert (hpd_val boot_state 768 = 0) as Hz by reflexivity.
  assert (hd 0 (memblock boot_state) <> 0) as Hnz by by_compute.
  destruct (early_hugepd_alloc_kernel_shares_one_block 768 0xC0000000 boot_state)
    as [H _].
  destruct (H Hz) as (Hreq & _ & _ & _ & Hok).
  destruct (Hok Hnz) as (_ & H1 & H2 & H3).
  split; [exact Hz|]. split; [exact Hnz|]. split; [exact Hreq|].
  split; [exact H1|]. split; [exact H2 | exact H3].
Defined.


Example unaligned_head_on_board :
  run_trace (mmu_mapin_ram_chunk 0x80000 0x800000 PAGE_KERNEL true boot_state)
  = Some (0,
      [EvMap 0xC0080000 0x080000 PAGE_KERNEL MMU_PAGE_512K true 0;
       EvMap 0xC0100000 0x100000 PAGE_KERNEL MMU_PAGE_512K true 0;
       EvMap 0xC0180000 0x180000 PAGE_KERNEL MMU_PAGE_512K true 0;
       EvMap 0xC0200000 0x200000 PAGE_KERNEL MMU_PAGE_512K true 0;
       EvMap 0xC0280000 0x280000 PAGE_KERNEL MMU_PAGE_512K true 0;
       EvMap 0xC0300000 0x300000 PAGE_KERNEL MMU_PAGE_512K true 0;
       EvMap 0xC0380000 0x380000 PAGE_KERNEL MMU_PAGE_512K true 0;
       EvMap 0xC0400000 0x400000 PAGE_KERNEL MMU_PAGE_512K true 0;
       EvMap 0xC0480000 0x480000 PAGE_KERNEL MMU_PAGE_512K true 0;
       EvMap 0xC0500000 0x500000 PAGE_KERNEL MMU_PAGE_512K true 0;
       EvMap 0xC0580000 0x580000 PAGE_KERNEL MMU_PAGE_512K true 0;
       EvMap 0xC0600000 0x600000 PAGE_KERNEL MMU_PAGE_512K true 0;
       EvMap 0xC0680000 0x680000 PAGE_KERNEL MMU_PAGE_512K true 0;
       EvMap 0xC0700000 0x700000 PAGE_KERNEL MMU_PAGE_512K true 0;
       EvMap 0xC0780000 0x780000 PAGE_KERNEL MMU_PAGE_512K true 0]).
Proof. vm_compute. reflexivity. Qed.

Lemma setup_initial_memory_limit_clamps_witness :
  setup_initial_memory_limit 0x100000 0x4000000 boot_state = Bug /\
  setup_initial_memory_limit 0 0x4000000 boot_state =
    Done (memblock_set_current_limit 0x2000000 boot_state) /\
  setup_initial_memory_limit 0 0x1000000 boot_state =
    Done (memblock_set_current_limit 0x1000000 boot_state).
Proof.
  destruct (setup_initial_memory_limit_clamps boot_state) as (Hbug & _ & H64 & H16).
  split; [apply Hbug; by_compute|]. split; [exact H64 | exact H16].
Defined.

(** ** The protection changes on the board *)

Example mark_initmem_nx_after_boot :
  run_trace ('(_, s) ← mmu_mapin_ram 0 0x2000000 boot_state; mmu_mark_initmem_nx s)
  = Some (0,
      [EvMap 0xFFF00000 0xFF000000 PAGE_KERNEL_NCG MMU_PAGE_512K true 0;
       EvMap 0xC0000000 0 PAGE_KERNEL_TEXT MMU_PAGE_8M true 0;
       EvMap 0xC0800000 0x800000 PAGE_KERNEL_TEXT MMU_PAGE_8M true 0;
       EvMap 0xC1000000 0x1000000 PAGE_KERNEL MMU_PAGE_8M true 0;
       EvMap 0xC1800000 0x1800000 PAGE_KERNEL MMU_PAGE_8M true 0;
       EvMap 0xC0800000 0x800000 PAGE_KERNEL MMU_PAGE_8M false 0;
       EvFlush 0x81000000 0xC1000000;
       EvPin 0x2000000 false]).
Proof. vm_compute. reflexivity. Qed.

(** At the top of the address space the 8 MB ceiling of [p] wraps to 0 and
    the first loop does not run; the third loop maps the range, at virtual
    addresses that have wrapped as well. *)
Example chunks_at_the_top_of_the_words :
  ALIGN 0xFF880000 SZ_8M = 0 /\
  run_trace (mmu_mapin_ram_chunk 0xFF880000 0xFFA00000 PAGE_KERNEL true boot_state)
  = Some (0,
      [EvMap 0xBF880000 0xFF880000 PAGE_KERNEL MMU_PAGE_512K true 0;
       EvMap 0xBF900000 0xFF900000 PAGE_KERNEL MMU_PAGE_512K true 0;
       EvMap 0xBF980000 0xFF980000 PAGE_KERNEL MMU_PAGE_512K true 0]).
Proof. by_compute. Qed.

(** ** The sub-tables on the board *)

Lemma boot_state_ptrs_ok : ptrs_ok boot_state.
Proof.
  split; [by_compute|]. split.
  - intros slot. unfold pmd_val. simpl. rewrite lookup_empty. simpl. lia.
  - vm_compute. repeat (constructor; [intro; discriminate|]). constructor.
Defined.

Lemma early_hugepd_alloc_kernel_reuses_witness :
  hpd_val (early_hugepd_alloc_kernel 768 0xC0000000 boot_state).2 768 <> 0 /\
  forall va',
    early_hugepd_alloc_kernel 768 va' (early_hugepd_alloc_kernel 768 0xC0000000 boot_state).2 =
      (hugepte_offset (hpd_val (early_hugepd_alloc_kernel 768 0xC0000000 boot_state).2 768)
         va' PGDIR_SHIFT,
       (early_hugepd_alloc_kernel 768 0xC0000000 boot_state).2) /\
    (hpd_val boot_state 768 = 0 ->
     early_hugepd_alloc_kernel (768 + 1) va'
       (early_hugepd_alloc_kernel 768 0xC0000000 boot_state).2 =
       (hugepte_offset (hpd_val (early_hugepd_alloc_kernel 768 0xC0000000 boot_state).2 768)
          va' PGDIR_SHIFT,
        (early_hugepd_alloc_kernel 768 0xC0000000 boot_state).2)).
Proof.
  assert (hpd_val (early_hugepd_alloc_kernel 768 0xC0000000 boot_state).2 768 <> 0)
    as Hnz by by_compute.
  split; [exact Hnz|].
  exact (early_hugepd_alloc_kernel_reuses 768 0xC0000000 boot_state Hnz).
Defined.

(** ** The range mapper on the board, again *)

Lemma mmu_mapin_ram_chunk_keeps_tables_witness :
  exists err s',
    mmu_mapin_ram_chunk 0x400000 0x1900000 PAGE_KERNEL true boot_state = Some (err, s') /\
    slots_kept boot_state s' /\
    requests_bounded boot_state s' /\
    (true = false -> same_tables boot_state s').
Proof.
  apply (mmu_mapin_ram_chunk_keeps_tables 0x400000 0x1900000 PAGE_KERNEL true boot_state);
    by_compute.
Defined.

Lemma mmu_mapin_ram_chunk_stops_at_first_error_witness :
  exists err s' mapevs,
    mmu_mapin_ram_chunk 0x800000 0x1000000 PAGE_KERNEL_TEXT true mapped_8M_state
      = Some (err, s') /\
    length (rets mapevs) = length mapevs /\
    (exists n, rets mapevs = repeat 0 n ++ tail_code err) /\
    (true = true -> trace s' = trace mapped_8M_state ++ mapevs) /\
    (true = false ->
     exists start,
       trace s' = trace mapped_8M_state ++ mapevs ++
                  [EvFlush start (u32 (PAGE_OFFSET + 0x1000000))]).
Proof.
  apply (mmu_mapin_ram_chunk_stops_at_first_error 0x800000 0x1000000 PAGE_KERNEL_TEXT true
           mapped_8M_state); by_compute.
Defined.

Lemma mmu_mapin_ram_chunk_empty_range_witness :
  0x800000 <= 0x800000 /\
  mmu_mapin_ram_chunk 0x800000 0x800000 PAGE_KERNEL false boot_state =
    Some (0, flush_tlb_kernel_range (u32 (PAGE_OFFSET + u32 (PAGE_OFFSET + 0x800000)))
               (u32 (PAGE_OFFSET + 0x800000)) boot_state).
Proof.
  assert (0x800000 <= 0x800000) as Hle by lia.
  split; [exact Hle|].
  exact (mmu_mapin_ram_chunk_empty_range 0x800000 0x800000 PAGE_KERNEL false boot_state Hle).
Defined.

Lemma mmu_mapin_ram_chunk_follows_plan_witness :
  exists err s' evs,
    mmu_mapin_ram_chunk 0x400000 0x1900000 PAGE_KERNEL true boot_state = Some (err, s') /\
    trace s' = trace boot_state ++ evs /\
    (err = 0 -> chunks_of evs = chunk_plan 0x400000 0x1900000).
Proof.
  apply (mmu_mapin_ram_chunk_follows_plan 0x400000 0x1900000 PAGE_KERNEL true boot_state);
    by_compute.
Defined.

Lemma mmu_mapin_ram_chunk_prefers_8M_witness :
  exists err s' evs,
    mmu_mapin_ram_chunk 0x400000 0x1900000 PAGE_KERNEL true boot_state = Some (err, s') /\
    trace s' = trace boot_state ++ evs /\
    (err = 0 ->
     Forall (fun c => c_size c = SZ_512K -> no_room_for_8M 0x400000 0x1900000 (c_pa c))
            (chunks_of evs)).
Proof.
  apply (mmu_mapin_ram_chunk_prefers_8M 0x400000 0x1900000 PAGE_KERNEL true boot_state);
    by_compute.
Defined.

Example chunk_plan_4M_to_25M :
  chunk_plan 0x400000 0x1900000 =
    map (fun pa => MkChunk (0xC0000000 + pa) pa SZ_512K)
        [0x400000; 0x480000; 0x500000; 0x580000; 0x600000; 0x680000; 0x700000; 0x780000] ++
    [MkChunk 0xC0800000 0x800000 SZ_8M; MkChunk 0xC1000000 0x1000000 SZ_8M] ++
    map (fun pa => MkChunk (0xC0000000 + pa) pa SZ_512K) [0x1800000; 0x1880000].
Proof. by_compute. Qed.

Lemma mmu_mapin_ram_chunk_reprotect_after_new_witness :
  is_ulong 0x800000 /\ is_ulong 0x1000000 /\
  mmu_mapin_ram_chunk 0x800000 0x1000000 PAGE_KERNEL_TEXT true boot_state
    = Some (0, mapped_8M_state) /\
  ptrs_ok mapped_8M_state /\
  slots_kept mapped_8M_state mapped_8M_state /\
  exists sR',
    mmu_mapin_ram_chunk 0x800000 0x1000000 PAGE_KERNEL false mapped_8M_state
      = Some (0, sR') /\
    same_tables mapped_8M_state sR'.
Proof.
  assert (is_ulong 0x800000) as Ho by by_compute.
  assert (is_ulong 0x1000000) as Ht by by_compute.
  assert (mmu_mapin_ram_chunk 0x800000 0x1000000 PAGE_KERNEL_TEXT true boot_state
            = Some (0, mapped_8M_state)) as Hc by (vm_compute; reflexivity).
  assert (ptrs_ok mapped_8M_state) as Hok
    by exact (chunk_call_ptrs _ _ _ _ _ _ _ Hc boot_state_ptrs_ok).
  assert (slots_kept mapped_8M_state mapped_8M_state) as Hk by (intros slot H; exact H).
  split; [exact Ho|]. split; [exact Ht|]. split; [exact Hc|]. split; [exact Hok|].
  split; [exact Hk|].
  exact (mmu_mapin_ram_chunk_reprotect_after_new 0x800000 0x1000000 PAGE_KERNEL_TEXT
           PAGE_KERNEL boot_state mapped_8M_state mapped_8M_state Ho Ht Hc Hok Hk).
Defined.

(** ** The boot on the board, again *)

Lemma mmu_mapin_ram_maps_all_ram_witness :
  exists s' immr_evs ram_evs,
    mmu_mapin_ram 0 0x2000000 boot_state = Some (0x2000000, s') /\
    block_mapped_ram s' = 0x2000000 /\
    trace s' = trace boot_state ++ immr_evs ++ ram_evs ++
               (if SZ_32M <? 0x2000000 then [EvSetLimit 0x2000000] else []) /\
    trace (mmu_mapin_immr boot_state) = trace boot_state ++ immr_evs /\
    length (rets ram_evs) = length ram_evs /\
    (Forall (fun r => r = 0) (rets ram_evs) ->
     tiles c_pa (chunks_of ram_evs) 0 0x2000000 /\
     Forall (chunk_within 0 0x2000000) (chunks_of ram_evs)).
Proof.
  apply (mmu_mapin_ram_maps_all_ram 0 0x2000000 boot_state); by_compute.
Defined.

Lemma mmu_mapin_ram_opens_ram_window_witness :
  exists ret s',
    mmu_mapin_ram 0 0x2000000 boot_state = Some (ret, s') /\
    ret = (if debug_pagealloc_enabled_or_kfence then __pa _sinittext else 0x2000000) /\
    (forall pa, in_phys_immr pa = false ->
       p_block_mapped s' pa = if pa <? ret then u32 (pa + PAGE_OFFSET) else 0) /\
    (forall va, in_virt_immr va = false ->
       v_block_mapped s' va =
         if (PAGE_OFFSET <=? va) && (va <? u32 (PAGE_OFFSET + ret))
         then u32 (va - PAGE_OFFSET) else 0).
Proof.
  apply (mmu_mapin_ram_opens_ram_window 0 0x2000000 boot_state); by_compute.
Defined.

Lemma block_mapped_stays_in_windows_witness :
  layout_ok mapped_32M_state /\
  (forall va, is_ulong va -> in_virt_immr va = true ->
     v_block_mapped mapped_32M_state va = PHYS_IMMR_BASE + (va - VIRT_IMMR_BASE) /\
     in_phys_immr (v_block_mapped mapped_32M_state va) = true) /\
  (forall va, is_ulong va -> in_virt_ram mapped_32M_state va = true ->
     v_block_mapped mapped_32M_state va = va - PAGE_OFFSET /\
     in_phys_ram mapped_32M_state (v_block_mapped mapped_32M_state va) = true /\
     in_phys_immr (v_block_mapped mapped_32M_state va) = false) /\
  (forall pa, is_ulong pa -> in_phys_immr pa = true ->
     p_block_mapped mapped_32M_state pa = VIRT_IMMR_BASE + (pa - PHYS_IMMR_BASE) /\
     in_virt_immr (p_block_mapped mapped_32M_state pa) = true) /\
  (forall pa, is_ulong pa -> in_phys_ram mapped_32M_state pa = true ->
     p_block_mapped mapped_32M_state pa = PAGE_OFFSET + pa /\
     in_virt_ram mapped_32M_state (p_block_mapped mapped_32M_state pa) = true /\
     in_virt_immr (p_block_mapped mapped_32M_state pa) = false).
Proof.
  split; [exact board_layout_ok|].
  exact (block_mapped_stays_in_windows mapped_32M_state board_layout_ok).
Defined.

(** ** The protection changes after the boot *)

Lemma mmu_mark_initmem_nx_after_boot_witness :
  debug_pagealloc_enabled_or_kfence = false /\
  is_ulong 0x2000000 /\
  ptrs_ok boot_state /\
  mmu_mapin_ram 0 0x2000000 boot_state = Some (0x2000000, booted_state) /\
  trace booted_state = trace boot_state ++
    [EvMap 0xFFF00000 0xFF000000 PAGE_KERNEL_NCG MMU_PAGE_512K true 0;
     EvMap 0xC0000000 0 PAGE_KERNEL_TEXT MMU_PAGE_8M true 0;
     EvMap 0xC0800000 0x800000 PAGE_KERNEL_TEXT MMU_PAGE_8M true 0;
     EvMap 0xC1000000 0x1000000 PAGE_KERNEL MMU_PAGE_8M true 0;
     EvMap 0xC1800000 0x1800000 PAGE_KERNEL MMU_PAGE_8M true 0] /\
  exists s2,
    mmu_mark_initmem_nx booted_state = Some (0, s2) /\ same_tables booted_state s2.
Proof.
  assert (debug_pagealloc_enabled_or_kfence = false) as Hdbg by reflexivity.
  assert (is_ulong 0x2000000) as Ht by by_compute.
  assert (mmu_mapin_ram 0 0x2000000 boot_state = Some (0x2000000, booted_state)) as Hb
    by (vm_compute; reflexivity).
  assert (trace booted_state = trace boot_state ++
    [EvMap 0xFFF00000 0xFF000000 PAGE_KERNEL_NCG MMU_PAGE_512K true 0;
     EvMap 0xC0000000 0 PAGE_KERNEL_TEXT MMU_PAGE_8M true 0;
     EvMap 0xC0800000 0x800000 PAGE_KERNEL_TEXT MMU_PAGE_8M true 0;
     EvMap 0xC1000000 0x1000000 PAGE_KERNEL MMU_PAGE_8M true 0;
     EvMap 0xC1800000 0x1800000 PAGE_KERNEL MMU_PAGE_8M true 0]) as Htr
    by (vm_compute; reflexivity).
  split; [exact Hdbg|]. split; [exact Ht|]. split; [exact boot_state_ptrs_ok|].
  split; [exact Hb|]. split; [exact Htr|].
  apply (mmu_mark_initmem_nx_after_boot 0 0x2000000 boot_state booted_state _ Hdbg Ht
           boot_state_ptrs_ok Hb Htr).
  vm_compute. repeat constructor.
Defined.

Section StrictBoard.

#[local] Existing Instance mpc8xx_strict | 0.

Lemma boot_state_ptrs_ok_strict : ptrs_ok boot_state.
Proof.
  split; [by_compute|]. split.
  - intros slot. unfold pmd_val. simpl. rewrite lookup_empty. simpl. lia.
  - vm_compute. repeat (constructor; [intro; discriminate|]). constructor.
Defined.

Lemma mmu_mark_rodata_ro_after_boot_witness :
  strict_kernel_rwx_enabled || debug_pagealloc_enabled_or_kfence = true /\
  is_ulong 0x2000000 /\
  ptrs_ok boot_state /\
  mmu_mapin_ram 0 0x2000000 boot_state = Some (0x2000000, booted_strict_state) /\
  trace booted_strict_state = trace boot_state ++
    [EvMap 0xFFF00000 0xFF000000 PAGE_KERNEL_NCG MMU_PAGE_512K true 0;
     EvMap 0xC0000000 0 PAGE_KERNEL_TEXT MMU_PAGE_8M true 0;
     EvMap 0xC0800000 0x800000 PAGE_KERNEL_TEXT MMU_PAGE_8M true 0;
     EvMap 0xC1000000 0x1000000 PAGE_KERNEL MMU_PAGE_8M true 0;
     EvMap 0xC1800000 0x1800000 PAGE_KERNEL MMU_PAGE_8M true 0] /\
  exists s2,
    mmu_mark_rodata_ro booted_strict_state = Some (0, s2) /\
    same_tables booted_strict_state s2.
Proof.
  assert (strict_kernel_rwx_enabled || debug_pagealloc_enabled_or_kfence = true) as Hs
    by reflexivity.
  assert (is_ulong 0x2000000) as Ht by by_compute.
  assert (mmu_mapin_ram 0 0x2000000 boot_state = Some (0x2000000, booted_strict_state))
    as Hb by (vm_compute; reflexivity).
  assert (trace booted_strict_state = trace boot_state ++
    [EvMap 0xFFF00000 0xFF000000 PAGE_KERNEL_NCG MMU_PAGE_512K true 0;
     EvMap 0xC0000000 0 PAGE_KERNEL_TEXT MMU_PAGE_8M true 0;
     EvMap 0xC0800000 0x800000 PAGE_KERNEL_TEXT MMU_PAGE_8M true 0;
     EvMap 0xC1000000 0x1000000 PAGE_KERNEL MMU_PAGE_8M true 0;
     EvMap 0xC1800000 0x1800000 PAGE_KERNEL MMU_PAGE_8M true 0]) as Htr
    by (vm_compute; reflexivity).
  split; [exact Hs|]. split; [exact Ht|]. split; [exact boot_state_ptrs_ok_strict|].
  split; [exact Hb|]. split; [exact Htr|].
  apply (mmu_mark_rodata_ro_after_boot 0 0x2000000 boot_state 0x2000000
           booted_strict_state _ Hs Ht boot_state_ptrs_ok_strict Hb Htr).
  vm_compute. repeat constructor.
Defined.

Example mark_rodata_ro_after_strict_boot :
  run_trace ('(_, s) ← mmu_mapin_ram 0 0x2000000 boot_state; mmu_mark_rodata_ro s)
  = Some (0,
      [EvMap 0xFFF00000 0xFF000000 PAGE_KERNEL_NCG MMU_PAGE_512K true 0;
       EvMap 0xC0000000 0 PAGE_KERNEL_TEXT MMU_PAGE_8M true 0;
       EvMap 0xC0800000 0x800000 PAGE_KERNEL_TEXT MMU_PAGE_8M true 0;
       EvMap 0xC1000000 0x1000000 PAGE_KERNEL MMU_PAGE_8M true 0;
       EvMap 0xC1800000 0x1800000 PAGE_KERNEL MMU_PAGE_8M true 0;
       EvMap 0xC0000000 0 PAGE_KERNEL_ROX MMU_PAGE_8M false 0;
       EvFlush 0x80800000 0xC0800000]).
Proof. vm_compute. reflexivity. Qed.

End StrictBoard.

(** ** The range mapper and the boot on the board, by the codes of the
    installer calls *)

Lemma mmu_mapin_ram_chunk_tiles_witness :
  exists s' evs,
    mmu_mapin_ram_chunk 0x400000 0x1900000 PAGE_KERNEL true boot_state = Some (0, s') /\
    trace s' = trace boot_state ++ evs /\
    length (rets evs) = 12%nat /\
    Forall (fun r => r = 0) (rets evs) /\
    tiles c_pa (chunks_of evs) 0x400000 0x1900000 /\
    Forall (chunk_within 0x400000 0x1900000) (chunks_of evs) /\
    (forall x, 0x400000 <= x < 0x1900000 <->
               exists c, c ∈ chunks_of evs /\ covers c_pa c x) /\
    (forall (i j : nat) ci cj x,
       chunks_of evs !! i = Some ci -> chunks_of evs !! j = Some cj ->
       covers c_pa ci x -> covers c_pa cj x -> i = j) /\
    (PAGE_OFFSET + 0x1900000 <= 2 ^ 32 ->
     tiles c_va (chunks_of evs) (PAGE_OFFSET + 0x400000) (PAGE_OFFSET + 0x1900000) /\
     (forall x, PAGE_OFFSET + 0x400000 <= x < PAGE_OFFSET + 0x1900000 <->
                exists c, c ∈ chunks_of evs /\ covers c_va c x) /\
     (forall (i j : nat) ci cj x,
        chunks_of evs !! i = Some ci -> chunks_of evs !! j = Some cj ->
        covers c_va ci x -> covers c_va cj x -> i = j)).
Proof.
  assert (is_ulong PAGE_OFFSET) as Hpo by by_compute.
  assert (is_ulong 0x400000) as Ho by by_compute.
  assert (is_ulong 0x1900000) as Ht by by_compute.
  assert (IS_ALIGNED 0x400000 SZ_512K = true) as Hao by reflexivity.
  assert (IS_ALIGNED 0x1900000 SZ_512K = true) as Hat by reflexivity.
  assert (0x400000 < 0x1900000) as Hlt by reflexivity.
  destruct (mmu_mapin_ram_chunk_tiles 0x400000 0x1900000 PAGE_KERNEL true boot_state
              Hpo Ho Ht Hao Hat Hlt) as (err & s' & evs & Hc & Htr & Hcodes & Htiles).
  pose proof chunks_4M_to_25M as Hex. rewrite Hc in Hex. simpl in Hex.
  injection Hex as He Hev. rewrite Htr in Hev. simpl in Hev. subst err evs.
  eexists s', _. split; [exact Hc|]. split; [exact Htr|]. split; [reflexivity|].
  split; [apply Hcodes; reflexivity|]. apply Htiles, Hcodes. reflexivity.
Defined.

Lemma mmu_mapin_ram_chunk_unaligned_head_witness :
  exists s' evs,
    mmu_mapin_ram_chunk 0x80000 0x800000 PAGE_KERNEL true boot_state = Some (0, s') /\
    trace s' = trace boot_state ++ evs /\
    Forall (only_psize MMU_PAGE_512K) evs /\
    length (rets evs) = 15%nat /\
    Forall (fun r => r = 0) (rets evs) /\
    chunks_of evs = run_chunks (fun pa => u32 (PAGE_OFFSET + pa)) SZ_512K 0x80000 15.
Proof.
  destruct (mmu_mapin_ram_chunk_unaligned_head PAGE_KERNEL true boot_state)
    as (err & s' & evs & Hc & Htr & Hsmall & Hcodes & Hchunks).
  pose proof unaligned_head_on_board as Hex. rewrite Hc in Hex. simpl in Hex.
  injection Hex as He Hev. rewrite Htr in Hev. simpl in Hev. subst err evs.
  eexists s', _. split; [exact Hc|]. split; [exact Htr|]. split; [exact Hsmall|].
  split; [reflexivity|]. split; [apply Hcodes; reflexivity|].
  apply Hchunks, Hcodes. reflexivity.
Defined.

Lemma mmu_mapin_ram_sets_top_last_witness :
  is_ulong 0x2000000 /\
  exists s' immr_evs ram_evs,
    mmu_mapin_ram 0 0x2000000 boot_state = Some (0x2000000, s') /\
    block_mapped_ram s' = 0x2000000 /\
    trace s' = trace boot_state ++ immr_evs ++ ram_evs ++ [] /\
    ram_seen s' = ram_seen boot_state ++
      repeat (block_mapped_ram boot_state) (length (immr_evs ++ ram_evs ++ [])) /\
    ((immr_is_mapped boot_state = true /\ immr_evs = []) \/
     (immr_is_mapped boot_state = false /\
      exists r, immr_evs = [EvMap VIRT_IMMR_BASE PHYS_IMMR_BASE PAGE_KERNEL_NCG
                                  MMU_PAGE_512K true r])) /\
    Forall (fun e => only_psize MMU_PAGE_512K e \/ only_psize MMU_PAGE_8M e) ram_evs /\
    (false = true -> Forall (call_below 0x2000000) ram_evs).
Proof.
  assert (is_ulong 0x2000000) as Ht by by_compute.
  split; [exact Ht|].
  exact (mmu_mapin_ram_sets_top_last 0 0x2000000 boot_state Ht).
Defined.

(** Where the board boots, the five installer calls of [mmu_mapin_ram] have
    all seen [block_mapped_ram] at 0, the value of the boot state, and the
    call has left it at 32 MB. *)
Example boot_writes_top_last :
  block_mapped_ram boot_state = 0 /\
  block_mapped_ram booted_state = 0x2000000 /\
  rets (trace booted_state) = [0; 0; 0; 0; 0] /\
  ram_seen booted_state = [0; 0; 0; 0; 0].
Proof. by_compute. Qed.
